(** * spaudiopy.IO: synthesis of the full-circle BRIR bank

    A shallow embedding of [spaudiopy/IO.py]: the HRIR loader [load_hrirs]
    and the two writers [write_ssr_brirs_loudspeaker] and
    [write_ssr_brirs_sdm], with the numpy operations they rely on.

    Samples are exact rationals ([Q]).  The source computes in IEEE double
    precision; rounding, infinities and NaN are outside this model, which
    states the arithmetic of the source as the spec does (up to
    floating-point tolerance).  Python exceptions are values of [exn], and
    a function that warns, renders or writes a file returns the list of
    these events next to its outcome.

    The audio loader [load_audio] and the SDM loader [load_sdm] follow.  [load_sdm] tests its samples for NaN, so its
    arrays hold samples that may be NaN. *)

From Stdlib Require Import ZArith QArith Qabs Qminmax String Lia DecimalString.
From stdpp Require Import base list.

(** ** Python exceptions *)

Inductive exn : Type :=
| ValueError (msg : string)
| IndexError (msg : string)
| FloatingPointError (msg : string)
| AssertionError
| OSError (msg : string).

(** The error kinds of the design document are these exceptions of the
    source. *)
Definition UnsupportedSampleRate : exn := ValueError "No default hrirs.".
Definition MissingDefaultData : exn :=
  ValueError "No default hrirs. Try running HRIRs_from_SH.py".
Definition SampleRateMismatch : exn := AssertionError.

(** [OSError] stands for itself and for its subclasses, such as
    [FileNotFoundError] and [PermissionError]: what [wavfile.write] raises
    for a destination it cannot create or write, the [IOFailure] of the
    design document. *)

(** ** numpy arrays of dimension 0, 1 and 2 *)

Inductive ndarray : Type :=
| Arr0 (x : Q)
| Arr1 (v : list Q)
| Arr2 (g h : nat) (rows : list (list Q)).

Definition shape (a : ndarray) : list nat :=
  match a with
  | Arr0 _ => []
  | Arr1 v => [length v]
  | Arr2 g h _ => [g; h]
  end.

(** A two-dimensional array holds [g] rows of [h] samples each. *)
Definition wf (a : ndarray) : Prop :=
  match a with
  | Arr2 g h rows => length rows = g ∧ Forall (λ r, length r = h) rows
  | _ => True
  end.

(** The samples of an array in row-major order. *)
Definition elems (a : ndarray) : list Q :=
  match a with
  | Arr0 x => [x]
  | Arr1 v => v
  | Arr2 _ _ rows => concat rows
  end.

(** Element-wise application, as numpy's ufuncs do. *)
Definition amap (f : Q → Q) (a : ndarray) : ndarray :=
  match a with
  | Arr0 x => Arr0 (f x)
  | Arr1 v => Arr1 (map f v)
  | Arr2 g h rows => Arr2 g h (map (map f) rows)
  end.

(** [a.shape[i]] *)
Definition shape_at (a : ndarray) (i : nat) : exn + nat :=
  match shape a !! i with
  | Some n => inr n
  | None => inl (IndexError "tuple index out of range")
  end.

(** [np.zeros((g, h))] *)
Definition np_zeros (g : nat) (h : Z) : exn + ndarray :=
  if (h <? 0)%Z then inl (ValueError "negative dimensions are not allowed")
  else inr (Arr2 g (Z.to_nat h) (replicate g (replicate (Z.to_nat h) 0%Q))).

(** [np.zeros_like(a)] *)
Definition np_zeros_like (a : ndarray) : ndarray :=
  match a with
  | Arr0 _ => Arr0 0
  | Arr1 v => Arr1 (replicate (length v) 0%Q)
  | Arr2 g h _ => Arr2 g h (replicate g (replicate h 0%Q))
  end.

(** [np.ones(n)] *)
Definition np_ones (n : nat) : list Q := replicate n 1%Q.

(** [np.squeeze(a)]: the axes of length one are dropped, the samples keep
    their order. *)
Definition np_squeeze (a : ndarray) : ndarray :=
  match a with
  | Arr0 x => Arr0 x
  | Arr1 v => match v with [x] => Arr0 x | _ => Arr1 v end
  | Arr2 g h rows =>
      match g, h with
      | 1, 1 => Arr0 (hd 0%Q (concat rows))
      | 1, _ | _, 1 => Arr1 (concat rows)
      | _, _ => Arr2 g h rows
      end
  end.

(** [a[i, :] = v] for a one-dimensional [v]: the row is replaced when [v]
    has the length of a row, a single sample is broadcast over the row, and
    any other length is refused. *)
Definition setitem_row (a : ndarray) (i : nat) (v : list Q) : exn + ndarray :=
  match a with
  | Arr2 g h rows =>
      if negb (i <? g) then inl (IndexError "index is out of bounds for axis 0")
      else if length v =? h then inr (Arr2 g h (<[i:=v]> rows))
      else match v with
           | [x] => inr (Arr2 g h (<[i:=replicate h x]> rows))
           | _ => inl (ValueError "could not broadcast input array")
           end
  | _ => inl (IndexError "too many indices for array")
  end.

(** [a[:, j] = v] for a one-dimensional [v]. *)
Definition setitem_col (a : ndarray) (j : nat) (v : list Q) : exn + ndarray :=
  match a with
  | Arr2 g h rows =>
      if negb (j <? h) then inl (IndexError "index is out of bounds for axis 1")
      else if length v =? g then
        inr (Arr2 g h (zip_with (λ x r, <[j:=x]> r) v rows))
      else match v with
           | [x] => inr (Arr2 g h (map (λ r, <[j:=x]> r) rows))
           | _ => inl (ValueError "could not broadcast input array")
           end
  | _ => inl (IndexError "too many indices for array")
  end.

(** [np.abs(a)] *)
Definition np_abs (a : ndarray) : ndarray := amap Qabs a.

(** [np.max(a)]: the reduction has no identity, an array without samples is
    refused. *)
Definition np_max (a : ndarray) : exn + Q :=
  match elems a with
  | [] => inl (ValueError "zero-size array to reduction operation maximum which has no identity")
  | x :: xs => inr (fold_left Qmax xs x)
  end.

(** [x > y] on samples. *)
Definition Qgtb (x y : Q) : bool := negb (Qle_bool x y).

(** [a.T] *)
Definition np_transpose (a : ndarray) : ndarray :=
  match a with
  | Arr2 g h rows =>
      Arr2 h g (map (λ j, map (λ r, nth j r 0%Q) rows) (seq 0 h))
  | _ => a
  end.

(** ** The HRTF container and the HRIR set *)

(** The dictionary [loadmat] returns, at the five keys [load_hrirs] reads. *)
Record mat : Type := mkMat {
  mat_hrir_l : ndarray;
  mat_hrir_r : ndarray;
  mat_SamplingRate : Z;
  mat_azi : ndarray;
  mat_elev : ndarray
}.

(** Modelled from the spec: [sig.HRIRs], whose class is not part of the
    sources at hand.  The design document gives the set as the record of
    the two ear arrays, the grid and the sample rate.  The constructor,
    [sig_HRIRs] below, stores its four arguments in it when the invariant
    of the set holds, and raises otherwise. *)
Record HRIRs (G : Type) : Type := mkHRIRs {
  left : ndarray;
  right : ndarray;
  grid : G;
  fs : Z
}.
Arguments mkHRIRs {G} _ _ _ _.
Arguments left {G} _.
Arguments right {G} _.
Arguments grid {G} _.
Arguments fs {G} _.

(** ** Collaborators outside [IO.py]

    What the module calls and does not define: numpy's constant pi and the
    cast to single precision, pandas' [DataFrame], scipy's [loadmat] (with
    [None] for a file that is not found), the directory of the module, the
    length of an HRIR set ([sig.HRIRs.__len__]), the invariant the
    constructor of an HRIR set asserts of the shapes of its two arrays and
    of its grid, the two binaural renderers, and how a call of scipy's
    [wavfile.write] ends: with the file written, or with the exception it
    raises for a destination it cannot write. *)
Class External : Type := {
  np_pi : Q;
  astype_float32 : Q → Q;
  DataFrame : Type;
  pd_DataFrame : ndarray → ndarray → exn + DataFrame;
  loadmat : string → option mat;
  current_file_dir : string;
  HRIRs_len : HRIRs DataFrame → nat;
  HRIRs_invariant : list nat → list nat → DataFrame → bool;
  LoudspeakerSetup : Type;
  binauralize :
    LoudspeakerSetup → ndarray → Z → Q * Q → HRIRs DataFrame → list Q * list Q;
  render_bsdm :
    list Q → list Q → list Q → HRIRs DataFrame → list Q * list Q;
  wavfile_outcome : string → Z → ndarray → exn + unit
}.

(** ** Effects

    A run yields the events it issued, in order, and either the exception
    it raised or its value.  The events of a run that raises are those
    issued before the exception. *)
Definition Run (Ev A : Type) : Type := list Ev * (exn + A).

Definition ret {Ev A} (a : A) : Run Ev A := ([], inr a).

Definition raise {Ev A} (e : exn) : Run Ev A := ([], inl e).

Definition bind {Ev A B} (m : Run Ev A) (k : A → Run Ev B) : Run Ev B :=
  match m with
  | (t, inl e) => (t, inl e)
  | (t, inr a) => let '(t', r) := k a in (t ++ t', r)
  end.

Definition lift {Ev A} (r : exn + A) : Run Ev A := ([], r).

Definition emit {Ev} (ev : Ev) : Run Ev unit := ([ev], inr tt).

Notation "x <- m ;; k" := (bind m (λ x, k))
  (at level 100, m at next level, right associativity).
Notation "m ;; k" := (bind m (λ _, k))
  (at level 100, right associativity).

(** [for x in l: s = body(x, s)] *)
Fixpoint for_each {Ev A S} (body : A → S → Run Ev S) (l : list A) (s : S)
    : Run Ev S :=
  match l with
  | [] => ret s
  | x :: l' => s' <- body x s;; for_each body l' s'
  end.

(** [assert c] *)
Definition assert {Ev} (c : bool) : Run Ev unit :=
  if c then ret tt else raise AssertionError.

(** A run that ends with an exception. *)
Definition fails {Ev A} (m : Run Ev A) : Prop := ∃ e, m.2 = inl e.

Section IO.
Context `{Ext : External}.

Abbreviation hrirs_t := (HRIRs DataFrame).

(** What a run of this module does besides computing: the warnings it
    issues and the calls it makes to the two renderers and to
    [wavfile.write], with their arguments. *)
Inductive event : Type :=
| EvWarn (msg : string)
| EvBinauralize (hull : LoudspeakerSetup) (ls_irs : ndarray) (fs : Z)
    (orientation : Q * Q) (hrirs : hrirs_t)
| EvRenderBsdm (sdm_p sdm_phi sdm_theta : list Q) (hrirs : hrirs_t)
| EvWavfileWrite (filename : string) (fs : Z) (data : ndarray).

Abbreviation M := (Run event).

(** [warn(msg)] *)
Definition warn (msg : string) : M unit := emit (EvWarn msg).

(** [hull.binauralize(ls_irs, fs, orientation=..., hrirs=hrirs)] *)
Definition call_binauralize (hull : LoudspeakerSetup) (ls_irs : ndarray)
    (fs : Z) (orientation : Q * Q) (hrirs : hrirs_t) : M (list Q * list Q) :=
  emit (EvBinauralize hull ls_irs fs orientation hrirs);;
  ret (binauralize hull ls_irs fs orientation hrirs).

(** [sdm.render_bsdm(sdm_p, sdm_phi, sdm_theta, hrirs=hrirs)] *)
Definition call_render_bsdm (sdm_p sdm_phi sdm_theta : list Q)
    (hrirs : hrirs_t) : M (list Q * list Q) :=
  emit (EvRenderBsdm sdm_p sdm_phi sdm_theta hrirs);;
  ret (render_bsdm sdm_p sdm_phi sdm_theta hrirs).

(** [wavfile.write(filename, fs, data)]: the call is an event, and the run
    goes on, or ends, as the call does. *)
Definition wavfile_write (filename : string) (fs : Z) (data : ndarray) : M unit :=
  emit (EvWavfileWrite filename fs data);;
  lift (wavfile_outcome filename fs data).

(** [sig.HRIRs(left, right, grid, fs)].  Modelled from the spec: the
    constructor asserts the invariant of the set and stores its four
    arguments. *)
Definition sig_HRIRs (left right : ndarray) (grid : DataFrame) (fs : Z)
    : exn + hrirs_t :=
  if HRIRs_invariant (shape left) (shape right) grid
  then inr (mkHRIRs left right grid fs)
  else inl AssertionError.

(** [a / d] with a scalar [d].  In double precision a zero divisor yields
    infinities and NaN, which are no rationals: the model makes that outcome
    a fault of its own (numpy's [FloatingPointError]) instead of a value. *)
Definition np_divide (a : ndarray) (d : Q) : M ndarray :=
  if Qeq_bool d 0 then raise (FloatingPointError "divide by zero encountered in divide")
  else ret (amap (λ x, x / d)%Q a).

(** [np.deg2rad(angle)] *)
Definition np_deg2rad (angle : nat) : Q :=
  (inject_Z (Z.of_nat angle) * (np_pi / 180))%Q.

(** [os.path.join(a, b)] for a relative [b]. *)
Definition os_path_join (a b : string) : string :=
  if String.eqb a "" then b
  else if String.eqb (substring (String.length a - 1) 1 a) "/" then (a ++ b)%string
  else (a ++ "/" ++ b)%string.

(** [s[-4:]] *)
Definition last4 (s : string) : string :=
  substring (String.length s - 4) 4 s.

(** ** [load_hrirs] *)

Definition default_file (fs : Z) : M string :=
  if (fs =? 44100)%Z then ret "../data/HRTF_default.mat"%string
  else if (fs =? 48000)%Z then ret "../data/HRTF_default48k.mat"%string
  else raise (ValueError "No default hrirs.").

(** The branch [if dummy is True]: a unit impulse at the first sample of
    every row. *)
Definition diracs (hrir : ndarray) : M ndarray :=
  let hrir := np_zeros_like hrir in
  n <- lift (shape_at hrir 0);;
  lift (setitem_col hrir 0 (np_ones n)).

(** The block [if filename is None]: the path of the container. *)
Definition hrirs_filename (fs_arg : Z) (filename : option string) : M string :=
  match filename with
  | None =>
      default_file <- default_file fs_arg;;
      let current_file_dir := current_file_dir in
      ret (os_path_join current_file_dir default_file)
  | Some filename => ret filename
  end.

Definition load_hrirs (fs_arg : Z) (filename : option string) (dummy : bool)
    : M hrirs_t :=
  filename <- hrirs_filename fs_arg filename;;
  mat <- match loadmat filename with
         | Some m => ret m
         | None => raise (ValueError "No default hrirs. Try running HRIRs_from_SH.py")
         end;;
  let hrir_l := np_squeeze (mat_hrir_l mat) in
  let hrir_r := np_squeeze (mat_hrir_r mat) in
  let hrir_fs := mat_SamplingRate mat in
  let azi := np_squeeze (mat_azi mat) in
  let elev := np_squeeze (mat_elev mat) in
  grid <- lift (pd_DataFrame azi elev);;
  hrir_lr <- (if dummy then
                hrir_l <- diracs hrir_l;;
                hrir_r <- diracs hrir_r;;
                ret (hrir_l, hrir_r)
              else ret (hrir_l, hrir_r));;
  let '(hrir_l, hrir_r) := hrir_lr in
  HRIRs <- lift (sig_HRIRs hrir_l hrir_r grid hrir_fs);;
  assert (fs HRIRs =? fs_arg)%Z;;
  ret HRIRs.

(** ** The orientation sweep *)

(** Lines 214 to 222 of [write_ssr_brirs_loudspeaker]: the bank
    [ssr_brirs] after the loop over the 360 orientations. *)
Definition ssr_brirs_loudspeaker (ls_irs : ndarray) (hull : LoudspeakerSetup)
    (fs : Z) (hrirs : hrirs_t) : M ndarray :=
  s <- lift (shape_at ls_irs 1);;
  ssr_brirs <- lift (np_zeros 720 (Z.of_nat s + Z.of_nat (HRIRs_len hrirs) - 1));;
  for_each (λ angle ssr_brirs,
      irs <- call_binauralize hull ls_irs fs (np_deg2rad angle, 0%Q) hrirs;;
      let '(ir_l, ir_r) := irs in
      ssr_brirs <- lift (setitem_row ssr_brirs (2 * angle) ir_l);;
      lift (setitem_row ssr_brirs (2 * angle + 1) ir_r))
    (seq 0 360) ssr_brirs.

(** Lines 259 to 267 of [write_ssr_brirs_sdm]. *)
Definition ssr_brirs_sdm (sdm_p sdm_phi sdm_theta : list Q) (hrirs : hrirs_t)
    : M ndarray :=
  ssr_brirs <- lift (np_zeros 720
                       (Z.of_nat (length sdm_p) + Z.of_nat (HRIRs_len hrirs) - 1));;
  for_each (λ angle ssr_brirs,
      let sdm_phi_rot := map (λ x, x - np_deg2rad angle)%Q sdm_phi in
      irs <- call_render_bsdm sdm_p sdm_phi_rot sdm_theta hrirs;;
      let '(ir_l, ir_r) := irs in
      ssr_brirs <- lift (setitem_row ssr_brirs (2 * angle) ir_l);;
      lift (setitem_row ssr_brirs (2 * angle + 1) ir_r))
    (seq 0 360) ssr_brirs.

(** ** The normalizer

    The block under the comment [# normalize], the same in both writers. *)
Definition normalize (ssr_brirs : ndarray) : M ndarray :=
  m <- lift (np_max (np_abs ssr_brirs));;
  if Qgtb m 1 then
    warn "Normalizing BRIRs";;
    d <- lift (np_max (np_abs ssr_brirs));;
    np_divide ssr_brirs d
  else ret ssr_brirs.

(** ** The two writers *)

Definition wav_name (filename : string) : string :=
  if negb (String.eqb (last4 filename) ".wav") then (filename ++ ".wav")%string
  else filename.

Definition get_hrirs (fs : Z) (hrirs : option hrirs_t) : M hrirs_t :=
  match hrirs with
  | None => load_hrirs fs None false
  | Some h => ret h
  end.

Definition write_ssr_brirs_loudspeaker (filename : string) (ls_irs : ndarray)
    (hull : LoudspeakerSetup) (fs_arg : Z) (hrirs : option hrirs_t) : M unit :=
  hrirs <- get_hrirs fs_arg hrirs;;
  assert (fs hrirs =? fs_arg)%Z;;
  let filename := wav_name filename in
  ssr_brirs <- ssr_brirs_loudspeaker ls_irs hull fs_arg hrirs;;
  ssr_brirs <- normalize ssr_brirs;;
  wavfile_write filename fs_arg (np_transpose (amap astype_float32 ssr_brirs)).

Definition write_ssr_brirs_sdm (filename : string)
    (sdm_p sdm_phi sdm_theta : list Q) (fs_arg : Z) (hrirs : option hrirs_t)
    : M unit :=
  hrirs <- get_hrirs fs_arg hrirs;;
  assert (fs hrirs =? fs_arg)%Z;;
  let filename := wav_name filename in
  ssr_brirs <- ssr_brirs_sdm sdm_p sdm_phi sdm_theta hrirs;;
  ssr_brirs <- normalize ssr_brirs;;
  wavfile_write filename fs_arg (np_transpose (amap astype_float32 ssr_brirs)).

(** ** Vocabulary of the properties *)

(** What [a[i, :] = v] stores for [v]: [v] itself when it has the length of
    a row, and the broadcast of a single sample. *)
Definition fit (h : nat) (v : list Q) : option (list Q) :=
  if length v =? h then Some v
  else match v with [x] => Some (replicate h x) | _ => None end.

(** One turn of the loop of either writer: the renderer is called, which is
    the event [ev angle] with the outcome [out angle], and the two signals
    are stored in the rows [2 * angle] and [2 * angle + 1]. *)
Definition sweep_step (ev : nat → event) (out : nat → list Q * list Q)
    (angle : nat) (ssr_brirs : ndarray) : M ndarray :=
  irs <- (emit (ev angle);; ret (out angle));;
  let '(ir_l, ir_r) := irs in
  ssr_brirs <- lift (setitem_row ssr_brirs (2 * angle) ir_l);;
  lift (setitem_row ssr_brirs (2 * angle + 1) ir_r).

(** The sweep of either writer from the bank of zeros. *)
Definition sweep (ev : nat → event) (out : nat → list Q * list Q) (cols : Z)
    : M ndarray :=
  ssr_brirs <- lift (np_zeros 720 cols);;
  for_each (sweep_step ev out) (seq 0 360) ssr_brirs.

(** What [load_hrirs] does with the container once it is read. *)
Definition from_mat (fs_arg : Z) (dummy : bool) (m : mat) : M hrirs_t :=
  grid <- lift (pd_DataFrame (np_squeeze (mat_azi m)) (np_squeeze (mat_elev m)));;
  hrir_lr <- (if dummy then
                hrir_l <- diracs (np_squeeze (mat_hrir_l m));;
                hrir_r <- diracs (np_squeeze (mat_hrir_r m));;
                ret (hrir_l, hrir_r)
              else ret (np_squeeze (mat_hrir_l m), np_squeeze (mat_hrir_r m)));;
  let '(hrir_l, hrir_r) := hrir_lr in
  HRIRs <- lift (sig_HRIRs hrir_l hrir_r grid (mat_SamplingRate m));;
  assert (fs HRIRs =? fs_arg)%Z;;
  ret HRIRs.

(** A loaded array on which the dummy branch can write its first column:
    two-dimensional, with at least one sample in a row. *)
Definition two_dim (a : ndarray) : Prop := ∃ g h, shape a = [g; h] ∧ 0 < h.

(** [g] rows of [h] samples, each 1 at the first sample and 0 after it. *)
Definition dirac_rows (g h : nat) : list (list Q) :=
  replicate g (1%Q :: replicate (h - 1) 0%Q).

(** The events that are calls of a renderer. *)
Definition is_call (e : event) : bool :=
  match e with
  | EvBinauralize _ _ _ _ _ | EvRenderBsdm _ _ _ _ => true
  | _ => false
  end.

(** A signal that [a[i, :] = v] can store in a row of [cols] samples. *)
Definition storable (cols : nat) (v : list Q) : Prop :=
  length v = cols ∨ length v = 1.

(** The protocol of a writer: render calls, then at most the warning of the
    normalizer, then at most one call of [wavfile.write].  A run either
    ends with an exception before the normalizer has returned, having
    given no warning and not called [wavfile.write]; or it has made all 360
    render calls, calls [wavfile.write] once, and ends as that call ends. *)
Definition writer_protocol (filename : string) (fs_arg : Z) (run : M unit)
    : Prop :=
  ∃ calls warns files,
    run.1 = calls ++ warns ++ files
    ∧ forallb is_call calls = true ∧ length calls ≤ 360
    ∧ (warns = [] ∨ warns = [EvWarn "Normalizing BRIRs"])
    ∧ ((warns = [] ∧ files = [] ∧ ∃ e, run.2 = inl e)
       ∨ (length calls = 360
          ∧ ∃ data,
              files = [EvWavfileWrite (wav_name filename) fs_arg data]
              ∧ run.2 = wavfile_outcome (wav_name filename) fs_arg data)).

End IO.

(** * Audio files: [load_audio] *)

(** What [sf.read] returns for a file: its samples, one-dimensional for a
    file of one channel and frames by channels otherwise. *)
Inductive sf_data : Type :=
| SfMono (data : list Q)
| SfFrames (frames channels : nat) (rows : list (list Q)).

(** What one file adds to [loaded_data]: the data itself when
    [data.ndim] is 1, and otherwise the rows of [data.T], one for each
    channel ([for c in data.T: loaded_data.append(c)]). *)
Definition sf_channels (data : sf_data) : list (list Q) :=
  match data with
  | SfMono data => [data]
  | SfFrames frames channels rows =>
      map (λ j, map (λ r, nth j r 0%Q) rows) (seq 0 channels)
  end.

(** Collaborators of [load_audio]: [sf.read] and the classes
    [sig.MonoSignal] and [sig.MultiSignal] with their constructors.
    [foreign] is what the collaborators raise; [load_audio] catches none
    of it. *)
Class AudioExternal : Type := {
  foreign : Type;
  sf_read : string → foreign + (sf_data * Z);
  MonoSignal : Type;
  MultiSignal : Type;
  sig_MonoSignal : list (list Q) → Z → foreign + MonoSignal;
  sig_MultiSignal : list (list Q) → Z → foreign + MultiSignal
}.

(** How a call ends that does not return: with an exception of the
    function's own, or with one of a collaborator, passed on as it is. *)
Inductive failure (F : Type) : Type :=
| Raised (e : exn)
| Passed (e : F).
Arguments Raised {F} e.
Arguments Passed {F} e.

(** [str(n)] for an integer. *)
Definition str (n : Z) : string := NilZero.string_of_int (Z.to_int n).

(** [l[0]] *)
Definition index0 {A} (l : list A) : exn + A :=
  match l with
  | x :: _ => inr x
  | [] => inl (IndexError "list index out of range")
  end.

(** [all(x == loaded_fs[0] for x in loaded_fs)]: the first element is read
    once for each element, so never for the empty list. *)
Definition all_equal_first (loaded_fs : list Z) : bool :=
  match loaded_fs with
  | [] => true
  | fs0 :: _ => forallb (λ x, x =? fs0)%Z loaded_fs
  end.

(** The sample rate [load_audio] hands to the signal: the rate asked for
    when it is the rate of the first file, the rate of the first file when
    none is asked for. *)
Definition checked_fs (fs : option Z) (loaded_fs : list Z) : exn + Z :=
  match fs with
  | Some fs =>
      match index0 loaded_fs with
      | inl e => inl e
      | inr fs0 =>
          if negb (fs =? fs0)%Z then
            inl (ValueError ("File: Found different fs:" ++ str fs0))
          else inr fs
      end
  | None => index0 loaded_fs
  end.

Section Audio.
Context `{Aud : AudioExternal}.

(** The loop of [load_audio] over the files, from the lists collected so
    far. *)
Fixpoint read_files (filenames : list string) (loaded_data : list (list Q))
    (loaded_fs : list Z) : foreign + (list (list Q) * list Z) :=
  match filenames with
  | [] => inr (loaded_data, loaded_fs)
  | file :: filenames' =>
      match sf_read file with
      | inl e => inl e
      | inr (data, fs_file) =>
          read_files filenames' (loaded_data ++ sf_channels data)
            (loaded_fs ++ [fs_file])
      end
  end.

Definition load_audio (filenames : string + list string) (fs : option Z)
    : failure foreign + (MonoSignal + MultiSignal) :=
  let filenames := match filenames with
                   | inl file => [file]
                   | inr files => files
                   end in
  match read_files filenames [] [] with
  | inl e => inl (Passed e)
  | inr (loaded_data, loaded_fs) =>
      if negb (all_equal_first loaded_fs) then inl (Raised AssertionError)
      else
        match checked_fs fs loaded_fs with
        | inl e => inl (Raised e)
        | inr fs =>
            if length loaded_data =? 1 then
              match sig_MonoSignal loaded_data fs with
              | inl e => inl (Passed e)
              | inr s => inr (inl s)
              end
            else
              match sig_MultiSignal loaded_data fs with
              | inl e => inl (Passed e)
              | inr s => inr (inr s)
              end
        end
  end.

End Audio.

(** * The SDM container: [load_sdm] *)

(** A double that may be NaN; [load_sdm] tests for it. *)
Inductive double : Type :=
| Num (q : Q)
| NaN.

(** A numpy array of such doubles: its shape and its samples in row-major
    order. *)
Record darray : Type := mkD {
  d_shape : list nat;
  d_data : list double
}.

(** [np.squeeze(a)] *)
Definition d_squeeze (a : darray) : darray :=
  mkD (filter (λ n, n ≠ 1) (d_shape a)) (d_data a).

(** [np.isnan(x)] *)
Definition isnan (x : double) : bool :=
  match x with
  | NaN => true
  | Num _ => false
  end.

(** [a[np.isnan(a)] = v] *)
Definition set_where_nan (a : darray) (v : Q) : darray :=
  mkD (d_shape a) (map (λ x, if isnan x then Num v else x) (d_data a)).

(** The dictionary [loadmat] returns for an SDM container, at the four
    keys [load_sdm] reads. *)
Record sdm_mat : Type := mkSdmMat {
  mat_h_ref : darray;
  mat_sdm_phi : darray;
  mat_sdm_theta : darray;
  mat_fs : Z
}.

Section Sdm.
Context `{Ext : External}.

(** [loadmat] on the SDM containers; [None] is [FileNotFoundError], which
    [load_sdm] does not catch. *)
Variable loadmat_sdm : string → option sdm_mat.

Definition load_sdm (filename : string) (init_nan : bool)
    : option (darray * darray * darray * Z) :=
  match loadmat_sdm filename with
  | None => None
  | Some mat =>
      let h := d_squeeze (mat_h_ref mat) in
      let sdm_phi := d_squeeze (mat_sdm_phi mat) in
      let sdm_theta := d_squeeze (mat_sdm_theta mat) in
      let '(sdm_phi, sdm_theta) :=
        if init_nan then
          (set_where_nan sdm_phi 0, set_where_nan sdm_theta (np_pi / 2))
        else (sdm_phi, sdm_theta) in
      let fs := mat_fs mat in
      Some (h, sdm_phi, sdm_theta, fs)
  end.

End Sdm.

(** * A concrete setting

    Collaborators small enough to run the writers on: four containers on
    disk, a grid that is the list of its direction pairs, and renderers
    that return constant signals of the convolution length, one value for
    each orientation and ear. *)
Module Demo.

(** Two grid positions, three samples for each, at 44100 Hz. *)
Definition hrtf : mat :=
  {| mat_hrir_l := Arr2 2 3 [[1#2; 1#4; 0]; [1#3; 0; 0]]%Q;
     mat_hrir_r := Arr2 2 3 [[1#4; 1#2; 0]; [0; 1#3; 0]]%Q;
     mat_SamplingRate := 44100;
     mat_azi := Arr2 1 2 [[0; 3#2]]%Q;
     mat_elev := Arr2 1 2 [[3#2; 3#2]]%Q |}.

(** Two grid positions with impulse responses of a single sample. *)
Definition hrtf_one_sample : mat :=
  {| mat_hrir_l := Arr2 2 1 [[1]; [1#2]]%Q;
     mat_hrir_r := Arr2 2 1 [[1#2]; [1]]%Q;
     mat_SamplingRate := 44100;
     mat_azi := Arr2 1 2 [[0; 3#2]]%Q;
     mat_elev := Arr2 1 2 [[3#2; 3#2]]%Q |}.

(** Two grid positions with impulse responses of no sample. *)
Definition hrtf_no_sample : mat :=
  {| mat_hrir_l := Arr2 2 0 [[]; []];
     mat_hrir_r := Arr2 2 0 [[]; []];
     mat_SamplingRate := 44100;
     mat_azi := Arr2 1 2 [[0; 3#2]]%Q;
     mat_elev := Arr2 1 2 [[3#2; 3#2]]%Q |}.

(** Two grid positions for the left ear and three for the right ear. *)
Definition hrtf_uneven : mat :=
  {| mat_hrir_l := Arr2 2 2 [[1; 0]; [0; 1]]%Q;
     mat_hrir_r := Arr2 3 2 [[1; 0]; [0; 1]; [1; 1]]%Q;
     mat_SamplingRate := 44100;
     mat_azi := Arr2 1 2 [[0; 3#2]]%Q;
     mat_elev := Arr2 1 2 [[3#2; 3#2]]%Q |}.

(** The default container for 44100 Hz is in place; the one for 48000 Hz
    is a copy of it, so its rate is not the one its name promises. *)
Definition disk (path : string) : option mat :=
  if String.eqb path "/opt/spaudiopy/../data/HRTF_default.mat" then Some hrtf
  else if String.eqb path "/opt/spaudiopy/../data/HRTF_default48k.mat" then Some hrtf
  else if String.eqb path "one_sample.mat" then Some hrtf_one_sample
  else if String.eqb path "no_sample.mat" then Some hrtf_no_sample
  else if String.eqb path "uneven.mat" then Some hrtf_uneven
  else None.

(** Two columns of the same length make a grid. *)
Definition data_frame (azi colat : ndarray) : exn + list (Q * Q) :=
  match azi, colat with
  | Arr1 a, Arr1 c =>
      if length a =? length c then inr (zip a c)
      else inl (ValueError "All arrays must be of the same length")
  | _, _ => inl (ValueError "If using all scalar values, you must pass an index")
  end.

Definition impulse_length (h : HRIRs (list (Q * Q))) : nat :=
  match shape (left h) with
  | [_; n] => n
  | _ => 0
  end.

Definition hull_render (_ : unit) (ls_irs : ndarray) (_ : Z)
    (orientation : Q * Q) (h : HRIRs (list (Q * Q))) : list Q * list Q :=
  let n := match shape ls_irs with [_; s] => s | _ => 0 end
           + impulse_length h - 1 in
  (replicate n orientation.1, replicate n (- orientation.1)%Q).

Definition room_render (sdm_p sdm_phi sdm_theta : list Q)
    (h : HRIRs (list (Q * Q))) : list Q * list Q :=
  let n := length sdm_p + impulse_length h - 1 in
  (replicate n (hd 0%Q sdm_phi), replicate n (hd 0%Q sdm_theta)).

(** The invariant of the design document: the two arrays have as many
    rows as the grid has positions. *)
Definition set_invariant (l r : list nat) (grid : list (Q * Q)) : bool :=
  match l, r with
  | gl :: _, gr :: _ => (gl =? gr) && (gl =? length grid)
  | _, _ => false
  end.

(** Every destination can be written but those under [/missing/], a
    directory that does not exist. *)
Definition write_file (filename : string) (_ : Z) (_ : ndarray) : exn + unit :=
  if String.prefix "/missing/" filename
  then inl (OSError "No such file or directory")
  else inr tt.

Definition ext : External :=
  {| np_pi := 884279719003555 # 281474976710656;
     astype_float32 := λ x, x;
     DataFrame := list (Q * Q);
     pd_DataFrame := data_frame;
     loadmat := disk;
     current_file_dir := "/opt/spaudiopy";
     HRIRs_len := impulse_length;
     HRIRs_invariant := set_invariant;
     LoudspeakerSetup := unit;
     binauralize := hull_render;
     render_bsdm := room_render;
     wavfile_outcome := write_file |}.

(** The set of the default container, as [load_hrirs] returns it. *)
Definition hrirs : HRIRs (list (Q * Q)) :=
  mkHRIRs (mat_hrir_l hrtf) (mat_hrir_r hrtf) [(0, 3#2); (3#2, 3#2)]%Q 44100.

(** Two loudspeakers with two samples each. *)
Definition ls_irs : ndarray := Arr2 2 2 [[1; 0]; [0; 1#2]]%Q.

(** A room response of two arrivals. *)
Definition sdm_p : list Q := [1; 1#2]%Q.
Definition sdm_phi : list Q := [0; 3]%Q.
Definition sdm_theta : list Q := [3#2; 1]%Q.

(** A bank that clips, the same bank at a tenth, and a silent one. *)
Definition loud : ndarray := Arr2 2 2 [[1#2; -3]; [2; 0]]%Q.
Definition quiet : ndarray := Arr2 2 2 [[1#20; -3#10]; [2#10; 0]]%Q.
Definition silent : ndarray := Arr2 2 2 [[0; 0]; [0; 0]]%Q.

(** The sweep of the array writer over [ls_irs]: its calls and its bank. *)
Definition run_ls : Run (@event ext) ndarray :=
  @ssr_brirs_loudspeaker ext ls_irs tt 44100 hrirs.
Definition calls_ls : list (@event ext) := run_ls.1.
Definition rows_ls : list (list Q) :=
  match run_ls.2 with
  | inr (Arr2 _ _ rows) => rows
  | _ => []
  end.

(** The sweep of the room writer. *)
Definition run_sdm : Run (@event ext) ndarray :=
  @ssr_brirs_sdm ext sdm_p sdm_phi sdm_theta hrirs.
Definition calls_sdm : list (@event ext) := run_sdm.1.
Definition rows_sdm : list (list Q) :=
  match run_sdm.2 with
  | inr (Arr2 _ _ rows) => rows
  | _ => []
  end.

(** The dummy set of the default container. *)
Definition dummy_hrirs : HRIRs (list (Q * Q)) :=
  mkHRIRs (Arr2 2 3 [[1; 0; 0]; [1; 0; 0]]%Q) (Arr2 2 3 [[1; 0; 0]; [1; 0; 0]]%Q)
          [(0, 3#2); (3#2, 3#2)]%Q 44100.

End Demo.

(** * Settings at the edges

    Renderers whose signals do not have the length of a row, sources and
    sets without samples, a few audio files and an SDM container. *)
Module Corner.

(** From the orientation of 3 degrees on, the signals of these renderers
    have one sample more than a row. *)
Definition late_hull_render (_ : unit) (ls_irs : ndarray) (_ : Z)
    (orientation : Q * Q) (h : HRIRs (list (Q * Q))) : list Q * list Q :=
  let n := match shape ls_irs with [_; s] => s | _ => 0 end
           + Demo.impulse_length h - 1 in
  let n := if Qle_bool (1 # 20) orientation.1 then S n else n in
  (replicate n orientation.1, replicate n (- orientation.1)%Q).

Definition late_room_render (sdm_p sdm_phi sdm_theta : list Q)
    (h : HRIRs (list (Q * Q))) : list Q * list Q :=
  let n := length sdm_p + Demo.impulse_length h - 1 in
  let n := if Qle_bool (hd 0%Q sdm_phi) (- (1 # 20)) then S n else n in
  (replicate n (hd 0%Q sdm_phi), replicate n (hd 0%Q sdm_theta)).

Definition ext_late : External :=
  {| np_pi := 884279719003555 # 281474976710656;
     astype_float32 := λ x, x;
     DataFrame := list (Q * Q);
     pd_DataFrame := Demo.data_frame;
     loadmat := Demo.disk;
     current_file_dir := "/opt/spaudiopy";
     HRIRs_len := Demo.impulse_length;
     HRIRs_invariant := Demo.set_invariant;
     LoudspeakerSetup := unit;
     binauralize := late_hull_render;
     render_bsdm := late_room_render;
     wavfile_outcome := Demo.write_file |}.

(** Renderers whose signals have a single sample. *)
Definition one_hull_render (_ : unit) (_ : ndarray) (_ : Z)
    (orientation : Q * Q) (_ : HRIRs (list (Q * Q))) : list Q * list Q :=
  ([orientation.1], [(- orientation.1)%Q]).

Definition one_room_render (sdm_p sdm_phi sdm_theta : list Q)
    (_ : HRIRs (list (Q * Q))) : list Q * list Q :=
  ([hd 0%Q sdm_phi], [hd 0%Q sdm_theta]).

Definition ext_one : External :=
  {| np_pi := 884279719003555 # 281474976710656;
     astype_float32 := λ x, x;
     DataFrame := list (Q * Q);
     pd_DataFrame := Demo.data_frame;
     loadmat := Demo.disk;
     current_file_dir := "/opt/spaudiopy";
     HRIRs_len := Demo.impulse_length;
     HRIRs_invariant := Demo.set_invariant;
     LoudspeakerSetup := unit;
     binauralize := one_hull_render;
     render_bsdm := one_room_render;
     wavfile_outcome := Demo.write_file |}.

(** The sweeps of the two writers with the renderers of a single sample. *)
Definition run_one_ls : Run (@event ext_one) ndarray :=
  @ssr_brirs_loudspeaker ext_one Demo.ls_irs tt 44100 Demo.hrirs.
Definition rows_one_ls : list (list Q) :=
  match run_one_ls.2 with
  | inr (Arr2 _ _ rows) => rows
  | _ => []
  end.
Definition run_one_sdm : Run (@event ext_one) ndarray :=
  @ssr_brirs_sdm ext_one Demo.sdm_p Demo.sdm_phi Demo.sdm_theta Demo.hrirs.
Definition rows_one_sdm : list (list Q) :=
  match run_one_sdm.2 with
  | inr (Arr2 _ _ rows) => rows
  | _ => []
  end.

(** Loudspeaker responses that are one-dimensional, that have no sample,
    and that have one sample; a room response of one arrival. *)
Definition flat_ls_irs : ndarray := Arr1 [1; 0]%Q.
Definition empty_ls_irs : ndarray := Arr2 2 0 [[]; []].
Definition column_ls_irs : ndarray := Arr2 2 1 [[1]; [1 # 2]]%Q.
Definition click : list Q := [1]%Q.

(** A set whose impulse responses have no sample. *)
Definition no_sample_hrirs : HRIRs (list (Q * Q)) :=
  mkHRIRs (Arr2 2 0 [[]; []]) (Arr2 2 0 [[]; []])
          [(0, 3#2); (3#2, 3#2)]%Q 44100.

(** Three audio files: one channel of three samples, two channels of
    three frames, and one channel at another rate.  No other file can be
    read. *)
Definition tape (file : string) : string + (sf_data * Z) :=
  if String.eqb file "left.wav" then inr (SfMono [1; 0; -1]%Q, 44100%Z)
  else if String.eqb file "stereo.wav" then
    inr (SfFrames 3 2 [[1; 2]; [3; 4]; [5; 6]]%Q, 44100%Z)
  else if String.eqb file "slow.wav" then inr (SfMono [1]%Q, 22050%Z)
  else inl "Error opening file: System error."%string.

(** Signals that are their channels and their rate. *)
Definition studio : AudioExternal :=
  {| foreign := string;
     sf_read := tape;
     MonoSignal := list Q * Z;
     MultiSignal := list (list Q) * Z;
     sig_MonoSignal := λ data fs,
       match data with
       | [c] => inr (c, fs)
       | _ => inl "array must be one-dimensional"%string
       end;
     sig_MultiSignal := λ data fs, inr (data, fs) |}.

(** An SDM container of three samples, some of them NaN. *)
Definition room : sdm_mat :=
  {| mat_h_ref := mkD [1; 3] [Num 1; NaN; Num (1 # 2)];
     mat_sdm_phi := mkD [1; 3] [Num 0; NaN; Num 3];
     mat_sdm_theta := mkD [1; 3] [NaN; Num 1; Num 2];
     mat_fs := 48000 |}.

Definition sdm_disk (path : string) : option sdm_mat :=
  if String.eqb path "room.mat" then Some room else None.

(** The events of the array writer in the concrete setting, and the data
    of the file it writes. *)
Definition events_ls : list (@event Demo.ext) :=
  (@write_ssr_brirs_loudspeaker Demo.ext "brirs" Demo.ls_irs tt 44100
     (Some Demo.hrirs)).1.
Definition file_ls : ndarray :=
  match last events_ls with
  | Some (EvWavfileWrite _ _ data) => data
  | _ => Arr0 0%Q
  end.

End Corner.

(** * Properties *)

Section Properties.
Context `{Ext : External}.

Abbreviation hrirs_t := (HRIRs DataFrame).
Abbreviation M := (Run event).

(** ** The monad *)

Lemma bind_ret_l {A B} (a : A) (k : A → M B) : bind (ret a) k = k a.
Proof. unfold bind, ret. destruct (k a) as [t r]. reflexivity. Qed.

Lemma bind_lift_inr {A B} (a : A) (k : A → M B) : bind (lift (inr a)) k = k a.
Proof. apply bind_ret_l. Qed.

Lemma bind_emit {B} (ev : event) (k : unit → M B) :
  bind (emit ev) k = (ev :: (k tt).1, (k tt).2).
Proof. unfold bind, emit. destruct (k tt) as [t r]. reflexivity. Qed.

(** ** Maximum of a list of samples *)

Lemma Qmax_cases (x y : Q) : Qmax x y = x ∨ Qmax x y = y.
Proof.
  unfold Qmax, GenericMinMax.gmax. destruct (x ?= y)%Q; auto.
Qed.

Lemma fold_Qmax_in (xs : list Q) (x : Q) : In (fold_left Qmax xs x) (x :: xs).
Proof.
  revert x. induction xs as [|y xs IH]; intros x; simpl.
  - left. reflexivity.
  - specialize (IH (Qmax x y)).
    set (f := fold_left Qmax xs (Qmax x y)) in *.
    destruct IH as [H|H]; [|tauto].
    destruct (Qmax_cases x y) as [E|E]; rewrite E in H; tauto.
Qed.

Lemma fold_Qmax_ge_init (xs : list Q) (x : Q) : (x <= fold_left Qmax xs x)%Q.
Proof.
  revert x. induction xs as [|y xs IH]; intros x; simpl.
  - apply Qle_refl.
  - eapply Qle_trans; [apply (Q.le_max_l x y) | apply IH].
Qed.

Lemma fold_Qmax_ge (xs : list Q) (x y : Q) :
  In y (x :: xs) → (y <= fold_left Qmax xs x)%Q.
Proof.
  revert x. induction xs as [|z xs IH]; intros x H; simpl in *.
  - destruct H as [->|[]]. apply Qle_refl.
  - destruct H as [->|[->|H]].
    + eapply Qle_trans; [apply (Q.le_max_l y z) | apply fold_Qmax_ge_init].
    + eapply Qle_trans; [apply (Q.le_max_r x y) | apply fold_Qmax_ge_init].
    + apply IH. right. exact H.
Qed.

(** ** Samples of a mapped array *)

Lemma elems_amap (f : Q → Q) (a : ndarray) : elems (amap f a) = map f (elems a).
Proof.
  destruct a as [x|v|g h rows]; simpl; try reflexivity.
  symmetry. apply concat_map.
Qed.

Lemma np_max_inr (a : ndarray) (m : Q) :
  np_max a = inr m → In m (elems a) ∧ ∀ y, In y (elems a) → (y <= m)%Q.
Proof.
  unfold np_max. destruct (elems a) as [|x xs]; [discriminate|].
  intros [= <-]. split; [apply fold_Qmax_in | apply fold_Qmax_ge].
Qed.

Lemma np_max_inl (a : ndarray) (e : exn) :
  np_max a = inl e → elems a = [].
Proof.
  unfold np_max. destruct (elems a); [reflexivity | discriminate].
Qed.

Lemma np_max_nonempty (a : ndarray) :
  elems a ≠ [] → ∃ m, np_max a = inr m.
Proof.
  unfold np_max. destruct (elems a); [congruence | eauto].
Qed.

(** The largest magnitude of a bank, when it has a sample: it is the
    magnitude of one of the samples and bounds them all. *)
Lemma max_abs_spec (b : ndarray) (m : Q) :
  np_max (np_abs b) = inr m →
  (∃ x, In x (elems b) ∧ m = Qabs x) ∧ ∀ x, In x (elems b) → (Qabs x <= m)%Q.
Proof.
  intros H. apply np_max_inr in H as [Hin Hle].
  unfold np_abs in *. rewrite elems_amap in *. split.
  - apply in_map_iff in Hin. destruct Hin as (x & Hx & Hin). eauto.
  - intros x Hx. apply Hle. apply in_map. exact Hx.
Qed.

Lemma Qabs_div_le_1 (x m : Q) : (0 < m)%Q → (Qabs x <= m)%Q → (Qabs (x / m) <= 1)%Q.
Proof.
  intros Hm Hx. unfold Qdiv. rewrite Qabs_Qmult, Qabs_Qinv.
  rewrite (Qabs_pos m) by (apply Qlt_le_weak; exact Hm).
  apply Qle_shift_div_r; [exact Hm|]. rewrite Qmult_1_l. exact Hx.
Qed.

Lemma Qabs_div_self (x m : Q) : (0 < m)%Q → m = Qabs x → Qabs (x / m) == 1.
Proof.
  intros Hm E. unfold Qdiv. rewrite Qabs_Qmult, Qabs_Qinv, <- E.
  rewrite (Qabs_pos m) by (apply Qlt_le_weak; exact Hm).
  apply Qmult_inv_r. intros Z. rewrite Z in Hm. discriminate.
Qed.

Lemma Qgtb_true (x y : Q) : Qgtb x y = true ↔ (y < x)%Q.
Proof.
  unfold Qgtb. rewrite negb_true_iff. split.
  - intros H. apply Qnot_le_lt. intros L. apply Qle_bool_iff in L. congruence.
  - intros H. destruct (Qle_bool x y) eqn:E; [|reflexivity].
    apply Qle_bool_iff in E. exfalso. eapply Qlt_not_le; eassumption.
Qed.

Lemma Qgtb_false (x y : Q) : Qgtb x y = false ↔ (x <= y)%Q.
Proof.
  unfold Qgtb. rewrite negb_false_iff. apply Qle_bool_iff.
Qed.

(** The largest magnitude after the division by the largest magnitude. *)
Lemma max_abs_divided (b : ndarray) (m : Q) :
  np_max (np_abs b) = inr m → (1 < m)%Q →
  ∃ m', np_max (np_abs (amap (λ x, x / m)%Q b)) = inr m' ∧ m' == 1.
Proof.
  intros H Hm. destruct (max_abs_spec b m H) as [(x & Hx & E) Hle].
  assert (Hpos : (0 < m)%Q) by (eapply Qlt_trans; [|exact Hm]; reflexivity).
  destruct (np_max_nonempty (np_abs (amap (λ x, x / m)%Q b))) as [m' Hm'].
  { unfold np_abs. rewrite !elems_amap. destruct (elems b); [contradiction|discriminate]. }
  exists m'. split; [exact Hm'|].
  destruct (max_abs_spec _ _ Hm') as [(y & Hy & E') Hle'].
  rewrite elems_amap in Hy, Hle'. apply Qle_antisym.
  - apply in_map_iff in Hy. destruct Hy as (z & Ez & Hz). subst y m'.
    apply Qabs_div_le_1; auto.
  - rewrite <- (Qabs_div_self x m Hpos E). apply Hle'.
    exact (in_map (λ x0, (x0 / m)%Q) _ _ Hx).
Qed.

(** ** The normalizer *)

Lemma normalize_empty (b : ndarray) (e : exn) :
  np_max (np_abs b) = inl e → normalize b = ([], inl e).
Proof. intros H. unfold normalize. rewrite H. reflexivity. Qed.

Lemma normalize_le_1 (b : ndarray) (m : Q) :
  np_max (np_abs b) = inr m → (m <= 1)%Q → normalize b = ([], inr b).
Proof.
  intros H Hm. unfold normalize. rewrite H, bind_lift_inr.
  apply Qgtb_false in Hm. rewrite Hm. reflexivity.
Qed.

Lemma normalize_gt_1 (b : ndarray) (m : Q) :
  np_max (np_abs b) = inr m → (1 < m)%Q →
  normalize b = ([EvWarn "Normalizing BRIRs"], inr (amap (λ x, x / m)%Q b)).
Proof.
  intros H Hm. unfold normalize. rewrite H, bind_lift_inr.
  pose proof (proj2 (Qgtb_true m 1) Hm) as G. rewrite G.
  unfold warn. rewrite bind_emit, bind_lift_inr. unfold np_divide.
  destruct (Qeq_bool m 0) eqn:Z.
  - apply Qeq_bool_eq in Z. rewrite Z in Hm. discriminate.
  - reflexivity.
Qed.

(** C3: the normalizer takes the largest magnitude [m] over the whole bank.
    When [m] exceeds 1 it issues one warning, returns the bank with every
    sample divided by [m], and the largest magnitude of the result is 1;
    when [m] does not exceed 1 it returns the bank as it is, without a
    warning. *)
Theorem normalize_correct (b : ndarray) (m : Q) :
  np_max (np_abs b) = inr m →
  ((1 < m)%Q →
     normalize b = ([EvWarn "Normalizing BRIRs"], inr (amap (λ x, x / m)%Q b))
     ∧ ∃ m', np_max (np_abs (amap (λ x, x / m)%Q b)) = inr m' ∧ m' == 1)
  ∧ (¬ (1 < m)%Q → normalize b = ([], inr b)).
Proof.
  intros H. split.
  - intros Hm. split.
    + apply normalize_gt_1; assumption.
    + apply max_abs_divided; assumption.
  - intros Hm. apply (normalize_le_1 b m H). apply Qnot_lt_le. exact Hm.
Qed.

(** C8: normalizing twice is normalizing once.  The second pass returns its
    input and issues no warning, so the two runs agree in their events and
    in their outcome, also for a bank without samples, which both refuse. *)
Theorem normalize_idempotent (b : ndarray) :
  bind (normalize b) normalize = normalize b.
Proof.
  destruct (np_max (np_abs b)) as [e|m] eqn:H.
  - rewrite (normalize_empty b e H). reflexivity.
  - destruct (Qlt_le_dec 1 m) as [Hm|Hm].
    + rewrite (normalize_gt_1 b m H Hm).
      destruct (max_abs_divided b m H Hm) as (m' & Hm' & E).
      unfold bind.
      rewrite (normalize_le_1 _ m' Hm') by (rewrite E; apply Qle_refl).
      reflexivity.
    + rewrite (normalize_le_1 b m H Hm). unfold bind.
      rewrite (normalize_le_1 b m H Hm). reflexivity.
Qed.

(** C9: the division of the normalizer is guarded.  No bank makes it divide
    by zero; a run ends in one of three ways: the bank returned as it is, a
    bank without samples refused by the maximum, or the bank divided by a
    maximum that is greater than 1 and so not zero.  A bank of zeros that
    has a sample is returned as it is. *)
Theorem normalize_division_guarded (b : ndarray) :
  (∀ t msg, normalize b ≠ (t, inl (FloatingPointError msg)))
  ∧ (normalize b = ([], inr b)
     ∨ (∃ msg, elems b = [] ∧ normalize b = ([], inl (ValueError msg)))
     ∨ (∃ m, np_max (np_abs b) = inr m ∧ (1 < m)%Q ∧ ¬ m == 0
             ∧ normalize b =
                 ([EvWarn "Normalizing BRIRs"], inr (amap (λ x, x / m)%Q b))))
  ∧ (elems b ≠ [] → (∀ x, In x (elems b) → x == 0) →
     normalize b = ([], inr b)).
Proof.
  assert (Cases : normalize b = ([], inr b)
     ∨ (∃ msg, elems b = [] ∧ normalize b = ([], inl (ValueError msg)))
     ∨ (∃ m, np_max (np_abs b) = inr m ∧ (1 < m)%Q ∧ ¬ m == 0
             ∧ normalize b =
                 ([EvWarn "Normalizing BRIRs"], inr (amap (λ x, x / m)%Q b)))).
  { destruct (np_max (np_abs b)) as [e|m] eqn:H.
    - right. left. pose proof (np_max_inl _ _ H) as He.
      unfold np_abs in He. rewrite elems_amap in He.
      unfold np_max in H. unfold np_abs in H. rewrite elems_amap in H.
      destruct (map Qabs (elems b)) eqn:E; [|discriminate].
      injection H as <-. eexists. split.
      + destruct (elems b); [reflexivity|discriminate].
      + apply normalize_empty. unfold np_max, np_abs. rewrite elems_amap, E.
        reflexivity.
    - destruct (Qlt_le_dec 1 m) as [Hm|Hm].
      + right. right. exists m. repeat split; try assumption.
        * intros Z. rewrite Z in Hm. discriminate.
        * apply normalize_gt_1; assumption.
      + left. apply (normalize_le_1 b m H Hm). }
  split; [|split].
  - intros t msg E. destruct Cases as [C|[(msg' & _ & C)|(m & _ & _ & _ & C)]];
      rewrite C in E; discriminate.
  - exact Cases.
  - intros Hne Hz.
    destruct (np_max_nonempty (np_abs b)) as [m H].
    { unfold np_abs. rewrite elems_amap. destruct (elems b); [congruence|discriminate]. }
    apply (normalize_le_1 b m H).
    destruct (max_abs_spec b m H) as [(x & Hx & ->) _].
    rewrite (Hz x Hx). discriminate.
Qed.

(** ** The orientation sweep *)

Lemma bind_inr {A B} (m : M A) (k : A → M B) (t : list event) (b : B) :
  bind m k = (t, inr b) →
  ∃ t1 a t2, m = (t1, inr a) ∧ k a = (t2, inr b) ∧ t = t1 ++ t2.
Proof.
  unfold bind. destruct m as [t1 [e|a]]; [discriminate|].
  destruct (k a) as [t2 r] eqn:E. intros [= <- ->]. eauto 6.
Qed.

Lemma for_each_cons {A S} (body : A → S → M S) (x : A) (l : list A) (s : S) :
  for_each body (x :: l) s = bind (body x s) (for_each body l).
Proof. reflexivity. Qed.

Lemma fit_exact (h : nat) (v : list Q) : length v = h → fit h v = Some v.
Proof. intros E. unfold fit. apply Nat.eqb_eq in E. rewrite E. reflexivity. Qed.

Lemma fit_length (h : nat) (v v' : list Q) : fit h v = Some v' → length v' = h.
Proof.
  unfold fit. destruct (length v =? h) eqn:E.
  - intros [= <-]. apply Nat.eqb_eq. exact E.
  - destruct v as [|x [|y v]]; try discriminate.
    intros [= <-]. apply length_replicate.
Qed.

Lemma setitem_row_inr (g h : nat) (rows : list (list Q)) (i : nat)
    (v : list Q) (b : ndarray) :
  setitem_row (Arr2 g h rows) i v = inr b ↔
  i < g ∧ ∃ v', fit h v = Some v' ∧ b = Arr2 g h (<[i:=v']> rows).
Proof.
  unfold setitem_row, fit. destruct (i <? g) eqn:Hi; simpl.
  - apply Nat.ltb_lt in Hi. destruct (length v =? h).
    + split.
      * intros [= <-]. eauto.
      * intros (_ & v' & [= <-] & ->). reflexivity.
    + destruct v as [|x [|y v]]; split; try discriminate.
      * intros (_ & v' & D & _). discriminate.
      * intros [= <-]. eauto.
      * intros (_ & v' & [= <-] & ->). reflexivity.
      * intros (_ & v' & D & _). discriminate.
  - apply Nat.ltb_ge in Hi. split; [discriminate|]. intros (L & _). lia.
Qed.

Section Sweep.
Variable ev : nat → event.
Variable out : nat → list Q * list Q.

Lemma sweep_step_unfold (angle : nat) (b : ndarray) :
  sweep_step ev out angle b =
  ([ev angle],
   match setitem_row b (2 * angle) (out angle).1 with
   | inl e => inl e
   | inr b1 => setitem_row b1 (2 * angle + 1) (out angle).2
   end).
Proof.
  unfold sweep_step, bind, emit, ret, lift.
  destruct (out angle) as [l r]. cbn [fst snd].
  destruct (setitem_row b (2 * angle) l) as [e|b1]; reflexivity.
Qed.

Lemma sweep_step_inr (angle g h : nat) (rows : list (list Q))
    (t : list event) (b' : ndarray) :
  sweep_step ev out angle (Arr2 g h rows) = (t, inr b') →
  t = [ev angle] ∧ 2 * angle + 1 < g ∧
  ∃ l r, fit h (out angle).1 = Some l ∧ fit h (out angle).2 = Some r
         ∧ b' = Arr2 g h (<[2 * angle + 1:=r]> (<[2 * angle:=l]> rows)).
Proof.
  rewrite sweep_step_unfold. intros H.
  apply pair_equal_spec in H as [<- H]. split; [reflexivity|].
  destruct (setitem_row (Arr2 g h rows) (2 * angle) (out angle).1) as [e|b1] eqn:E1;
    [discriminate|].
  apply setitem_row_inr in E1 as (_ & l & Hl & ->).
  apply setitem_row_inr in H as (L & r & Hr & ->). eauto 8.
Qed.

Lemma sweep_step_ok (angle g h : nat) (rows : list (list Q)) (l r : list Q) :
  2 * angle + 1 < g →
  fit h (out angle).1 = Some l → fit h (out angle).2 = Some r →
  sweep_step ev out angle (Arr2 g h rows) =
  ([ev angle], inr (Arr2 g h (<[2 * angle + 1:=r]> (<[2 * angle:=l]> rows)))).
Proof.
  intros L Hl Hr. rewrite sweep_step_unfold. f_equal.
  assert (E1 : setitem_row (Arr2 g h rows) (2 * angle) (out angle).1
               = inr (Arr2 g h (<[2 * angle:=l]> rows))).
  { apply setitem_row_inr. split; [lia|]. eauto. }
  rewrite E1. apply setitem_row_inr. split; [lia|]. eauto.
Qed.

(** The events of the loop are the calls for the orientations it reached,
    in order; a loop that ends normally reached them all. *)
Lemma sweep_loop_trace (n : nat) :
  ∀ (a : nat) (b : ndarray) (t : list event) (r : exn + ndarray),
    for_each (sweep_step ev out) (seq a n) b = (t, r) →
    ∃ n', n' ≤ n ∧ t = map ev (seq a n') ∧ (∀ b', r = inr b' → n' = n).
Proof.
  induction n as [|n IH]; intros a b t r H.
  - injection H as <- <-. exists 0. repeat split; auto.
  - simpl seq in H. rewrite for_each_cons in H.
    rewrite sweep_step_unfold in H. unfold bind in H.
    destruct (match setitem_row b (2 * a) (out a).1 with
              | inl e => inl e
              | inr b1 => setitem_row b1 (2 * a + 1) (out a).2
              end) as [e|b1].
    + injection H as <- <-. exists 1. repeat split; [lia|discriminate].
    + destruct (for_each (sweep_step ev out) (seq (S a) n) b1) as [t' r'] eqn:E.
      injection H as <- <-.
      destruct (IH _ _ _ _ E) as (n' & Hn' & -> & Hr).
      exists (S n'). repeat split; [lia|].
      intros b' Eb. f_equal. eapply Hr. exact Eb.
Qed.

(** The bank after a loop that ends normally: its shape is kept, the rows
    of the orientations of the loop hold what was stored for them, and the
    rows below are as before. *)
Lemma sweep_loop_inr (n : nat) :
  ∀ (a g h : nat) (rows : list (list Q)) (t : list event) (b' : ndarray),
    length rows = g →
    for_each (sweep_step ev out) (seq a n) (Arr2 g h rows) = (t, inr b') →
    ∃ rows', b' = Arr2 g h rows' ∧ length rows' = g
      ∧ (Forall (λ r, length r = h) rows → Forall (λ r, length r = h) rows')
      ∧ (∀ k, a ≤ k < a + n →
           ∃ l r, fit h (out k).1 = Some l ∧ fit h (out k).2 = Some r
                  ∧ rows' !! (2 * k) = Some l ∧ rows' !! (2 * k + 1) = Some r)
      ∧ (∀ i, i < 2 * a → rows' !! i = rows !! i).
Proof.
  induction n as [|n IH]; intros a g h rows t b' Hlen H.
  - injection H as <- <-. exists rows. repeat split; auto. intros k Hk. lia.
  - simpl seq in H. rewrite for_each_cons in H.
    apply bind_inr in H as (t1 & b1 & t2 & Hstep & Hrest & ->).
    apply sweep_step_inr in Hstep as (-> & L & l & r & Hl & Hr & ->).
    apply IH in Hrest as (rows' & -> & Hlen' & Hwf & Hrows & Hlow);
      [|rewrite !length_insert; exact Hlen].
    exists rows'. split; [reflexivity|]. split; [exact Hlen'|]. split; [|split].
    + intros F. apply Hwf.
      apply Forall_insert; [apply Forall_insert; [exact F|]|].
      * eapply fit_length. exact Hl.
      * eapply fit_length. exact Hr.
    + intros k Hk. destruct (decide (k = a)) as [->|Hne].
      * exists l, r. split; [exact Hl|]. split; [exact Hr|]. split.
        -- rewrite Hlow by lia. rewrite list_lookup_insert_ne by lia.
           apply list_lookup_insert_eq. lia.
        -- rewrite Hlow by lia. apply list_lookup_insert_eq.
           rewrite length_insert. lia.
      * apply Hrows. lia.
    + intros i Hi. rewrite Hlow by lia.
      rewrite !list_lookup_insert_ne by lia. reflexivity.
Qed.

(** The loop ends normally when the bank has the rows of its orientations
    and every signal can be stored. *)
Lemma sweep_loop_ok (n : nat) :
  ∀ (a g h : nat) (rows : list (list Q)),
    2 * (a + n) ≤ g →
    (∀ k, a ≤ k < a + n →
       is_Some (fit h (out k).1) ∧ is_Some (fit h (out k).2)) →
    ∃ b', for_each (sweep_step ev out) (seq a n) (Arr2 g h rows)
          = (map ev (seq a n), inr b').
Proof.
  induction n as [|n IH]; intros a g h rows Hg Hfit.
  - exists (Arr2 g h rows). reflexivity.
  - destruct (Hfit a) as [[l Hl] [r Hr]]; [lia|].
    simpl seq. rewrite for_each_cons.
    rewrite (sweep_step_ok a g h rows l r) by (assumption || lia).
    destruct (IH (S a) g h (<[2 * a + 1:=r]> (<[2 * a:=l]> rows))) as [b' Hb'].
    + lia.
    + intros k Hk. apply Hfit. lia.
    + exists b'. unfold bind. rewrite Hb'. reflexivity.
Qed.

End Sweep.

Lemma np_zeros_inr (g : nat) (h : Z) (b : ndarray) :
  np_zeros g h = inr b ↔
  (0 ≤ h)%Z ∧ b = Arr2 g (Z.to_nat h) (replicate g (replicate (Z.to_nat h) 0%Q)).
Proof.
  unfold np_zeros. destruct (h <? 0)%Z eqn:E.
  - apply Z.ltb_lt in E. split; [discriminate|]. intros [L _]. lia.
  - apply Z.ltb_ge in E. split.
    + intros [= <-]. auto.
    + intros [_ ->]. reflexivity.
Qed.

Lemma sweep_trace (ev : nat → event) (out : nat → list Q * list Q) (cols : Z)
    (t : list event) (r : exn + ndarray) :
  sweep ev out cols = (t, r) →
  ∃ n, n ≤ 360 ∧ t = map ev (seq 0 n) ∧ (∀ b, r = inr b → n = 360).
Proof.
  unfold sweep. destruct (np_zeros 720 cols) as [e|b0].
  - intros [= <- <-]. exists 0. repeat split; [lia|discriminate].
  - rewrite bind_lift_inr. apply sweep_loop_trace.
Qed.

Lemma sweep_inr (ev : nat → event) (out : nat → list Q * list Q) (cols : Z)
    (t : list event) (b : ndarray) :
  sweep ev out cols = (t, inr b) →
  (0 ≤ cols)%Z ∧
  ∃ rows, b = Arr2 720 (Z.to_nat cols) rows ∧ length rows = 720
    ∧ Forall (λ r, length r = Z.to_nat cols) rows
    ∧ ∀ k, k < 360 →
        ∃ l r, fit (Z.to_nat cols) (out k).1 = Some l
               ∧ fit (Z.to_nat cols) (out k).2 = Some r
               ∧ rows !! (2 * k) = Some l ∧ rows !! (2 * k + 1) = Some r.
Proof.
  unfold sweep. destruct (np_zeros 720 cols) as [e|b0] eqn:Z0; [discriminate|].
  rewrite bind_lift_inr. apply np_zeros_inr in Z0 as [Hc ->]. intros H.
  split; [exact Hc|].
  apply sweep_loop_inr in H as (rows & -> & Hlen & Hwf & Hrows & _);
    [|apply length_replicate].
  exists rows. repeat split; try assumption.
  - apply Hwf. apply Forall_replicate. apply length_replicate.
  - intros k Hk. apply Hrows. lia.
Qed.

Lemma sweep_ok (ev : nat → event) (out : nat → list Q * list Q) (cols : Z) :
  (0 ≤ cols)%Z →
  (∀ k, k < 360 → length (out k).1 = Z.to_nat cols
                  ∧ length (out k).2 = Z.to_nat cols) →
  ∃ b, sweep ev out cols = (map ev (seq 0 360), inr b).
Proof.
  intros Hc Hout. unfold sweep.
  assert (Z0 : np_zeros 720 cols
               = inr (Arr2 720 (Z.to_nat cols)
                        (replicate 720 (replicate (Z.to_nat cols) 0%Q))))
    by (apply np_zeros_inr; auto).
  rewrite Z0, bind_lift_inr. apply sweep_loop_ok; [lia|].
  intros k Hk. destruct (Hout k) as [Hl Hr]; [lia|].
  rewrite (fit_exact _ _ Hl), (fit_exact _ _ Hr). split; eexists; reflexivity.
Qed.

(** The two sweeps of the source are instances of [sweep]. *)
Lemma ssr_brirs_loudspeaker_sweep (ls_irs : ndarray) (hull : LoudspeakerSetup)
    (fs : Z) (hrirs : hrirs_t) :
  ssr_brirs_loudspeaker ls_irs hull fs hrirs =
  bind (lift (shape_at ls_irs 1)) (λ s,
    sweep (λ angle, EvBinauralize hull ls_irs fs (np_deg2rad angle, 0%Q) hrirs)
          (λ angle, binauralize hull ls_irs fs (np_deg2rad angle, 0%Q) hrirs)
          (Z.of_nat s + Z.of_nat (HRIRs_len hrirs) - 1)).
Proof. reflexivity. Qed.

Lemma ssr_brirs_sdm_sweep (sdm_p sdm_phi sdm_theta : list Q) (hrirs : hrirs_t) :
  ssr_brirs_sdm sdm_p sdm_phi sdm_theta hrirs =
  sweep (λ angle, EvRenderBsdm sdm_p
                    (map (λ x, x - np_deg2rad angle)%Q sdm_phi) sdm_theta hrirs)
        (λ angle, render_bsdm sdm_p
                    (map (λ x, x - np_deg2rad angle)%Q sdm_phi) sdm_theta hrirs)
        (Z.of_nat (length sdm_p) + Z.of_nat (HRIRs_len hrirs) - 1).
Proof. reflexivity. Qed.

Lemma shape_at_1_inr (a : ndarray) (s : nat) :
  shape_at a 1 = inr s ↔ ∃ g, shape a = [g; s].
Proof.
  unfold shape_at. destruct a as [x|v|g h rows]; simpl.
  - split; [discriminate|]. intros [g G]. discriminate.
  - split; [discriminate|]. intros [g G]. discriminate.
  - split.
    + intros [= <-]. eauto.
    + intros [g' [= _ ->]]. reflexivity.
Qed.

(** C1: the assembled bank has 720 rows and as many columns as the source
    length plus the HRIR length minus one, in both writers.  Every bank a
    sweep returns has that shape, each of its rows having that length; and
    a sweep over a source of that length, whose renderer returns signals of
    the column count, does return a bank. *)
Theorem bank_shape :
  (∀ (ls_irs : ndarray) (hull : LoudspeakerSetup) (fs : Z) (hrirs : hrirs_t),
     (∀ t b, ssr_brirs_loudspeaker ls_irs hull fs hrirs = (t, inr b) →
        ∃ L N, shape ls_irs = [L; N] ∧ 1 ≤ N + HRIRs_len hrirs
               ∧ shape b = [720; N + HRIRs_len hrirs - 1] ∧ wf b)
     ∧ (∀ L N, shape ls_irs = [L; N] → 1 ≤ N + HRIRs_len hrirs →
          (∀ angle, angle < 360 →
             let irs := binauralize hull ls_irs fs (np_deg2rad angle, 0%Q) hrirs in
             length irs.1 = N + HRIRs_len hrirs - 1
             ∧ length irs.2 = N + HRIRs_len hrirs - 1) →
          ∃ t b, ssr_brirs_loudspeaker ls_irs hull fs hrirs = (t, inr b)))
  ∧ (∀ (sdm_p sdm_phi sdm_theta : list Q) (hrirs : hrirs_t),
       (∀ t b, ssr_brirs_sdm sdm_p sdm_phi sdm_theta hrirs = (t, inr b) →
          1 ≤ length sdm_p + HRIRs_len hrirs
          ∧ shape b = [720; length sdm_p + HRIRs_len hrirs - 1] ∧ wf b)
       ∧ (1 ≤ length sdm_p + HRIRs_len hrirs →
          (∀ angle, angle < 360 →
             let irs := render_bsdm sdm_p
                          (map (λ x, x - np_deg2rad angle)%Q sdm_phi)
                          sdm_theta hrirs in
             length irs.1 = length sdm_p + HRIRs_len hrirs - 1
             ∧ length irs.2 = length sdm_p + HRIRs_len hrirs - 1) →
          ∃ t b, ssr_brirs_sdm sdm_p sdm_phi sdm_theta hrirs = (t, inr b))).
Proof.
  split.
  - intros ls_irs hull fs0 hrirs. rewrite ssr_brirs_loudspeaker_sweep. split.
    + intros t b H. apply bind_inr in H as (t1 & N & t2 & Hs & H & _).
      apply pair_equal_spec in Hs as [_ Hs].
      apply shape_at_1_inr in Hs as [L HL].
      apply sweep_inr in H as (Hc & rows & -> & Hlen & Hwf & _).
      exists L, N. split; [exact HL|]. split; [lia|]. simpl.
      replace (Z.to_nat (Z.of_nat N + Z.of_nat (HRIRs_len hrirs) - 1))
        with (N + HRIRs_len hrirs - 1) in * by lia.
      auto.
    + intros L N HL Hpos Hout.
      assert (Hs : shape_at ls_irs 1 = inr N) by (apply shape_at_1_inr; eauto).
      rewrite Hs, bind_lift_inr.
      destruct (sweep_ok
        (λ angle, EvBinauralize hull ls_irs fs0 (np_deg2rad angle, 0%Q) hrirs)
        (λ angle, binauralize hull ls_irs fs0 (np_deg2rad angle, 0%Q) hrirs)
        (Z.of_nat N + Z.of_nat (HRIRs_len hrirs) - 1)) as [b Hb]; [lia| |eauto].
      intros k Hk. specialize (Hout k Hk). simpl in Hout. cbv beta.
      replace (Z.to_nat (Z.of_nat N + Z.of_nat (HRIRs_len hrirs) - 1))
        with (N + HRIRs_len hrirs - 1) by lia.
      exact Hout.
  - intros sdm_p sdm_phi sdm_theta hrirs. rewrite ssr_brirs_sdm_sweep. split.
    + intros t b H.
      apply sweep_inr in H as (Hc & rows & -> & Hlen & Hwf & _).
      split; [lia|]. simpl.
      replace (Z.to_nat (Z.of_nat (length sdm_p) + Z.of_nat (HRIRs_len hrirs) - 1))
        with (length sdm_p + HRIRs_len hrirs - 1) in * by lia.
      auto.
    + intros Hpos Hout.
      destruct (sweep_ok
        (λ angle, EvRenderBsdm sdm_p
                    (map (λ x, x - np_deg2rad angle)%Q sdm_phi) sdm_theta hrirs)
        (λ angle, render_bsdm sdm_p
                    (map (λ x, x - np_deg2rad angle)%Q sdm_phi) sdm_theta hrirs)
        (Z.of_nat (length sdm_p) + Z.of_nat (HRIRs_len hrirs) - 1))
        as [b Hb]; [lia| |eauto].
      intros k Hk. specialize (Hout k Hk). simpl in Hout. cbv beta.
      replace (Z.to_nat (Z.of_nat (length sdm_p) + Z.of_nat (HRIRs_len hrirs) - 1))
        with (length sdm_p + HRIRs_len hrirs - 1) by lia.
      exact Hout.
Qed.

(** C2: for every orientation [k] below 360, the row [2 * k] of the bank is
    the left signal and the row [2 * k + 1] the right signal of the render
    for [k], a render whose signals have the length of a row; and that
    render is the [k]-th call of the run, with the orientation
    [(k * pi / 180, 0)] in the array writer and the azimuths rotated by [k]
    in the room writer. *)
Theorem row_pairing :
  (∀ (ls_irs : ndarray) (hull : LoudspeakerSetup) (fs : Z) (hrirs : hrirs_t)
     (t : list event) (g h : nat) (rows : list (list Q)) (k : nat)
     (ir_l ir_r : list Q),
     ssr_brirs_loudspeaker ls_irs hull fs hrirs = (t, inr (Arr2 g h rows)) →
     k < 360 →
     binauralize hull ls_irs fs (np_deg2rad k, 0%Q) hrirs = (ir_l, ir_r) →
     length ir_l = h → length ir_r = h →
     t !! k = Some (EvBinauralize hull ls_irs fs (np_deg2rad k, 0%Q) hrirs)
     ∧ rows !! (2 * k) = Some ir_l ∧ rows !! (2 * k + 1) = Some ir_r)
  ∧ (∀ (sdm_p sdm_phi sdm_theta : list Q) (hrirs : hrirs_t)
       (t : list event) (g h : nat) (rows : list (list Q)) (k : nat)
       (ir_l ir_r : list Q),
       ssr_brirs_sdm sdm_p sdm_phi sdm_theta hrirs = (t, inr (Arr2 g h rows)) →
       k < 360 →
       render_bsdm sdm_p (map (λ x, x - np_deg2rad k)%Q sdm_phi) sdm_theta hrirs
         = (ir_l, ir_r) →
       length ir_l = h → length ir_r = h →
       t !! k = Some (EvRenderBsdm sdm_p
                        (map (λ x, x - np_deg2rad k)%Q sdm_phi) sdm_theta hrirs)
       ∧ rows !! (2 * k) = Some ir_l ∧ rows !! (2 * k + 1) = Some ir_r).
Proof.
  assert (Main : ∀ ev out cols t g h rows k ir_l ir_r,
            sweep ev out cols = (t, inr (Arr2 g h rows)) → k < 360 →
            out k = (ir_l, ir_r) → length ir_l = h → length ir_r = h →
            t !! k = Some (ev k)
            ∧ rows !! (2 * k) = Some ir_l ∧ rows !! (2 * k + 1) = Some ir_r).
  { intros ev out cols t g h rows k ir_l ir_r H Hk Hout Hl Hr. split.
    - apply sweep_trace in H as (n & _ & -> & Hn).
      rewrite (Hn _ eq_refl). rewrite list_lookup_fmap.
      rewrite lookup_seq_lt by exact Hk. reflexivity.
    - apply sweep_inr in H as (Hc & rows' & E & _ & _ & Hrows).
      injection E as -> -> ->.
      destruct (Hrows k Hk) as (l & r & Fl & Fr & Rl & Rr).
      rewrite Hout in Fl, Fr. simpl in Fl, Fr.
      rewrite (fit_exact _ _ Hl) in Fl. rewrite (fit_exact _ _ Hr) in Fr.
      injection Fl as <-. injection Fr as <-. auto. }
  split.
  - intros ls_irs hull fs0 hrirs t g h rows k ir_l ir_r H.
    rewrite ssr_brirs_loudspeaker_sweep in H.
    apply bind_inr in H as (t1 & N & t2 & Hs & H & ->).
    apply pair_equal_spec in Hs as [<- _]. simpl app.
    intros Hk Hout. eapply (Main _ _ _ _ _ _ _ _ _ _ H Hk Hout).
  - intros sdm_p sdm_phi sdm_theta hrirs t g h rows k ir_l ir_r H.
    rewrite ssr_brirs_sdm_sweep in H.
    intros Hk Hout. eapply (Main _ _ _ _ _ _ _ _ _ _ H Hk Hout).
Qed.

(** The first turn of the loop calls the renderer: a sweep whose bank
    could be allocated has issued the call for the orientation 0. *)
Lemma sweep_first_call (ev : nat → event) (out : nat → list Q * list Q)
    (cols : Z) (t : list event) (r : exn + ndarray) :
  (0 ≤ cols)%Z → sweep ev out cols = (t, r) → ∃ t', t = ev 0 :: t'.
Proof.
  intros Hc. unfold sweep.
  assert (Z0 : np_zeros 720 cols
               = inr (Arr2 720 (Z.to_nat cols)
                        (replicate 720 (replicate (Z.to_nat cols) 0%Q))))
    by (apply np_zeros_inr; auto).
  rewrite Z0, bind_lift_inr.
  change (seq 0 360) with (0 :: seq 1 359).
  rewrite for_each_cons, sweep_step_unfold. unfold bind.
  destruct (match setitem_row _ (2 * 0) (out 0).1 with
            | inl e => inl e
            | inr b1 => setitem_row b1 (2 * 0 + 1) (out 0).2
            end) as [e|b1].
  - intros [= <- _]. eauto.
  - destruct (for_each _ _ b1) as [t' r']. intros [= <- _]. eauto.
Qed.

(** C5: in the room writer the render for the orientation [k] receives the
    pressure and the colatitude sequences as they were given and the
    azimuth sequence with [k * (pi / 180)] subtracted from every element of
    the sequence that was given: the calls of a run, in order, are these,
    for the orientations 0 up to the one the run reached; a run whose bank
    could be allocated has made the call for the orientation 0 at least,
    and a run that returns a bank has made all 360.  With a renderer that
    returns signals of the column count the run does return a bank, after
    these 360 calls.  Each rotation starts from the original azimuths,
    which no turn of the loop changes. *)
Theorem sdm_rotation (sdm_p sdm_phi sdm_theta : list Q) (hrirs : hrirs_t) :
  (∀ (t : list event) (r : exn + ndarray),
     ssr_brirs_sdm sdm_p sdm_phi sdm_theta hrirs = (t, r) →
     ∃ n, n ≤ 360 ∧ (∀ b, r = inr b → n = 360)
       ∧ (1 ≤ length sdm_p + HRIRs_len hrirs → 1 ≤ n)
       ∧ t = map (λ k, EvRenderBsdm sdm_p
                         (map (λ x, x - inject_Z (Z.of_nat k) * (np_pi / 180))%Q
                              sdm_phi)
                         sdm_theta hrirs)
                 (seq 0 n))
  ∧ (1 ≤ length sdm_p + HRIRs_len hrirs →
     (∀ k, k < 360 →
        let irs := render_bsdm sdm_p
                     (map (λ x, x - inject_Z (Z.of_nat k) * (np_pi / 180))%Q
                          sdm_phi)
                     sdm_theta hrirs in
        length irs.1 = length sdm_p + HRIRs_len hrirs - 1
        ∧ length irs.2 = length sdm_p + HRIRs_len hrirs - 1) →
     ∃ b, ssr_brirs_sdm sdm_p sdm_phi sdm_theta hrirs
          = (map (λ k, EvRenderBsdm sdm_p
                         (map (λ x, x - inject_Z (Z.of_nat k) * (np_pi / 180))%Q
                              sdm_phi)
                         sdm_theta hrirs)
                 (seq 0 360),
             inr b)).
Proof.
  rewrite ssr_brirs_sdm_sweep. split.
  - intros t r H. pose proof H as H'.
    apply sweep_trace in H as (n & Hn & -> & Hr).
    exists n. split; [exact Hn|]. split; [exact Hr|]. split; [|reflexivity].
    intros Hpos. apply sweep_first_call in H' as [t' Ht]; [|lia].
    destruct n as [|n]; [discriminate|lia].
  - intros Hpos Hout.
    apply (sweep_ok
      (λ angle, EvRenderBsdm sdm_p
                  (map (λ x, x - np_deg2rad angle)%Q sdm_phi) sdm_theta hrirs)
      (λ angle, render_bsdm sdm_p
                  (map (λ x, x - np_deg2rad angle)%Q sdm_phi) sdm_theta hrirs));
      [lia|].
    intros k Hk.
    replace (Z.to_nat (Z.of_nat (length sdm_p)
                       + Z.of_nat (HRIRs_len hrirs) - 1))
      with (length sdm_p + HRIRs_len hrirs - 1) by lia.
    exact (Hout k Hk).
Qed.

(** ** [load_hrirs] *)

Lemma load_hrirs_Some (fs_arg : Z) (f : string) (dummy : bool) :
  load_hrirs fs_arg (Some f) dummy =
  match loadmat f with
  | Some m => from_mat fs_arg dummy m
  | None => raise MissingDefaultData
  end.
Proof.
  unfold load_hrirs, hrirs_filename. rewrite bind_ret_l.
  destruct (loadmat f) as [m|]; [|reflexivity].
  rewrite bind_ret_l. reflexivity.
Qed.

Lemma load_hrirs_None (fs_arg : Z) (dummy : bool) :
  load_hrirs fs_arg None dummy =
  bind (default_file fs_arg)
       (λ d, load_hrirs fs_arg (Some (os_path_join current_file_dir d)) dummy).
Proof.
  unfold load_hrirs, hrirs_filename, default_file.
  destruct (fs_arg =? 44100)%Z; [rewrite !bind_ret_l; reflexivity|].
  destruct (fs_arg =? 48000)%Z; [rewrite !bind_ret_l; reflexivity|].
  reflexivity.
Qed.

Lemma diracs_unfold (a : ndarray) :
  diracs a =
  bind (lift (shape_at (np_zeros_like a) 0))
       (λ n, lift (setitem_col (np_zeros_like a) 0 (np_ones n))).
Proof. reflexivity. Qed.

Lemma diracs_Arr2 (g h : nat) (rows : list (list Q)) :
  0 < h → diracs (Arr2 g h rows) = ([], inr (Arr2 g h (dirac_rows g h))).
Proof.
  intros Hh. rewrite diracs_unfold.
  change (np_zeros_like (Arr2 g h rows))
    with (Arr2 g h (replicate g (replicate h 0%Q))).
  change (shape_at (Arr2 g h (replicate g (replicate h 0%Q))) 0)
    with (@inr exn nat g).
  rewrite bind_lift_inr. unfold lift, setitem_col, np_ones, dirac_rows.
  assert (E : (0 <? h) = true) by (apply Nat.ltb_lt; exact Hh).
  rewrite E. cbn [negb].
  rewrite length_replicate, Nat.eqb_refl.
  rewrite zip_with_replicate. destruct h as [|h]; [lia|].
  cbn [replicate]. rewrite Nat.sub_succ, Nat.sub_0_r. reflexivity.
Qed.

Lemma diracs_events (a : ndarray) : (diracs a).1 = [].
Proof.
  rewrite diracs_unfold.
  destruct (shape_at (np_zeros_like a) 0) as [e|n]; [reflexivity|].
  rewrite bind_lift_inr. reflexivity.
Qed.

Lemma diracs_inr (a : ndarray) (t : list event) (a' : ndarray) :
  diracs a = (t, inr a') →
  t = [] ∧ ∃ g h, shape a = [g; h] ∧ 0 < h ∧ a' = Arr2 g h (dirac_rows g h).
Proof.
  destruct a as [x|v|g h rows].
  - discriminate.
  - rewrite diracs_unfold.
    change (shape_at (np_zeros_like (Arr1 v)) 0)
      with (@inr exn nat (length (replicate (length v) 0%Q))).
    rewrite bind_lift_inr. discriminate.
  - destruct h as [|h].
    + rewrite diracs_unfold.
      change (shape_at (np_zeros_like (Arr2 g 0 rows)) 0) with (@inr exn nat g).
      rewrite bind_lift_inr. discriminate.
    + rewrite diracs_Arr2 by lia. intros [= <- <-].
      split; [reflexivity|]. exists g, (S h). repeat split. lia.
Qed.

Lemma diracs_two_dim (a : ndarray) :
  two_dim a → ∃ a', diracs a = ([], inr a').
Proof.
  intros (g & h & Hs & Hh). destruct a as [x|v|g' h' rows]; try discriminate.
  injection Hs as -> ->. rewrite diracs_Arr2 by exact Hh. eauto.
Qed.

(** The dummy branch keeps the shape of the array. *)
Lemma diracs_shape (a l : ndarray) : (diracs a).2 = inr l → shape l = shape a.
Proof.
  intros H. destruct (diracs a) as [t r] eqn:E. simpl in H. subst r.
  apply diracs_inr in E as (_ & g & h & Hs & _ & ->). rewrite Hs. reflexivity.
Qed.

(** The end of [load_hrirs]: the constructor, then the comparison of the
    rates.  Both raise [AssertionError]. *)
Lemma construct_then_rate (l r : ndarray) (g : DataFrame) (rate fs_arg : Z) :
  (HRIRs <- lift (sig_HRIRs l r g rate);;
   assert (fs HRIRs =? fs_arg)%Z;;
   ret HRIRs : M hrirs_t)
  = if HRIRs_invariant (shape l) (shape r) g && (rate =? fs_arg)%Z
    then ([], inr (mkHRIRs l r g rate))
    else ([], inl AssertionError).
Proof.
  unfold sig_HRIRs. destruct (HRIRs_invariant _ _ _); [|reflexivity].
  rewrite bind_lift_inr. simpl fs. destruct (rate =? fs_arg)%Z; reflexivity.
Qed.

(** The outcome of [from_mat] without the dummy branch. *)
Lemma from_mat_plain (fs_arg : Z) (m : mat) :
  from_mat fs_arg false m =
  match pd_DataFrame (np_squeeze (mat_azi m)) (np_squeeze (mat_elev m)) with
  | inl e => ([], inl e)
  | inr g =>
      if HRIRs_invariant (shape (np_squeeze (mat_hrir_l m)))
           (shape (np_squeeze (mat_hrir_r m))) g
         && (mat_SamplingRate m =? fs_arg)%Z
      then ([], inr (mkHRIRs (np_squeeze (mat_hrir_l m))
                             (np_squeeze (mat_hrir_r m)) g (mat_SamplingRate m)))
      else ([], inl AssertionError)
  end.
Proof.
  unfold from_mat. destruct (pd_DataFrame _ _) as [e|g]; [reflexivity|].
  rewrite bind_lift_inr, bind_ret_l. apply construct_then_rate.
Qed.

(** The outcome of [from_mat] with the dummy branch. *)
Lemma from_mat_dummy (fs_arg : Z) (m : mat) :
  from_mat fs_arg true m =
  match pd_DataFrame (np_squeeze (mat_azi m)) (np_squeeze (mat_elev m)) with
  | inl e => ([], inl e)
  | inr g =>
      match (diracs (np_squeeze (mat_hrir_l m))).2 with
      | inl e => ([], inl e)
      | inr l =>
          match (diracs (np_squeeze (mat_hrir_r m))).2 with
          | inl e => ([], inl e)
          | inr r =>
              if HRIRs_invariant (shape l) (shape r) g
                 && (mat_SamplingRate m =? fs_arg)%Z
              then ([], inr (mkHRIRs l r g (mat_SamplingRate m)))
              else ([], inl AssertionError)
          end
      end
  end.
Proof.
  unfold from_mat. destruct (pd_DataFrame _ _) as [e|g]; [reflexivity|].
  rewrite bind_lift_inr.
  pose proof (diracs_events (np_squeeze (mat_hrir_l m))) as El.
  pose proof (diracs_events (np_squeeze (mat_hrir_r m))) as Er.
  destruct (diracs (np_squeeze (mat_hrir_l m))) as [tl [el|l]];
    simpl in El; subst tl; [reflexivity|].
  destruct (diracs (np_squeeze (mat_hrir_r m))) as [tr [er|r]];
    simpl in Er; subst tr; [reflexivity|].
  change (([], inr l) : M ndarray) with (ret l : M ndarray).
  change (([], inr r) : M ndarray) with (ret r : M ndarray).
  rewrite !bind_ret_l. simpl snd. apply construct_then_rate.
Qed.

(** [load_hrirs] issues no event. *)
Lemma from_mat_events (fs_arg : Z) (dummy : bool) (m : mat) :
  (from_mat fs_arg dummy m).1 = [].
Proof.
  destruct dummy; [rewrite from_mat_dummy | rewrite from_mat_plain];
    destruct (pd_DataFrame _ _) as [e|g]; try reflexivity.
  - destruct (diracs (np_squeeze (mat_hrir_l m))).2 as [el|l]; [reflexivity|].
    destruct (diracs (np_squeeze (mat_hrir_r m))).2 as [er|r]; [reflexivity|].
    destruct (_ && _)%bool; reflexivity.
  - destruct (_ && _)%bool; reflexivity.
Qed.

Lemma load_hrirs_events (fs_arg : Z) (filename : option string) (dummy : bool) :
  (load_hrirs fs_arg filename dummy).1 = [].
Proof.
  assert (S : ∀ f, (load_hrirs fs_arg (Some f) dummy).1 = []).
  { intros f. rewrite load_hrirs_Some.
    destruct (loadmat f); [apply from_mat_events|reflexivity]. }
  destruct filename as [f|]; [apply S|].
  rewrite load_hrirs_None. unfold default_file.
  destruct (fs_arg =? 44100)%Z; [rewrite bind_ret_l; apply S|].
  destruct (fs_arg =? 48000)%Z; [rewrite bind_ret_l; apply S|].
  reflexivity.
Qed.

(** C6: without a file name [load_hrirs] reads the default container of the
    requested sample rate (one for 44100, one for 48000, both beside the
    module), and any other sample rate is refused with
    [UnsupportedSampleRate], whatever [dummy] is, before anything is read.
    The default container is the one [loadmat] is asked for: when it is
    not found the call raises [MissingDefaultData], and when it is found,
    with a grid and arrays the constructor accepts and at the requested
    rate, the call without [dummy] returns the set of its arrays. *)
Theorem load_hrirs_default (fs_arg : Z) (dummy : bool) :
  (fs_arg = 44100%Z →
     load_hrirs fs_arg None dummy =
     load_hrirs fs_arg
       (Some (os_path_join current_file_dir "../data/HRTF_default.mat")) dummy)
  ∧ (fs_arg = 48000%Z →
       load_hrirs fs_arg None dummy =
       load_hrirs fs_arg
         (Some (os_path_join current_file_dir "../data/HRTF_default48k.mat")) dummy)
  ∧ (fs_arg ≠ 44100%Z → fs_arg ≠ 48000%Z →
       load_hrirs fs_arg None dummy = ([], inl UnsupportedSampleRate))
  ∧ (∀ file : string,
       (fs_arg = 44100%Z ∧ file = "../data/HRTF_default.mat"%string)
       ∨ (fs_arg = 48000%Z ∧ file = "../data/HRTF_default48k.mat"%string) →
       (loadmat (os_path_join current_file_dir file) = None →
        load_hrirs fs_arg None dummy = ([], inl MissingDefaultData))
       ∧ (∀ m g,
            loadmat (os_path_join current_file_dir file) = Some m →
            pd_DataFrame (np_squeeze (mat_azi m)) (np_squeeze (mat_elev m))
            = inr g →
            HRIRs_invariant (shape (np_squeeze (mat_hrir_l m)))
              (shape (np_squeeze (mat_hrir_r m))) g = true →
            mat_SamplingRate m = fs_arg →
            load_hrirs fs_arg None false
            = ([], inr (mkHRIRs (np_squeeze (mat_hrir_l m))
                                (np_squeeze (mat_hrir_r m)) g fs_arg)))).
Proof.
  assert (D1 : fs_arg = 44100%Z → ∀ d,
            load_hrirs fs_arg None d =
            load_hrirs fs_arg
              (Some (os_path_join current_file_dir "../data/HRTF_default.mat")) d).
  { intros -> d. rewrite load_hrirs_None. unfold default_file.
    change (44100 =? 44100)%Z with true. cbv iota.
    rewrite bind_ret_l. reflexivity. }
  assert (D2 : fs_arg = 48000%Z → ∀ d,
            load_hrirs fs_arg None d =
            load_hrirs fs_arg
              (Some (os_path_join current_file_dir "../data/HRTF_default48k.mat"))
              d).
  { intros -> d. rewrite load_hrirs_None. unfold default_file.
    change (48000 =? 44100)%Z with false.
    change (48000 =? 48000)%Z with true. cbv iota.
    rewrite bind_ret_l. reflexivity. }
  split; [intros E; apply (D1 E)|]. split; [intros E; apply (D2 E)|]. split.
  - intros H1 H2. rewrite load_hrirs_None. unfold default_file.
    apply Z.eqb_neq in H1. apply Z.eqb_neq in H2. rewrite H1, H2. reflexivity.
  - intros file Hfile.
    assert (R : ∀ d, load_hrirs fs_arg None d
                     = load_hrirs fs_arg
                         (Some (os_path_join current_file_dir file)) d).
    { destruct Hfile as [[E ->]|[E ->]]; [apply (D1 E) | apply (D2 E)]. }
    split.
    + intros Hm. rewrite R, load_hrirs_Some, Hm. reflexivity.
    + intros m g Hm Hg Hinv Hrate.
      rewrite R, load_hrirs_Some, Hm, from_mat_plain, Hg, Hinv.
      apply Z.eqb_eq in Hrate. rewrite Hrate. apply Z.eqb_eq in Hrate.
      rewrite Hrate. reflexivity.
Qed.

(** An array that is two-dimensional after [np.squeeze] had no axis of
    length one: it is the array that was loaded. *)
Lemma np_squeeze_two_dim (a : ndarray) (g h : nat) :
  shape (np_squeeze a) = [g; h] → np_squeeze a = a.
Proof.
  destruct a as [x|v|g' h' rows]; simpl.
  - discriminate.
  - destruct v as [|x [|y v]]; discriminate.
  - destruct g' as [|[|g']], h' as [|[|h']]; simpl; try discriminate; reflexivity.
Qed.

(** C7: a set returned with [dummy] set holds, in both ears, an array of
    the shape of the loaded (squeezed) array whose every row is 1 at the
    first sample and 0 at every other sample. *)
Theorem load_hrirs_dummy (fs_arg : Z) (filename : option string)
    (t : list event) (H : hrirs_t) :
  load_hrirs fs_arg filename true = (t, inr H) →
  ∃ f m, hrirs_filename fs_arg filename = ([], inr f) ∧ loadmat f = Some m
    ∧ shape (left H) = shape (np_squeeze (mat_hrir_l m))
    ∧ shape (right H) = shape (np_squeeze (mat_hrir_r m))
    ∧ np_squeeze (mat_hrir_l m) = mat_hrir_l m
    ∧ np_squeeze (mat_hrir_r m) = mat_hrir_r m
    ∧ ∀ a, a = left H ∨ a = right H →
        ∃ g h rows, a = Arr2 g h rows ∧ length rows = g
          ∧ ∀ i row, rows !! i = Some row →
              length row = h ∧ row !! 0 = Some 1%Q
              ∧ ∀ j, 0 < j < h → row !! j = Some 0%Q.
Proof.
  assert (Rows : ∀ g h, 0 < h →
            length (dirac_rows g h) = g
            ∧ ∀ i row, dirac_rows g h !! i = Some row →
                length row = h ∧ row !! 0 = Some 1%Q
                ∧ ∀ j, 0 < j < h → row !! j = Some 0%Q).
  { intros g h Hh. unfold dirac_rows. split; [apply length_replicate|].
    intros i row Hrow. apply lookup_replicate in Hrow as [-> _].
    split; [simpl; rewrite length_replicate; lia|]. split; [reflexivity|].
    intros j Hj. destruct j as [|j]; [lia|]. simpl.
    apply lookup_replicate. split; [reflexivity|lia]. }
  assert (S : ∀ f, load_hrirs fs_arg (Some f) true = (t, inr H) →
            ∃ m, loadmat f = Some m
              ∧ shape (left H) = shape (np_squeeze (mat_hrir_l m))
              ∧ shape (right H) = shape (np_squeeze (mat_hrir_r m))
              ∧ np_squeeze (mat_hrir_l m) = mat_hrir_l m
              ∧ np_squeeze (mat_hrir_r m) = mat_hrir_r m
              ∧ ∀ a, a = left H ∨ a = right H →
                  ∃ g h rows, a = Arr2 g h rows ∧ length rows = g
                    ∧ ∀ i row, rows !! i = Some row →
                        length row = h ∧ row !! 0 = Some 1%Q
                        ∧ ∀ j, 0 < j < h → row !! j = Some 0%Q).
  { intros f. rewrite load_hrirs_Some.
    destruct (loadmat f) as [m|]; [|discriminate].
    rewrite from_mat_dummy. destruct (pd_DataFrame _ _) as [e|g]; [discriminate|].
    destruct (diracs (np_squeeze (mat_hrir_l m))) as [tl [el|l]] eqn:Dl;
      [discriminate|].
    destruct (diracs (np_squeeze (mat_hrir_r m))) as [tr [er|r]] eqn:Dr;
      [discriminate|].
    cbn [snd]. destruct (_ && _)%bool; [|discriminate].
    intros [= _ <-]. exists m. split; [reflexivity|].
    apply diracs_inr in Dl as (_ & gl & hl & Sl & Hl & ->).
    apply diracs_inr in Dr as (_ & gr & hr & Sr & Hr & ->).
    simpl left. simpl right. split; [rewrite Sl; reflexivity|].
    split; [rewrite Sr; reflexivity|].
    split; [eapply np_squeeze_two_dim; exact Sl|].
    split; [eapply np_squeeze_two_dim; exact Sr|].
    intros a [->| ->]; eexists _, _, _; (split; [reflexivity|]);
      apply Rows; assumption. }
  destruct filename as [f|].
  - intros E. destruct (S f E) as (m & Hm & Rest). exists f, m. auto.
  - rewrite load_hrirs_None. unfold hrirs_filename, default_file.
    destruct (fs_arg =? 44100)%Z.
    + rewrite !bind_ret_l. intros E. destruct (S _ E) as (m & Hm & Rest).
      eexists _, m. auto.
    + destruct (fs_arg =? 48000)%Z; [|discriminate].
      rewrite !bind_ret_l. intros E. destruct (S _ E) as (m & Hm & Rest).
      eexists _, m. auto.
Qed.

Lemma load_hrirs_resolved (fs_arg : Z) (filename : option string)
    (dummy : bool) (f : string) :
  hrirs_filename fs_arg filename = ([], inr f) →
  load_hrirs fs_arg filename dummy = load_hrirs fs_arg (Some f) dummy.
Proof. intros E. unfold load_hrirs. rewrite E. reflexivity. Qed.

Lemma hrirs_filename_cases (fs_arg : Z) (filename : option string) :
  (∃ f, hrirs_filename fs_arg filename = ([], inr f))
  ∨ (hrirs_filename fs_arg filename = ([], inl UnsupportedSampleRate)
     ∧ ∀ dummy, load_hrirs fs_arg filename dummy = ([], inl UnsupportedSampleRate)).
Proof.
  destruct filename as [f|]; [left; eexists; reflexivity|].
  unfold load_hrirs, hrirs_filename, default_file.
  destruct (fs_arg =? 44100)%Z; [left; rewrite bind_ret_l; eexists; reflexivity|].
  destruct (fs_arg =? 48000)%Z; [left; rewrite bind_ret_l; eexists; reflexivity|].
  right. split; reflexivity.
Qed.

(** C4: a set whose sample rate differs from the sample rate given to the
    writer makes either writer end with [SampleRateMismatch] and without an
    event: no renderer was called and no file was written.  So it is for a
    set passed by the caller, and for the default set, loaded when none is
    passed, when the rate in its container differs. *)
Theorem sample_rate_mismatch (filename : string) (fs_arg : Z) :
  (∀ hrirs : hrirs_t, fs hrirs ≠ fs_arg →
     (∀ ls_irs hull,
        write_ssr_brirs_loudspeaker filename ls_irs hull fs_arg (Some hrirs)
        = ([], inl SampleRateMismatch))
     ∧ (∀ sdm_p sdm_phi sdm_theta,
          write_ssr_brirs_sdm filename sdm_p sdm_phi sdm_theta fs_arg (Some hrirs)
          = ([], inl SampleRateMismatch)))
  ∧ (∀ f m g,
       hrirs_filename fs_arg None = ([], inr f) → loadmat f = Some m →
       pd_DataFrame (np_squeeze (mat_azi m)) (np_squeeze (mat_elev m)) = inr g →
       mat_SamplingRate m ≠ fs_arg →
       (∀ ls_irs hull,
          write_ssr_brirs_loudspeaker filename ls_irs hull fs_arg None
          = ([], inl SampleRateMismatch))
       ∧ (∀ sdm_p sdm_phi sdm_theta,
            write_ssr_brirs_sdm filename sdm_p sdm_phi sdm_theta fs_arg None
            = ([], inl SampleRateMismatch))).
Proof.
  split.
  - intros hrirs Hne. apply Z.eqb_neq in Hne.
    split; intros; unfold write_ssr_brirs_loudspeaker, write_ssr_brirs_sdm, get_hrirs;
      rewrite bind_ret_l, Hne; reflexivity.
  - intros f m g Hf Hm Hg Hne. apply Z.eqb_neq in Hne.
    assert (E : load_hrirs fs_arg None false = ([], inl SampleRateMismatch)).
    { rewrite (load_hrirs_resolved _ _ _ f Hf), load_hrirs_Some, Hm.
      rewrite from_mat_plain, Hg, Hne, andb_false_r. reflexivity. }
    split; intros; unfold write_ssr_brirs_loudspeaker, write_ssr_brirs_sdm, get_hrirs;
      rewrite E; reflexivity.
Qed.

(** X1: [dummy] does not bypass the loading.  The grid and the sample rate
    of a returned set are those of the container, with and without
    [dummy]; a call with [dummy] fails whenever the call without it fails
    (default rate not supported, container not found, grid refused, rate of
    the container differing from the requested one); and when the two
    loaded arrays are two-dimensional with at least one sample in a row,
    the two calls fail in the same cases, with the same exception. *)
Theorem dummy_loads_container (fs_arg : Z) (filename : option string) :
  (∀ dummy t H, load_hrirs fs_arg filename dummy = (t, inr H) →
     ∃ f m, hrirs_filename fs_arg filename = ([], inr f) ∧ loadmat f = Some m
       ∧ pd_DataFrame (np_squeeze (mat_azi m)) (np_squeeze (mat_elev m))
         = inr (grid H)
       ∧ fs H = mat_SamplingRate m ∧ fs H = fs_arg)
  ∧ (fails (load_hrirs fs_arg filename false) →
     fails (load_hrirs fs_arg filename true))
  ∧ ((∀ f m, hrirs_filename fs_arg filename = ([], inr f) → loadmat f = Some m →
        two_dim (np_squeeze (mat_hrir_l m)) ∧ two_dim (np_squeeze (mat_hrir_r m))) →
     ∀ t e, load_hrirs fs_arg filename true = (t, inl e)
            ↔ load_hrirs fs_arg filename false = (t, inl e)).
Proof.
  destruct (hrirs_filename_cases fs_arg filename) as [[f Hf]|[Hf Hall]].
  2:{ split; [|split].
      - intros dummy t H E. rewrite Hall in E. discriminate.
      - intros _. rewrite Hall. eexists. reflexivity.
      - intros _ t e. rewrite !Hall. reflexivity. }
  assert (R : ∀ dummy, load_hrirs fs_arg filename dummy
                        = load_hrirs fs_arg (Some f) dummy)
    by (intros; apply load_hrirs_resolved; exact Hf).
  split; [|split].
  - intros dummy t H. rewrite R, load_hrirs_Some.
    destruct (loadmat f) as [m|] eqn:Hm; [|discriminate].
    intros E. exists f, m. split; [exact Hf|]. split; [exact Hm|].
    destruct dummy.
    + rewrite from_mat_dummy in E.
      destruct (pd_DataFrame _ _) as [e|g]; [discriminate|].
      destruct (diracs (np_squeeze (mat_hrir_l m))).2 as [el|l]; [discriminate|].
      destruct (diracs (np_squeeze (mat_hrir_r m))).2 as [er|r]; [discriminate|].
      destruct (_ && _)%bool eqn:Hc; [|discriminate].
      apply andb_true_iff in Hc as [_ Hfs].
      injection E as _ <-. apply Z.eqb_eq in Hfs. auto.
    + rewrite from_mat_plain in E.
      destruct (pd_DataFrame _ _) as [e|g]; [discriminate|].
      destruct (_ && _)%bool eqn:Hc; [|discriminate].
      apply andb_true_iff in Hc as [_ Hfs].
      injection E as _ <-. apply Z.eqb_eq in Hfs. auto.
  - rewrite !R, !load_hrirs_Some. destruct (loadmat f) as [m|]; [|auto].
    rewrite from_mat_plain, from_mat_dummy. unfold fails.
    destruct (pd_DataFrame _ _) as [e|g]; [auto|].
    destruct (diracs (np_squeeze (mat_hrir_l m))).2 as [el|l] eqn:Dl;
      [intros _; eexists; reflexivity|].
    destruct (diracs (np_squeeze (mat_hrir_r m))).2 as [er|r] eqn:Dr;
      [intros _; eexists; reflexivity|].
    rewrite (diracs_shape _ _ Dl), (diracs_shape _ _ Dr).
    destruct (_ && _)%bool; [|auto].
    intros [e E]. discriminate.
  - intros Hdim t e. rewrite !R, !load_hrirs_Some.
    destruct (loadmat f) as [m|] eqn:Hm; [|reflexivity].
    destruct (Hdim f m Hf Hm) as [Dl Dr].
    apply diracs_two_dim in Dl as [l Dl]. apply diracs_two_dim in Dr as [r Dr].
    assert (Sl : shape l = shape (np_squeeze (mat_hrir_l m)))
      by (apply diracs_shape; rewrite Dl; reflexivity).
    assert (Sr : shape r = shape (np_squeeze (mat_hrir_r m)))
      by (apply diracs_shape; rewrite Dr; reflexivity).
    rewrite from_mat_plain, from_mat_dummy, Dl, Dr. simpl snd.
    destruct (pd_DataFrame _ _) as [e'|g]; [reflexivity|].
    rewrite Sl, Sr. destruct (_ && _)%bool; [|reflexivity].
    split; discriminate.
Qed.

(** ** The writers, end to end *)

Lemma shape_amap (f : Q → Q) (a : ndarray) : shape (amap f a) = shape a.
Proof.
  destruct a as [x|v|g h rows]; simpl; try reflexivity.
  rewrite length_map. reflexivity.
Qed.

(** The normalizer returns a bank of the same shape for every bank that
    has a sample, with at most its one warning. *)
Lemma normalize_returns (b : ndarray) :
  elems b ≠ [] →
  ∃ warns b', normalize b = (warns, inr b') ∧ shape b' = shape b
    ∧ (warns = [] ∨ warns = [EvWarn "Normalizing BRIRs"]).
Proof.
  intros Hne. destruct (np_max_nonempty (np_abs b)) as [m H].
  { unfold np_abs. rewrite elems_amap. destruct (elems b); [congruence|discriminate]. }
  destruct (Qlt_le_dec 1 m) as [Hm|Hm].
  - eexists _, _. split; [apply (normalize_gt_1 b m H Hm)|].
    split; [apply shape_amap | right; reflexivity].
  - eexists _, _. split; [apply (normalize_le_1 b m H Hm)|].
    split; [reflexivity | left; reflexivity].
Qed.

Lemma bank_has_sample (g h : nat) (rows : list (list Q)) :
  wf (Arr2 g h rows) → 0 < g → 0 < h → elems (Arr2 g h rows) ≠ [].
Proof.
  intros [Hlen Hrows] Hg Hh. destruct rows as [|r rows]; [simpl in Hlen; lia|].
  apply Forall_cons in Hrows as [Hr _].
  destruct r as [|x r]; [simpl in Hr; lia|]. discriminate.
Qed.

(** A call of [wavfile.write]: its event, and its outcome. *)
Lemma wavfile_write_run (filename : string) (fs_arg : Z) (data : ndarray) :
  wavfile_write filename fs_arg data
  = ([EvWavfileWrite filename fs_arg data],
     wavfile_outcome filename fs_arg data).
Proof. reflexivity. Qed.

(** After the sweep: the bank is normalized and handed to [wavfile.write],
    once. *)
Lemma sweep_then_write (run : M ndarray) (filename : string) (fs_arg : Z)
    (calls : list event) (cols : nat) (rows : list (list Q)) :
  run = (calls, inr (Arr2 720 cols rows)) → wf (Arr2 720 cols rows) → 0 < cols →
  ∃ warns data,
    (ssr_brirs <- run;;
     ssr_brirs <- normalize ssr_brirs;;
     wavfile_write filename fs_arg (np_transpose (amap astype_float32 ssr_brirs)))
    = (calls ++ warns ++ [EvWavfileWrite filename fs_arg data],
       wavfile_outcome filename fs_arg data)
    ∧ shape data = [cols; 720]
    ∧ (warns = [] ∨ warns = [EvWarn "Normalizing BRIRs"]).
Proof.
  intros -> Hwf Hcols.
  destruct (normalize_returns (Arr2 720 cols rows)) as (warns & b' & Hn & Hs & Hw).
  { apply bank_has_sample; [exact Hwf | lia | exact Hcols]. }
  exists warns, (np_transpose (amap astype_float32 b')). split; [|split].
  - unfold bind at 1. rewrite Hn. reflexivity.
  - destruct b' as [x|v|g h rows']; try discriminate.
    injection Hs as -> ->. reflexivity.
  - exact Hw.
Qed.

(** X2: a writer called with a set at its sample rate, on a source with
    which the bank has at least one column, and whose renderer returns
    signals of the column count, reaches [wavfile.write] and ends as that
    call ends: normally when the file is written, and with the exception
    of [wavfile.write] when the destination cannot be written.  Its events
    are the 360 render calls, at most one warning, and the one call of
    [wavfile.write], under the name with the extension [.wav], at the
    sample rate given, with the normalized bank transposed: one channel
    for each of the 720 rows. *)
Theorem writers_write_one_file (filename : string) (fs_arg : Z) (hrirs : hrirs_t) :
  fs hrirs = fs_arg →
  (∀ (ls_irs : ndarray) (hull : LoudspeakerSetup) (L N : nat),
     shape ls_irs = [L; N] → 2 ≤ N + HRIRs_len hrirs →
     (∀ angle, angle < 360 →
        let irs := binauralize hull ls_irs fs_arg (np_deg2rad angle, 0%Q) hrirs in
        length irs.1 = N + HRIRs_len hrirs - 1
        ∧ length irs.2 = N + HRIRs_len hrirs - 1) →
     ∃ calls warns data,
       write_ssr_brirs_loudspeaker filename ls_irs hull fs_arg (Some hrirs)
       = (calls ++ warns ++ [EvWavfileWrite (wav_name filename) fs_arg data],
          wavfile_outcome (wav_name filename) fs_arg data)
       ∧ calls = map (λ angle, EvBinauralize hull ls_irs fs_arg
                                 (np_deg2rad angle, 0%Q) hrirs) (seq 0 360)
       ∧ (warns = [] ∨ warns = [EvWarn "Normalizing BRIRs"])
       ∧ shape data = [N + HRIRs_len hrirs - 1; 720])
  ∧ (∀ (sdm_p sdm_phi sdm_theta : list Q),
       2 ≤ length sdm_p + HRIRs_len hrirs →
       (∀ angle, angle < 360 →
          let irs := render_bsdm sdm_p
                       (map (λ x, x - np_deg2rad angle)%Q sdm_phi)
                       sdm_theta hrirs in
          length irs.1 = length sdm_p + HRIRs_len hrirs - 1
          ∧ length irs.2 = length sdm_p + HRIRs_len hrirs - 1) →
       ∃ calls warns data,
         write_ssr_brirs_sdm filename sdm_p sdm_phi sdm_theta fs_arg (Some hrirs)
         = (calls ++ warns ++ [EvWavfileWrite (wav_name filename) fs_arg data],
            wavfile_outcome (wav_name filename) fs_arg data)
         ∧ calls = map (λ angle, EvRenderBsdm sdm_p
                                   (map (λ x, x - np_deg2rad angle)%Q sdm_phi)
                                   sdm_theta hrirs) (seq 0 360)
         ∧ (warns = [] ∨ warns = [EvWarn "Normalizing BRIRs"])
         ∧ shape data = [length sdm_p + HRIRs_len hrirs - 1; 720]).
Proof.
  intros Hfs. apply Z.eqb_eq in Hfs.
  assert (Main : ∀ ev out (n : nat), 2 ≤ n →
            (∀ k, k < 360 → length (out k).1 = n - 1 ∧ length (out k).2 = n - 1) →
            ∃ rows, sweep ev out (Z.of_nat n - 1)
                    = (map ev (seq 0 360), inr (Arr2 720 (n - 1) rows))
                    ∧ wf (Arr2 720 (n - 1) rows)).
  { intros ev out n Hn Hout.
    destruct (sweep_ok ev out (Z.of_nat n - 1)) as [b Hb]; [lia| |].
    - intros k Hk. replace (Z.to_nat (Z.of_nat n - 1)) with (n - 1) by lia.
      apply Hout. exact Hk.
    - pose proof Hb as Hb'.
      apply sweep_inr in Hb' as (_ & rows & -> & Hlen & Hwf & _).
      replace (Z.to_nat (Z.of_nat n - 1)) with (n - 1) in * by lia.
      exists rows. split; [exact Hb|]. split; assumption. }
  split.
  - intros ls_irs hull L N HL Hpos Hout.
    assert (Hs : shape_at ls_irs 1 = inr N) by (apply shape_at_1_inr; eauto).
    destruct (Main
      (λ angle, EvBinauralize hull ls_irs fs_arg (np_deg2rad angle, 0%Q) hrirs)
      (λ angle, binauralize hull ls_irs fs_arg (np_deg2rad angle, 0%Q) hrirs)
      (N + HRIRs_len hrirs) Hpos Hout) as (rows & Hrun & Hwf).
    assert (Hsw : ssr_brirs_loudspeaker ls_irs hull fs_arg hrirs
                  = (map (λ angle, EvBinauralize hull ls_irs fs_arg
                                     (np_deg2rad angle, 0%Q) hrirs) (seq 0 360),
                     inr (Arr2 720 (N + HRIRs_len hrirs - 1) rows))).
    { rewrite ssr_brirs_loudspeaker_sweep, Hs, bind_lift_inr.
      rewrite <- Hrun. f_equal. lia. }
    destruct (sweep_then_write _ (wav_name filename) fs_arg _ _ _ Hsw Hwf)
      as (warns & data & Hw & Hshape & Hwarn); [lia|].
    eexists _, warns, data. split; [|split; [reflexivity|split; assumption]].
    unfold write_ssr_brirs_loudspeaker, get_hrirs.
    rewrite bind_ret_l, Hfs. unfold assert. rewrite bind_ret_l. exact Hw.
  - intros sdm_p sdm_phi sdm_theta Hpos Hout.
    destruct (Main
      (λ angle, EvRenderBsdm sdm_p
                  (map (λ x, x - np_deg2rad angle)%Q sdm_phi) sdm_theta hrirs)
      (λ angle, render_bsdm sdm_p
                  (map (λ x, x - np_deg2rad angle)%Q sdm_phi) sdm_theta hrirs)
      (length sdm_p + HRIRs_len hrirs) Hpos Hout) as (rows & Hrun & Hwf).
    assert (Hsw : ssr_brirs_sdm sdm_p sdm_phi sdm_theta hrirs
                  = (map (λ angle, EvRenderBsdm sdm_p
                                     (map (λ x, x - np_deg2rad angle)%Q sdm_phi)
                                     sdm_theta hrirs) (seq 0 360),
                     inr (Arr2 720 (length sdm_p + HRIRs_len hrirs - 1) rows))).
    { rewrite ssr_brirs_sdm_sweep. rewrite <- Hrun. f_equal. lia. }
    destruct (sweep_then_write _ (wav_name filename) fs_arg _ _ _ Hsw Hwf)
      as (warns & data & Hw & Hshape & Hwarn); [lia|].
    eexists _, warns, data. split; [|split; [reflexivity|split; assumption]].
    unfold write_ssr_brirs_sdm, get_hrirs.
    rewrite bind_ret_l, Hfs. unfold assert. rewrite bind_ret_l. exact Hw.
Qed.

(** ** The name of the file *)

Lemma string_length_app (s t : string) :
  String.length (s ++ t) = String.length s + String.length t.
Proof. induction s as [|c s IH]; simpl; [reflexivity | rewrite IH; reflexivity]. Qed.

Lemma substring_after (s t : string) (n : nat) :
  substring (String.length s) n (s ++ t) = substring 0 n t.
Proof. induction s as [|c s IH]; simpl; [reflexivity | exact IH]. Qed.

Lemma last4_app_wav (s : string) : last4 (s ++ ".wav") = ".wav"%string.
Proof.
  unfold last4. rewrite string_length_app.
  replace (String.length s + String.length ".wav" - 4) with (String.length s)
    by (simpl; lia).
  rewrite substring_after. reflexivity.
Qed.

(** X3: the name under which a writer writes ends in [.wav]: a name that
    ends in [.wav] is kept, any other name gets [.wav] appended, and the
    rule applied twice is the rule applied once. *)
Theorem wav_name_extension (filename : string) :
  last4 (wav_name filename) = ".wav"%string
  ∧ (last4 filename = ".wav"%string → wav_name filename = filename)
  ∧ (last4 filename ≠ ".wav"%string → wav_name filename = (filename ++ ".wav")%string)
  ∧ wav_name (wav_name filename) = wav_name filename.
Proof.
  assert (Keep : ∀ f, last4 f = ".wav"%string → wav_name f = f).
  { intros f E. unfold wav_name. rewrite E. reflexivity. }
  assert (Ends : last4 (wav_name filename) = ".wav"%string).
  { unfold wav_name. destruct (String.eqb (last4 filename) ".wav") eqn:E; simpl.
    - apply String.eqb_eq. exact E.
    - apply last4_app_wav. }
  repeat split.
  - exact Ends.
  - apply Keep.
  - intros N. unfold wav_name. apply String.eqb_neq in N. rewrite N. reflexivity.
  - apply Keep. exact Ends.
Qed.

(** ** The protocol of a writer *)

Lemma normalize_cases (b : ndarray) :
  (∃ e, normalize b = ([], inl e))
  ∨ (∃ warns b', normalize b = (warns, inr b')
       ∧ (warns = [] ∨ warns = [EvWarn "Normalizing BRIRs"])).
Proof.
  destruct (np_max (np_abs b)) as [e|m] eqn:H.
  - left. exists e. apply normalize_empty. exact H.
  - right. destruct (Qlt_le_dec 1 m) as [Hm|Hm].
    + eexists _, _. split; [apply (normalize_gt_1 b m H Hm)|]. right. reflexivity.
    + eexists _, _. split; [apply (normalize_le_1 b m H Hm)|]. left. reflexivity.
Qed.

Lemma get_hrirs_events (fs_arg : Z) (hrirs : option hrirs_t) :
  (get_hrirs fs_arg hrirs).1 = [].
Proof. destruct hrirs; [reflexivity|]. apply load_hrirs_events. Qed.

Lemma forallb_map_seq (ev : nat → event) (a n : nat) :
  (∀ k, is_call (ev k) = true) → forallb is_call (map ev (seq a n)) = true.
Proof.
  intros H. revert a. induction n as [|n IH]; intros a; simpl; [reflexivity|].
  rewrite H, IH. reflexivity.
Qed.

Lemma bind_nil_inr {A B} (a : A) (k : A → M B) : bind ([], inr a) k = k a.
Proof. apply (bind_ret_l a k). Qed.

Lemma pipeline_protocol (pre : M hrirs_t) (sw : hrirs_t → M ndarray)
    (ev : hrirs_t → nat → event) (filename : string) (fs_arg : Z) :
  pre.1 = [] →
  (∀ h k, is_call (ev h k) = true) →
  (∀ h t r, sw h = (t, r) →
     ∃ n, n ≤ 360 ∧ t = map (ev h) (seq 0 n) ∧ (∀ b, r = inr b → n = 360)) →
  writer_protocol filename fs_arg
    (hrirs <- pre;;
     assert (fs hrirs =? fs_arg)%Z;;
     ssr_brirs <- sw hrirs;;
     ssr_brirs <- normalize ssr_brirs;;
     wavfile_write (wav_name filename) fs_arg
       (np_transpose (amap astype_float32 ssr_brirs))).
Proof.
  intros Hpre Hev Hsw.
  assert (Early : ∀ (calls : list event) (e : exn),
            forallb is_call calls = true → length calls ≤ 360 →
            writer_protocol filename fs_arg (calls, inl e)).
  { intros calls e Hc Hl. exists calls, [], []. cbn [fst snd].
    rewrite !app_nil_r. repeat split; auto. left. eauto. }
  destruct pre as [t0 [e|h]]; simpl in Hpre; subst t0.
  { apply Early; [reflexivity | simpl; lia]. }
  rewrite bind_nil_inr.
  destruct (fs h =? fs_arg)%Z.
  2:{ apply Early; [reflexivity | simpl; lia]. }
  unfold assert. rewrite bind_ret_l.
  destruct (sw h) as [t r] eqn:Esw.
  destruct (Hsw h t r Esw) as (n & Hn & -> & Hr).
  assert (Hcalls : forallb is_call (map (ev h) (seq 0 n)) = true)
    by (apply forallb_map_seq; apply Hev).
  assert (Hlen : length (map (ev h) (seq 0 n)) = n)
    by (rewrite length_map, length_seq; reflexivity).
  destruct r as [e|b].
  { apply Early; [exact Hcalls | lia]. }
  specialize (Hr b eq_refl). subst n.
  unfold bind at 1.
  destruct (normalize_cases b) as [[e He]|(warns & b' & Hb & Hw)].
  - rewrite He. simpl bind. cbn [fst snd]. rewrite app_nil_r.
    apply Early; [exact Hcalls | lia].
  - rewrite Hb. unfold bind. rewrite wavfile_write_run. cbn [fst snd].
    exists (map (ev h) (seq 0 360)), warns,
      [EvWavfileWrite (wav_name filename) fs_arg
         (np_transpose (amap astype_float32 b'))].
    cbn [fst snd]. repeat split; auto; try lia. right. split; [exact Hlen|].
    eauto.
Qed.

(** X4: every run of either writer, whatever its arguments and however it
    ends, keeps to one protocol.  Its events are render calls, at most 360
    of them, then at most the one warning of the normalizer, then at most
    one call of [wavfile.write].  Either the run ends with an exception
    without a warning and without a call of [wavfile.write]; or it has
    made all 360 render calls and calls [wavfile.write] once, under the
    name with the extension [.wav] and at the rate it was called with, and
    ends as that call ends: normally when the file is written, with the
    exception of [wavfile.write] otherwise, which then comes after the
    warning, if one was given. *)
Theorem writers_protocol :
  (∀ filename ls_irs hull fs_arg hrirs,
     writer_protocol filename fs_arg
       (write_ssr_brirs_loudspeaker filename ls_irs hull fs_arg hrirs))
  ∧ (∀ filename sdm_p sdm_phi sdm_theta fs_arg hrirs,
       writer_protocol filename fs_arg
         (write_ssr_brirs_sdm filename sdm_p sdm_phi sdm_theta fs_arg hrirs)).
Proof.
  split.
  - intros filename ls_irs hull fs_arg hrirs.
    apply (pipeline_protocol (get_hrirs fs_arg hrirs)
             (ssr_brirs_loudspeaker ls_irs hull fs_arg)
             (λ h angle, EvBinauralize hull ls_irs fs_arg (np_deg2rad angle, 0%Q) h)).
    + apply get_hrirs_events.
    + reflexivity.
    + intros h t r. rewrite ssr_brirs_loudspeaker_sweep.
      destruct (shape_at ls_irs 1) as [e|s].
      * intros [= <- <-]. exists 0. repeat split; [lia|discriminate].
      * rewrite bind_lift_inr. apply sweep_trace.
  - intros filename sdm_p sdm_phi sdm_theta fs_arg hrirs.
    apply (pipeline_protocol (get_hrirs fs_arg hrirs)
             (ssr_brirs_sdm sdm_p sdm_phi sdm_theta)
             (λ h angle, EvRenderBsdm sdm_p
                           (map (λ x, x - np_deg2rad angle)%Q sdm_phi) sdm_theta h)).
    + apply get_hrirs_events.
    + reflexivity.
    + intros h t r. rewrite ssr_brirs_sdm_sweep. apply sweep_trace.
Qed.


(** ** Sweeps that fail, and degenerate banks *)

Lemma fit_is_Some (h : nat) (v : list Q) : is_Some (fit h v) ↔ storable h v.
Proof.
  unfold fit, storable. destruct (length v =? h) eqn:E.
  - apply Nat.eqb_eq in E. split; [auto | eauto].
  - apply Nat.eqb_neq in E. destruct v as [|x [|y v]]; simpl in *.
    + split; [intros [? ?]; discriminate | intros [?|?]; [lia|discriminate]].
    + split; [auto | eauto].
    + split; [intros [? ?]; discriminate | intros [?|?]; [lia|discriminate]].
Qed.

Lemma fit_None (h : nat) (v : list Q) : fit h v = None ↔ ¬ storable h v.
Proof.
  rewrite <- fit_is_Some. destruct (fit h v) as [l|].
  - split; [discriminate | intros H; exfalso; apply H; eauto].
  - split; [intros _ [? ?]; discriminate | reflexivity].
Qed.

Lemma setitem_row_refused (g h : nat) (rows : list (list Q)) (i : nat)
    (v : list Q) :
  i < g → fit h v = None →
  setitem_row (Arr2 g h rows) i v
  = inl (ValueError "could not broadcast input array").
Proof.
  intros Hi. unfold setitem_row, fit.
  apply Nat.ltb_lt in Hi. rewrite Hi. cbn [negb].
  destruct (length v =? h); [discriminate|].
  destruct v as [|x [|y v]]; [reflexivity|discriminate|reflexivity].
Qed.

Section SweepFails.
Variable ev : nat → event.
Variable out : nat → list Q * list Q.

Lemma sweep_step_refused (angle g h : nat) (rows : list (list Q)) :
  2 * angle + 1 < g →
  ¬ (storable h (out angle).1 ∧ storable h (out angle).2) →
  sweep_step ev out angle (Arr2 g h rows)
  = ([ev angle], inl (ValueError "could not broadcast input array")).
Proof.
  intros L N. rewrite sweep_step_unfold. f_equal.
  destruct (fit h (out angle).1) as [l|] eqn:Fl.
  - assert (E1 : setitem_row (Arr2 g h rows) (2 * angle) (out angle).1
                 = inr (Arr2 g h (<[2 * angle:=l]> rows))).
    { apply setitem_row_inr. split; [lia|]. eauto. }
    rewrite E1. apply setitem_row_refused; [lia|].
    apply fit_None. intros S2. apply N. split; [|exact S2].
    apply fit_is_Some. eauto.
  - rewrite setitem_row_refused; [reflexivity|lia|exact Fl].
Qed.

(** The loop stops at the first orientation whose signals cannot be
    stored, after the call for it. *)
Lemma sweep_loop_refused (n : nat) :
  ∀ (a k g h : nat) (rows : list (list Q)),
    a ≤ k < a + n → 2 * (a + n) ≤ g →
    (∀ j, a ≤ j < k → storable h (out j).1 ∧ storable h (out j).2) →
    ¬ (storable h (out k).1 ∧ storable h (out k).2) →
    for_each (sweep_step ev out) (seq a n) (Arr2 g h rows)
    = (map ev (seq a (S (k - a))),
       inl (ValueError "could not broadcast input array")).
Proof.
  induction n as [|n IH]; intros a k g h rows Hk Hg Hbefore Hat; [lia|].
  simpl seq. rewrite for_each_cons.
  destruct (decide (k = a)) as [->|Hne].
  - rewrite sweep_step_refused by (assumption || lia).
    replace (a - a) with 0 by lia. reflexivity.
  - destruct (Hbefore a) as [Sl Sr]; [lia|].
    apply fit_is_Some in Sl as [l Hl]. apply fit_is_Some in Sr as [r Hr].
    rewrite (sweep_step_ok ev out a g h rows l r) by (assumption || lia).
    replace (k - a) with (S (k - S a)) by lia.
    unfold bind. rewrite (IH (S a) k) by (try assumption; try lia;
      intros j Hj; apply Hbefore; lia).
    reflexivity.
Qed.

Lemma sweep_refused (cols : Z) (k : nat) :
  (0 ≤ cols)%Z → k < 360 →
  (∀ j, j < k → storable (Z.to_nat cols) (out j).1
                ∧ storable (Z.to_nat cols) (out j).2) →
  ¬ (storable (Z.to_nat cols) (out k).1 ∧ storable (Z.to_nat cols) (out k).2) →
  sweep ev out cols
  = (map ev (seq 0 (S k)), inl (ValueError "could not broadcast input array")).
Proof.
  intros Hc Hk Hbefore Hat. unfold sweep.
  assert (Z0 : np_zeros 720 cols
               = inr (Arr2 720 (Z.to_nat cols)
                        (replicate 720 (replicate (Z.to_nat cols) 0%Q))))
    by (apply np_zeros_inr; auto).
  rewrite Z0, bind_lift_inr.
  rewrite (sweep_loop_refused 360 0 k) by (try assumption; try lia;
    intros j Hj; apply Hbefore; lia).
  replace (k - 0) with k by lia. reflexivity.
Qed.

(** A sweep whose signals can all be stored returns a bank. *)
Lemma sweep_storable (cols : Z) :
  (0 ≤ cols)%Z →
  (∀ k, k < 360 → storable (Z.to_nat cols) (out k).1
                  ∧ storable (Z.to_nat cols) (out k).2) →
  ∃ rows, sweep ev out cols
          = (map ev (seq 0 360), inr (Arr2 720 (Z.to_nat cols) rows))
    ∧ wf (Arr2 720 (Z.to_nat cols) rows).
Proof.
  intros Hc Hout. unfold sweep.
  assert (Z0 : np_zeros 720 cols
               = inr (Arr2 720 (Z.to_nat cols)
                        (replicate 720 (replicate (Z.to_nat cols) 0%Q))))
    by (apply np_zeros_inr; auto).
  rewrite Z0, bind_lift_inr.
  destruct (sweep_loop_ok ev out 360 0 720 (Z.to_nat cols)
              (replicate 720 (replicate (Z.to_nat cols) 0%Q))) as [b Hb]; [lia| |].
  - intros k Hk. destruct (Hout k) as [Sl Sr]; [lia|].
    split; apply fit_is_Some; assumption.
  - pose proof Hb as Hb'.
    apply sweep_loop_inr in Hb' as (rows & -> & Hlen & Hwf & _);
      [|apply length_replicate].
    exists rows. split; [exact Hb|]. split; [exact Hlen|].
    apply Hwf. apply Forall_replicate. apply length_replicate.
Qed.

End SweepFails.
Lemma fit_one_sample (h : nat) (x : Q) : fit h [x] = Some (replicate h x).
Proof.
  unfold fit. simpl length. destruct (1 =? h) eqn:E; [|reflexivity].
  apply Nat.eqb_eq in E. subst h. reflexivity.
Qed.

Lemma writer_some_hrirs_loudspeaker (filename : string) (ls_irs : ndarray)
    (hull : LoudspeakerSetup) (fs_arg : Z) (hrirs : hrirs_t) :
  fs hrirs = fs_arg →
  write_ssr_brirs_loudspeaker filename ls_irs hull fs_arg (Some hrirs)
  = (ssr_brirs <- ssr_brirs_loudspeaker ls_irs hull fs_arg hrirs;;
     ssr_brirs <- normalize ssr_brirs;;
     wavfile_write (wav_name filename) fs_arg
       (np_transpose (amap astype_float32 ssr_brirs))).
Proof.
  intros Hfs. apply Z.eqb_eq in Hfs.
  unfold write_ssr_brirs_loudspeaker, get_hrirs.
  rewrite bind_ret_l, Hfs. unfold assert. rewrite bind_ret_l. reflexivity.
Qed.

Lemma writer_some_hrirs_sdm (filename : string)
    (sdm_p sdm_phi sdm_theta : list Q) (fs_arg : Z) (hrirs : hrirs_t) :
  fs hrirs = fs_arg →
  write_ssr_brirs_sdm filename sdm_p sdm_phi sdm_theta fs_arg (Some hrirs)
  = (ssr_brirs <- ssr_brirs_sdm sdm_p sdm_phi sdm_theta hrirs;;
     ssr_brirs <- normalize ssr_brirs;;
     wavfile_write (wav_name filename) fs_arg
       (np_transpose (amap astype_float32 ssr_brirs))).
Proof.
  intros Hfs. apply Z.eqb_eq in Hfs.
  unfold write_ssr_brirs_sdm, get_hrirs.
  rewrite bind_ret_l, Hfs. unfold assert. rewrite bind_ret_l. reflexivity.
Qed.

(** X5: inputs on which a writer fails before it renders anything.  The
    array writer raises [IndexError] on loudspeaker responses that are not
    two-dimensional, which have no [shape[1]].  Either writer raises
    [ValueError] when the source and the set both have length 0, the
    column count being then -1. *)
Theorem writers_fail_before_rendering (filename : string) (fs_arg : Z)
    (hrirs : hrirs_t) :
  fs hrirs = fs_arg →
  (∀ (ls_irs : ndarray) (hull : LoudspeakerSetup),
     (∀ L N, shape ls_irs ≠ [L; N]) →
     write_ssr_brirs_loudspeaker filename ls_irs hull fs_arg (Some hrirs)
     = ([], inl (IndexError "tuple index out of range")))
  ∧ (∀ (ls_irs : ndarray) (hull : LoudspeakerSetup) (L : nat),
       shape ls_irs = [L; 0] → HRIRs_len hrirs = 0 →
       write_ssr_brirs_loudspeaker filename ls_irs hull fs_arg (Some hrirs)
       = ([], inl (ValueError "negative dimensions are not allowed")))
  ∧ (∀ (sdm_phi sdm_theta : list Q),
       HRIRs_len hrirs = 0 →
       write_ssr_brirs_sdm filename [] sdm_phi sdm_theta fs_arg (Some hrirs)
       = ([], inl (ValueError "negative dimensions are not allowed"))).
Proof.
  intros Hfs. split; [|split].
  - intros ls_irs hull Hshape.
    rewrite writer_some_hrirs_loudspeaker by exact Hfs.
    rewrite ssr_brirs_loudspeaker_sweep.
    destruct ls_irs as [x|v|g h rows]; [reflexivity|reflexivity|].
    exfalso. apply (Hshape g h). reflexivity.
  - intros ls_irs hull L HL Hlen.
    rewrite writer_some_hrirs_loudspeaker by exact Hfs.
    rewrite ssr_brirs_loudspeaker_sweep.
    assert (Hs : shape_at ls_irs 1 = inr 0) by (apply shape_at_1_inr; eauto).
    rewrite Hs, bind_lift_inr, Hlen. reflexivity.
  - intros sdm_phi sdm_theta Hlen.
    rewrite writer_some_hrirs_sdm by exact Hfs.
    rewrite ssr_brirs_sdm_sweep, Hlen. reflexivity.
Qed.

Lemma concat_empty_rows (rows : list (list Q)) :
  Forall (λ r, length r = 0) rows → concat rows = [].
Proof.
  induction 1 as [|r rows Hr _ IH]; simpl; [reflexivity|].
  destruct r; [exact IH|discriminate].
Qed.

(** After a sweep over a bank without columns: the maximum refuses it. *)
Lemma zero_columns_refused (run : M ndarray) (filename : string) (fs_arg : Z)
    (calls : list event) (rows : list (list Q)) :
  run = (calls, inr (Arr2 720 0 rows)) → wf (Arr2 720 0 rows) →
  (ssr_brirs <- run;;
   ssr_brirs <- normalize ssr_brirs;;
   wavfile_write filename fs_arg (np_transpose (amap astype_float32 ssr_brirs)))
  = (calls,
     inl (ValueError
            "zero-size array to reduction operation maximum which has no identity")).
Proof.
  intros -> [_ Hall]. unfold bind at 1.
  rewrite (normalize_empty (Arr2 720 0 rows)
             (ValueError
                "zero-size array to reduction operation maximum which has no identity")).
  - simpl. rewrite app_nil_r. reflexivity.
  - unfold np_max, np_abs. rewrite elems_amap. simpl elems.
    rewrite (concat_empty_rows rows Hall). reflexivity.
Qed.

(** X6: when the lengths of the source and of the set add up to 1, the
    bank has no column.  A renderer whose signals such rows can store is
    called for all 360 orientations; then the maximum of the empty bank
    raises [ValueError], and no file is written. *)
Theorem writers_zero_columns (filename : string) (fs_arg : Z) (hrirs : hrirs_t) :
  fs hrirs = fs_arg →
  (∀ (ls_irs : ndarray) (hull : LoudspeakerSetup) (L N : nat),
     shape ls_irs = [L; N] → N + HRIRs_len hrirs = 1 →
     (∀ angle, angle < 360 →
        let irs := binauralize hull ls_irs fs_arg (np_deg2rad angle, 0%Q) hrirs in
        storable 0 irs.1 ∧ storable 0 irs.2) →
     write_ssr_brirs_loudspeaker filename ls_irs hull fs_arg (Some hrirs)
     = (map (λ angle, EvBinauralize hull ls_irs fs_arg
                        (np_deg2rad angle, 0%Q) hrirs) (seq 0 360),
        inl (ValueError
               "zero-size array to reduction operation maximum which has no identity")))
  ∧ (∀ (sdm_p sdm_phi sdm_theta : list Q),
       length sdm_p + HRIRs_len hrirs = 1 →
       (∀ angle, angle < 360 →
          let irs := render_bsdm sdm_p
                       (map (λ x, x - np_deg2rad angle)%Q sdm_phi)
                       sdm_theta hrirs in
          storable 0 irs.1 ∧ storable 0 irs.2) →
       write_ssr_brirs_sdm filename sdm_p sdm_phi sdm_theta fs_arg (Some hrirs)
       = (map (λ angle, EvRenderBsdm sdm_p
                          (map (λ x, x - np_deg2rad angle)%Q sdm_phi)
                          sdm_theta hrirs) (seq 0 360),
          inl (ValueError
                 "zero-size array to reduction operation maximum which has no identity"))).
Proof.
  intros Hfs. split.
  - intros ls_irs hull L N HL Hone Hout.
    rewrite writer_some_hrirs_loudspeaker by exact Hfs.
    assert (Hs : shape_at ls_irs 1 = inr N) by (apply shape_at_1_inr; eauto).
    destruct (sweep_storable
      (λ angle, EvBinauralize hull ls_irs fs_arg (np_deg2rad angle, 0%Q) hrirs)
      (λ angle, binauralize hull ls_irs fs_arg (np_deg2rad angle, 0%Q) hrirs)
      (Z.of_nat N + Z.of_nat (HRIRs_len hrirs) - 1)) as (rows & Hrun & Hwf);
      [lia| |].
    { intros k Hk.
      replace (Z.to_nat (Z.of_nat N + Z.of_nat (HRIRs_len hrirs) - 1)) with 0
        by lia.
      apply (Hout k Hk). }
    replace (Z.to_nat (Z.of_nat N + Z.of_nat (HRIRs_len hrirs) - 1)) with 0
      in * by lia.
    apply (zero_columns_refused _ _ _ _ rows); [|exact Hwf].
    rewrite ssr_brirs_loudspeaker_sweep, Hs, bind_lift_inr. exact Hrun.
  - intros sdm_p sdm_phi sdm_theta Hone Hout.
    rewrite writer_some_hrirs_sdm by exact Hfs.
    destruct (sweep_storable
      (λ angle, EvRenderBsdm sdm_p
                  (map (λ x, x - np_deg2rad angle)%Q sdm_phi) sdm_theta hrirs)
      (λ angle, render_bsdm sdm_p
                  (map (λ x, x - np_deg2rad angle)%Q sdm_phi) sdm_theta hrirs)
      (Z.of_nat (length sdm_p) + Z.of_nat (HRIRs_len hrirs) - 1))
      as (rows & Hrun & Hwf); [lia| |].
    { intros k Hk.
      replace (Z.to_nat (Z.of_nat (length sdm_p)
                         + Z.of_nat (HRIRs_len hrirs) - 1)) with 0 by lia.
      apply (Hout k Hk). }
    replace (Z.to_nat (Z.of_nat (length sdm_p)
                       + Z.of_nat (HRIRs_len hrirs) - 1)) with 0 in * by lia.
    apply (zero_columns_refused _ _ _ _ rows); [|exact Hwf].
    rewrite ssr_brirs_sdm_sweep. exact Hrun.
Qed.

(** X7: a writer stops at the first orientation [k] for which a signal
    of the renderer has neither the length of a row nor length 1: after
    the calls for the orientations 0 to [k], it raises the [ValueError]
    of the row assignment; it gives no warning and writes no file. *)
Theorem writers_refuse_wrong_length (filename : string) (fs_arg : Z)
    (hrirs : hrirs_t) (k : nat) :
  fs hrirs = fs_arg → k < 360 →
  (∀ (ls_irs : ndarray) (hull : LoudspeakerSetup) (L N : nat),
     shape ls_irs = [L; N] → 1 ≤ N + HRIRs_len hrirs →
     (∀ j, j < k →
        let irs := binauralize hull ls_irs fs_arg (np_deg2rad j, 0%Q) hrirs in
        storable (N + HRIRs_len hrirs - 1) irs.1
        ∧ storable (N + HRIRs_len hrirs - 1) irs.2) →
     (let irs := binauralize hull ls_irs fs_arg (np_deg2rad k, 0%Q) hrirs in
      ¬ (storable (N + HRIRs_len hrirs - 1) irs.1
         ∧ storable (N + HRIRs_len hrirs - 1) irs.2)) →
     write_ssr_brirs_loudspeaker filename ls_irs hull fs_arg (Some hrirs)
     = (map (λ angle, EvBinauralize hull ls_irs fs_arg
                        (np_deg2rad angle, 0%Q) hrirs) (seq 0 (S k)),
        inl (ValueError "could not broadcast input array")))
  ∧ (∀ (sdm_p sdm_phi sdm_theta : list Q),
       1 ≤ length sdm_p + HRIRs_len hrirs →
       (∀ j, j < k →
          let irs := render_bsdm sdm_p (map (λ x, x - np_deg2rad j)%Q sdm_phi)
                       sdm_theta hrirs in
          storable (length sdm_p + HRIRs_len hrirs - 1) irs.1
          ∧ storable (length sdm_p + HRIRs_len hrirs - 1) irs.2) →
       (let irs := render_bsdm sdm_p (map (λ x, x - np_deg2rad k)%Q sdm_phi)
                     sdm_theta hrirs in
        ¬ (storable (length sdm_p + HRIRs_len hrirs - 1) irs.1
           ∧ storable (length sdm_p + HRIRs_len hrirs - 1) irs.2)) →
       write_ssr_brirs_sdm filename sdm_p sdm_phi sdm_theta fs_arg (Some hrirs)
       = (map (λ angle, EvRenderBsdm sdm_p
                          (map (λ x, x - np_deg2rad angle)%Q sdm_phi)
                          sdm_theta hrirs) (seq 0 (S k)),
          inl (ValueError "could not broadcast input array"))).
Proof.
  intros Hfs Hk. split.
  - intros ls_irs hull L N HL Hpos Hbefore Hat.
    rewrite writer_some_hrirs_loudspeaker by exact Hfs.
    assert (Hs : shape_at ls_irs 1 = inr N) by (apply shape_at_1_inr; eauto).
    rewrite ssr_brirs_loudspeaker_sweep, Hs, bind_lift_inr.
    rewrite (sweep_refused _ _ _ k); [reflexivity|lia|exact Hk| |].
    + intros j Hj.
      replace (Z.to_nat (Z.of_nat N + Z.of_nat (HRIRs_len hrirs) - 1))
        with (N + HRIRs_len hrirs - 1) by lia.
      apply (Hbefore j Hj).
    + replace (Z.to_nat (Z.of_nat N + Z.of_nat (HRIRs_len hrirs) - 1))
        with (N + HRIRs_len hrirs - 1) by lia.
      exact Hat.
  - intros sdm_p sdm_phi sdm_theta Hpos Hbefore Hat.
    rewrite writer_some_hrirs_sdm by exact Hfs.
    rewrite ssr_brirs_sdm_sweep.
    rewrite (sweep_refused _ _ _ k); [reflexivity|lia|exact Hk| |].
    + intros j Hj.
      replace (Z.to_nat (Z.of_nat (length sdm_p)
                         + Z.of_nat (HRIRs_len hrirs) - 1))
        with (length sdm_p + HRIRs_len hrirs - 1) by lia.
      apply (Hbefore j Hj).
    + replace (Z.to_nat (Z.of_nat (length sdm_p)
                         + Z.of_nat (HRIRs_len hrirs) - 1))
        with (length sdm_p + HRIRs_len hrirs - 1) by lia.
      exact Hat.
Qed.

(** X8: a signal of a single sample is not refused: the row assignment
    broadcasts it, and the row of the bank holds that sample in every
    column. *)
Theorem one_sample_broadcast :
  (∀ (ls_irs : ndarray) (hull : LoudspeakerSetup) (fs : Z) (hrirs : hrirs_t)
     (t : list event) (g h : nat) (rows : list (list Q)) (k : nat)
     (ir_l ir_r : list Q),
     ssr_brirs_loudspeaker ls_irs hull fs hrirs = (t, inr (Arr2 g h rows)) →
     k < 360 →
     binauralize hull ls_irs fs (np_deg2rad k, 0%Q) hrirs = (ir_l, ir_r) →
     (∀ x, ir_l = [x] → rows !! (2 * k) = Some (replicate h x))
     ∧ (∀ y, ir_r = [y] → rows !! (2 * k + 1) = Some (replicate h y)))
  ∧ (∀ (sdm_p sdm_phi sdm_theta : list Q) (hrirs : hrirs_t)
       (t : list event) (g h : nat) (rows : list (list Q)) (k : nat)
       (ir_l ir_r : list Q),
       ssr_brirs_sdm sdm_p sdm_phi sdm_theta hrirs = (t, inr (Arr2 g h rows)) →
       k < 360 →
       render_bsdm sdm_p (map (λ x, x - np_deg2rad k)%Q sdm_phi) sdm_theta hrirs
         = (ir_l, ir_r) →
       (∀ x, ir_l = [x] → rows !! (2 * k) = Some (replicate h x))
       ∧ (∀ y, ir_r = [y] → rows !! (2 * k + 1) = Some (replicate h y))).
Proof.
  assert (Main : ∀ ev out cols t g h rows k ir_l ir_r,
            sweep ev out cols = (t, inr (Arr2 g h rows)) → k < 360 →
            out k = (ir_l, ir_r) →
            (∀ x, ir_l = [x] → rows !! (2 * k) = Some (replicate h x))
            ∧ (∀ y, ir_r = [y] → rows !! (2 * k + 1) = Some (replicate h y))).
  { intros ev out cols t g h rows k ir_l ir_r H Hk Hout.
    apply sweep_inr in H as (Hc & rows' & E & _ & _ & Hrows).
    injection E as -> -> ->.
    destruct (Hrows k Hk) as (l & r & Fl & Fr & Rl & Rr).
    rewrite Hout in Fl, Fr. simpl in Fl, Fr. split.
    - intros x ->. rewrite fit_one_sample in Fl. injection Fl as <-. exact Rl.
    - intros y ->. rewrite fit_one_sample in Fr. injection Fr as <-. exact Rr. }
  split.
  - intros ls_irs hull fs0 hrirs t g h rows k ir_l ir_r H.
    rewrite ssr_brirs_loudspeaker_sweep in H.
    apply bind_inr in H as (t1 & N & t2 & Hs & H & ->).
    intros Hk Hout. eapply (Main _ _ _ _ _ _ _ _ _ _ H Hk Hout).
  - intros sdm_p sdm_phi sdm_theta hrirs t g h rows k ir_l ir_r H.
    rewrite ssr_brirs_sdm_sweep in H.
    intros Hk Hout. eapply (Main _ _ _ _ _ _ _ _ _ _ H Hk Hout).
Qed.

(** A set that [load_hrirs] returns is at the rate asked for. *)
Lemma load_hrirs_rate (fs_arg : Z) (filename : option string) (dummy : bool)
    (t : list event) (H : hrirs_t) :
  load_hrirs fs_arg filename dummy = (t, inr H) → fs H = fs_arg.
Proof.
  destruct (hrirs_filename_cases fs_arg filename) as [[f Hf]|[Hf Hall]].
  2:{ rewrite Hall. discriminate. }
  rewrite (load_hrirs_resolved _ _ _ f Hf), load_hrirs_Some.
  destruct (loadmat f) as [m|] eqn:Hm; [|discriminate].
  destruct dummy.
  - rewrite from_mat_dummy.
    destruct (pd_DataFrame _ _) as [e|g]; [discriminate|].
    destruct (diracs (np_squeeze (mat_hrir_l m))).2 as [el|l]; [discriminate|].
    destruct (diracs (np_squeeze (mat_hrir_r m))).2 as [er|r]; [discriminate|].
    destruct (_ && _)%bool eqn:Hc; [|discriminate].
    apply andb_true_iff in Hc as [Hinv Hfs].
    intros [= _ <-]. apply Z.eqb_eq. exact Hfs.
  - rewrite from_mat_plain.
    destruct (pd_DataFrame _ _) as [e|g]; [discriminate|].
    destruct (_ && _)%bool eqn:Hc; [|discriminate].
    apply andb_true_iff in Hc as [Hinv Hfs].
    intros [= _ <-]. apply Z.eqb_eq. exact Hfs.
Qed.

(** X9: a writer called without a set loads the default set for its
    rate.  When that fails, the writer fails with the same exception, and
    has rendered nothing.  When it returns a set, the writer goes on as if
    called with that set, whose rate is the rate of the writer: the rate
    assertion of the writer cannot fail after a default load. *)
Theorem writers_default_hrirs (filename : string) (fs_arg : Z) :
  (∀ e, load_hrirs fs_arg None false = ([], inl e) →
     (∀ ls_irs hull,
        write_ssr_brirs_loudspeaker filename ls_irs hull fs_arg None
        = ([], inl e))
     ∧ (∀ sdm_p sdm_phi sdm_theta,
          write_ssr_brirs_sdm filename sdm_p sdm_phi sdm_theta fs_arg None
          = ([], inl e)))
  ∧ (∀ hrirs, load_hrirs fs_arg None false = ([], inr hrirs) →
       fs hrirs = fs_arg
       ∧ (∀ ls_irs hull,
            write_ssr_brirs_loudspeaker filename ls_irs hull fs_arg None
            = write_ssr_brirs_loudspeaker filename ls_irs hull fs_arg
                (Some hrirs))
       ∧ (∀ sdm_p sdm_phi sdm_theta,
            write_ssr_brirs_sdm filename sdm_p sdm_phi sdm_theta fs_arg None
            = write_ssr_brirs_sdm filename sdm_p sdm_phi sdm_theta fs_arg
                (Some hrirs)))
  ∧ (load_hrirs fs_arg None false).1 = [].
Proof.
  split; [|split].
  - intros e E. split; intros;
      unfold write_ssr_brirs_loudspeaker, write_ssr_brirs_sdm, get_hrirs;
      rewrite E; reflexivity.
  - intros hrirs E. split; [exact (load_hrirs_rate _ _ _ _ _ E)|].
    split; intros;
      unfold write_ssr_brirs_loudspeaker, write_ssr_brirs_sdm, get_hrirs;
      rewrite E; reflexivity.
  - apply load_hrirs_events.
Qed.

(** ** The channels of the file *)

Lemma nth_map_lt (f : Q → Q) (l : list Q) (i : nat) (d d' : Q) :
  i < length l → nth i (map f l) d = f (nth i l d').
Proof.
  intros Hi. rewrite (nth_indep (map f l) d (f d')) by (rewrite length_map; exact Hi).
  apply map_nth.
Qed.

(** The sample [i] of the row [c] of a bank is the sample [c] of the row
    [i] of its transpose. *)
Lemma transpose_lookup (g h : nat) (rows : list (list Q)) (i c : nat) (r : list Q) :
  i < h → rows !! c = Some r →
  ∃ frame,
    (map (λ j, map (λ r, nth j r 0%Q) rows) (seq 0 h)) !! i = Some frame
    ∧ length frame = length rows
    ∧ frame !! c = Some (nth i r 0%Q).
Proof.
  intros Hi Hr. exists (map (λ r, nth i r 0%Q) rows). split; [|split].
  - rewrite list_lookup_fmap, lookup_seq_lt by exact Hi. reflexivity.
  - apply length_map.
  - rewrite list_lookup_fmap, Hr. reflexivity.
Qed.

(** After a sweep that stored the signals [out k] as they are: what the
    writer then writes. *)
Lemma written_layout (run : M ndarray) (out : nat → list Q * list Q)
    (filename : string) (fs_arg : Z) (calls : list event) (cols : nat)
    (rows : list (list Q)) :
  run = (calls, inr (Arr2 720 cols rows)) → wf (Arr2 720 cols rows) → 0 < cols →
  (∀ k, k < 360 → rows !! (2 * k) = Some (out k).1
                  ∧ rows !! (2 * k + 1) = Some (out k).2) →
  ∃ warns frames scale,
    (ssr_brirs <- run;;
     ssr_brirs <- normalize ssr_brirs;;
     wavfile_write filename fs_arg (np_transpose (amap astype_float32 ssr_brirs)))
    = (calls ++ warns ++ [EvWavfileWrite filename fs_arg (Arr2 cols 720 frames)],
       wavfile_outcome filename fs_arg (Arr2 cols 720 frames))
    ∧ length frames = cols
    ∧ (((∀ x, scale x = x) ∧ warns = [])
       ∨ (∃ m, (1 < m)%Q ∧ (∀ x, scale x = (x / m)%Q)
               ∧ warns = [EvWarn "Normalizing BRIRs"]))
    ∧ ∀ i k, i < cols → k < 360 →
        ∃ frame, frames !! i = Some frame ∧ length frame = 720
          ∧ frame !! (2 * k) = Some (astype_float32 (scale (nth i (out k).1 0%Q)))
          ∧ frame !! (2 * k + 1)
            = Some (astype_float32 (scale (nth i (out k).2 0%Q))).
Proof.
  intros -> Hwf Hcols Hrows. pose proof Hwf as [Hlen Hall].
  assert (Scaled : ∃ warns scale,
            normalize (Arr2 720 cols rows)
            = (warns, inr (Arr2 720 cols (map (map scale) rows)))
            ∧ (((∀ x, scale x = x) ∧ warns = [])
               ∨ (∃ m, (1 < m)%Q ∧ (∀ x, scale x = (x / m)%Q)
                       ∧ warns = [EvWarn "Normalizing BRIRs"]))).
  { destruct (np_max_nonempty (np_abs (Arr2 720 cols rows))) as [m H].
    { unfold np_abs. rewrite elems_amap.
      pose proof (bank_has_sample 720 cols rows Hwf ltac:(lia) Hcols) as Hne.
      destruct (elems (Arr2 720 cols rows)); [congruence|discriminate]. }
    destruct (Qlt_le_dec 1 m) as [Hm|Hm].
    - exists [EvWarn "Normalizing BRIRs"], (λ x, x / m)%Q. split.
      + apply (normalize_gt_1 _ m H Hm).
      + right. exists m. auto.
    - exists [], (λ x, x). split.
      + rewrite (normalize_le_1 _ m H Hm). do 3 f_equal.
        symmetry. rewrite <- (map_id rows) at 2. apply map_ext.
        intros r. apply map_id.
      + left. auto. }
  destruct Scaled as (warns & scale & Hn & Hscale).
  exists warns,
    (map (λ j, map (λ r, nth j r 0%Q)
                 (map (map astype_float32) (map (map scale) rows)))
         (seq 0 cols)), scale.
  split; [|split; [|split]].
  - unfold bind at 1. rewrite Hn. reflexivity.
  - rewrite length_map, length_seq. reflexivity.
  - exact Hscale.
  - intros i k Hi Hk. destruct (Hrows k Hk) as [Rl Rr].
    assert (Look : ∀ c r, rows !! c = Some r →
              map (map astype_float32) (map (map scale) rows) !! c
              = Some (map astype_float32 (map scale r))).
    { intros c r Hr. rewrite !list_lookup_fmap, Hr. reflexivity. }
    assert (Len : ∀ c r, rows !! c = Some r → length r = cols).
    { intros c r Hr. rewrite Forall_forall in Hall. apply Hall.
      eapply list_elem_of_lookup_2. exact Hr. }
    destruct (transpose_lookup 720 cols _ i (2 * k) _ Hi (Look _ _ Rl))
      as (frame & Hf & Hlf & Hl).
    destruct (transpose_lookup 720 cols _ i (2 * k + 1) _ Hi (Look _ _ Rr))
      as (frame' & Hf' & _ & Hr).
    rewrite Hf in Hf'. injection Hf' as <-.
    exists frame. split; [exact Hf|]. split.
    + rewrite Hlf, !length_map. exact Hlen.
    + split.
      * rewrite Hl. f_equal.
        rewrite (nth_map_lt astype_float32 _ i 0%Q 0%Q)
          by (rewrite length_map, (Len _ _ Rl); exact Hi).
        f_equal. apply nth_map_lt. rewrite (Len _ _ Rl). exact Hi.
      * rewrite Hr. f_equal.
        rewrite (nth_map_lt astype_float32 _ i 0%Q 0%Q)
          by (rewrite length_map, (Len _ _ Rr); exact Hi).
        f_equal. apply nth_map_lt. rewrite (Len _ _ Rr). exact Hi.
Qed.

(** A sweep whose renderer returns signals of the column count: its calls
    and its rows. *)
Lemma sweep_exact (ev : nat → event) (out : nat → list Q * list Q) (n : nat) :
  2 ≤ n →
  (∀ k, k < 360 → length (out k).1 = n - 1 ∧ length (out k).2 = n - 1) →
  ∃ rows, sweep ev out (Z.of_nat n - 1)
          = (map ev (seq 0 360), inr (Arr2 720 (n - 1) rows))
    ∧ wf (Arr2 720 (n - 1) rows)
    ∧ ∀ k, k < 360 → rows !! (2 * k) = Some (out k).1
                     ∧ rows !! (2 * k + 1) = Some (out k).2.
Proof.
  intros Hn Hout.
  destruct (sweep_ok ev out (Z.of_nat n - 1)) as [b Hb]; [lia| |].
  - intros k Hk. replace (Z.to_nat (Z.of_nat n - 1)) with (n - 1) by lia.
    apply Hout. exact Hk.
  - pose proof Hb as Hb'.
    apply sweep_inr in Hb' as (_ & rows & -> & Hlen & Hwf & Hrows).
    replace (Z.to_nat (Z.of_nat n - 1)) with (n - 1) in * by lia.
    exists rows. split; [exact Hb|]. split; [split; assumption|].
    intros k Hk. destruct (Hrows k Hk) as (l & r & Fl & Fr & Rl & Rr).
    destruct (Hout k Hk) as [Ll Lr].
    rewrite (fit_exact _ _ Ll) in Fl. rewrite (fit_exact _ _ Lr) in Fr.
    injection Fl as <-. injection Fr as <-. auto.
Qed.

(** X10: the data a writer hands to [wavfile.write], when the renderer
    returns signals of the column count; the run ends as that call ends.
    The data has one frame for each sample index and 720 channels; in the frame [i], the channel [2 * k] holds the sample
    [i] of the left signal of the orientation [k] and the channel
    [2 * k + 1] that of the right signal, each scaled and then converted to
    [float32].  The scale is the identity when no warning was given, and
    the division by one number above 1, the same for all samples, when the
    warning was given. *)
Theorem written_channels (filename : string) (fs_arg : Z) (hrirs : hrirs_t) :
  fs hrirs = fs_arg →
  (∀ (ls_irs : ndarray) (hull : LoudspeakerSetup) (L N : nat),
     shape ls_irs = [L; N] → 2 ≤ N + HRIRs_len hrirs →
     (∀ angle, angle < 360 →
        let irs := binauralize hull ls_irs fs_arg (np_deg2rad angle, 0%Q) hrirs in
        length irs.1 = N + HRIRs_len hrirs - 1
        ∧ length irs.2 = N + HRIRs_len hrirs - 1) →
     ∃ calls warns frames scale,
       write_ssr_brirs_loudspeaker filename ls_irs hull fs_arg (Some hrirs)
       = (calls ++ warns
            ++ [EvWavfileWrite (wav_name filename) fs_arg
                  (Arr2 (N + HRIRs_len hrirs - 1) 720 frames)],
          wavfile_outcome (wav_name filename) fs_arg
            (Arr2 (N + HRIRs_len hrirs - 1) 720 frames))
       ∧ length frames = N + HRIRs_len hrirs - 1
       ∧ (((∀ x, scale x = x) ∧ warns = [])
          ∨ (∃ m, (1 < m)%Q ∧ (∀ x, scale x = (x / m)%Q)
                  ∧ warns = [EvWarn "Normalizing BRIRs"]))
       ∧ ∀ i k, i < N + HRIRs_len hrirs - 1 → k < 360 →
           let irs := binauralize hull ls_irs fs_arg (np_deg2rad k, 0%Q) hrirs in
           ∃ frame, frames !! i = Some frame ∧ length frame = 720
             ∧ frame !! (2 * k) = Some (astype_float32 (scale (nth i irs.1 0%Q)))
             ∧ frame !! (2 * k + 1)
               = Some (astype_float32 (scale (nth i irs.2 0%Q))))
  ∧ (∀ (sdm_p sdm_phi sdm_theta : list Q),
       2 ≤ length sdm_p + HRIRs_len hrirs →
       (∀ angle, angle < 360 →
          let irs := render_bsdm sdm_p
                       (map (λ x, x - np_deg2rad angle)%Q sdm_phi)
                       sdm_theta hrirs in
          length irs.1 = length sdm_p + HRIRs_len hrirs - 1
          ∧ length irs.2 = length sdm_p + HRIRs_len hrirs - 1) →
       ∃ calls warns frames scale,
         write_ssr_brirs_sdm filename sdm_p sdm_phi sdm_theta fs_arg (Some hrirs)
         = (calls ++ warns
              ++ [EvWavfileWrite (wav_name filename) fs_arg
                    (Arr2 (length sdm_p + HRIRs_len hrirs - 1) 720 frames)],
            wavfile_outcome (wav_name filename) fs_arg
              (Arr2 (length sdm_p + HRIRs_len hrirs - 1) 720 frames))
         ∧ length frames = length sdm_p + HRIRs_len hrirs - 1
         ∧ (((∀ x, scale x = x) ∧ warns = [])
            ∨ (∃ m, (1 < m)%Q ∧ (∀ x, scale x = (x / m)%Q)
                    ∧ warns = [EvWarn "Normalizing BRIRs"]))
         ∧ ∀ i k, i < length sdm_p + HRIRs_len hrirs - 1 → k < 360 →
             let irs := render_bsdm sdm_p
                          (map (λ x, x - np_deg2rad k)%Q sdm_phi)
                          sdm_theta hrirs in
             ∃ frame, frames !! i = Some frame ∧ length frame = 720
               ∧ frame !! (2 * k) = Some (astype_float32 (scale (nth i irs.1 0%Q)))
               ∧ frame !! (2 * k + 1)
                 = Some (astype_float32 (scale (nth i irs.2 0%Q)))).
Proof.
  intros Hfs. apply Z.eqb_eq in Hfs. split.
  - intros ls_irs hull L N HL Hpos Hout.
    assert (Hs : shape_at ls_irs 1 = inr N) by (apply shape_at_1_inr; eauto).
    destruct (sweep_exact
      (λ angle, EvBinauralize hull ls_irs fs_arg (np_deg2rad angle, 0%Q) hrirs)
      (λ angle, binauralize hull ls_irs fs_arg (np_deg2rad angle, 0%Q) hrirs)
      (N + HRIRs_len hrirs) Hpos Hout) as (rows & Hrun & Hwf & Hrows).
    assert (Hsw : ssr_brirs_loudspeaker ls_irs hull fs_arg hrirs
                  = (map (λ angle, EvBinauralize hull ls_irs fs_arg
                                     (np_deg2rad angle, 0%Q) hrirs) (seq 0 360),
                     inr (Arr2 720 (N + HRIRs_len hrirs - 1) rows))).
    { rewrite ssr_brirs_loudspeaker_sweep, Hs, bind_lift_inr.
      rewrite <- Hrun. f_equal. lia. }
    destruct (written_layout _ _ (wav_name filename) fs_arg _ _ _ Hsw Hwf
                ltac:(lia) Hrows) as (warns & frames & scale & Hw & Rest).
    eexists _, warns, frames, scale. split; [|exact Rest].
    unfold write_ssr_brirs_loudspeaker, get_hrirs.
    rewrite bind_ret_l, Hfs. unfold assert. rewrite bind_ret_l. exact Hw.
  - intros sdm_p sdm_phi sdm_theta Hpos Hout.
    destruct (sweep_exact
      (λ angle, EvRenderBsdm sdm_p
                  (map (λ x, x - np_deg2rad angle)%Q sdm_phi) sdm_theta hrirs)
      (λ angle, render_bsdm sdm_p
                  (map (λ x, x - np_deg2rad angle)%Q sdm_phi) sdm_theta hrirs)
      (length sdm_p + HRIRs_len hrirs) Hpos Hout) as (rows & Hrun & Hwf & Hrows).
    assert (Hsw : ssr_brirs_sdm sdm_p sdm_phi sdm_theta hrirs
                  = (map (λ angle, EvRenderBsdm sdm_p
                                     (map (λ x, x - np_deg2rad angle)%Q sdm_phi)
                                     sdm_theta hrirs) (seq 0 360),
                     inr (Arr2 720 (length sdm_p + HRIRs_len hrirs - 1) rows))).
    { rewrite ssr_brirs_sdm_sweep. rewrite <- Hrun. f_equal. lia. }
    destruct (written_layout _ _ (wav_name filename) fs_arg _ _ _ Hsw Hwf
                ltac:(lia) Hrows) as (warns & frames & scale & Hw & Rest).
    eexists _, warns, frames, scale. split; [|exact Rest].
    unfold write_ssr_brirs_sdm, get_hrirs.
    rewrite bind_ret_l, Hfs. unfold assert. rewrite bind_ret_l. exact Hw.
Qed.

(** ** When [load_hrirs] returns, and what *)

Lemma diracs_result (a a' : ndarray) :
  diracs a = ([], inr a') ↔
  ∃ g h, shape a = [g; h] ∧ 0 < h ∧ a' = Arr2 g h (dirac_rows g h).
Proof.
  split.
  - intros H. apply diracs_inr in H as [_ H]. exact H.
  - intros (g & h & Hs & Hh & ->).
    destruct a as [x|v|g' h' rows]; try discriminate.
    injection Hs as -> ->. apply diracs_Arr2. exact Hh.
Qed.

Lemma diracs_snd (a : ndarray) : diracs a = ([], (diracs a).2).
Proof.
  pose proof (diracs_events a) as E. destruct (diracs a) as [t r].
  simpl in E. subst t. reflexivity.
Qed.

(** X11: [load_hrirs] returns a set [H] exactly when the file name
    resolves, the container is found, its direction columns make the grid
    of [H], the constructor of the set finds its invariant to hold of the
    two arrays of [H] and of the grid, and the sample rate of the
    container is the rate asked for, which is then the rate of [H]; and
    when, without [dummy], the arrays of [H] are those of the container
    squeezed, and, with [dummy], the squeezed arrays are two-dimensional
    with at least one column and the arrays of [H] are the Dirac rows of
    their shapes. *)
Theorem load_hrirs_returns (fs_arg : Z) (filename : option string)
    (dummy : bool) (H : hrirs_t) :
  load_hrirs fs_arg filename dummy = ([], inr H) ↔
  ∃ f m,
    hrirs_filename fs_arg filename = ([], inr f) ∧ loadmat f = Some m
    ∧ pd_DataFrame (np_squeeze (mat_azi m)) (np_squeeze (mat_elev m))
      = inr (grid H)
    ∧ HRIRs_invariant (shape (left H)) (shape (right H)) (grid H) = true
    ∧ mat_SamplingRate m = fs_arg ∧ fs H = fs_arg
    ∧ if dummy then
        ∃ gl hl gr hr,
          shape (np_squeeze (mat_hrir_l m)) = [gl; hl] ∧ 0 < hl
          ∧ shape (np_squeeze (mat_hrir_r m)) = [gr; hr] ∧ 0 < hr
          ∧ left H = Arr2 gl hl (dirac_rows gl hl)
          ∧ right H = Arr2 gr hr (dirac_rows gr hr)
      else left H = np_squeeze (mat_hrir_l m)
           ∧ right H = np_squeeze (mat_hrir_r m).
Proof.
  destruct (hrirs_filename_cases fs_arg filename) as [[f Hf]|[Hf Hall]].
  2:{ rewrite Hall. split; [discriminate|].
      intros (f & m & Hf' & _). rewrite Hf in Hf'. discriminate. }
  rewrite (load_hrirs_resolved _ _ _ f Hf), load_hrirs_Some.
  split.
  - destruct (loadmat f) as [m|] eqn:Hm; [|discriminate].
    intros E. exists f, m. split; [exact Hf|]. split; [exact Hm|].
    destruct dummy.
    + rewrite from_mat_dummy in E.
      destruct (pd_DataFrame _ _) as [e|g]; [discriminate|].
      destruct (diracs (np_squeeze (mat_hrir_l m))).2 as [el|l] eqn:Dl;
        [discriminate|].
      destruct (diracs (np_squeeze (mat_hrir_r m))).2 as [er|r] eqn:Dr;
        [discriminate|].
      destruct (_ && _)%bool eqn:Hc; [|discriminate].
      apply andb_true_iff in Hc as [Hinv Hfs].
      injection E as <-. apply Z.eqb_eq in Hfs. simpl.
      repeat split; try assumption; try reflexivity.
      assert (Dl' : diracs (np_squeeze (mat_hrir_l m)) = ([], inr l))
        by (rewrite diracs_snd; f_equal; exact Dl).
      assert (Dr' : diracs (np_squeeze (mat_hrir_r m)) = ([], inr r))
        by (rewrite diracs_snd; f_equal; exact Dr).
      apply diracs_result in Dl' as (gl & hl & Sl & Hl & ->).
      apply diracs_result in Dr' as (gr & hr & Sr & Hr & ->).
      exists gl, hl, gr, hr. auto 8.
    + rewrite from_mat_plain in E.
      destruct (pd_DataFrame _ _) as [e|g]; [discriminate|].
      destruct (_ && _)%bool eqn:Hc; [|discriminate].
      apply andb_true_iff in Hc as [Hinv Hfs].
      injection E as <-. apply Z.eqb_eq in Hfs. simpl. auto 8.
  - intros (f' & m & Hf' & Hm & Hg & Hinv & Hrate & HfsH & Harr).
    rewrite Hf in Hf'. injection Hf' as <-. rewrite Hm.
    apply Z.eqb_eq in Hrate. destruct H as [l r g fsH]. simpl in *.
    destruct dummy.
    + destruct Harr as (gl & hl & gr & hr & Sl & Hl & Sr & Hr & -> & ->).
      rewrite from_mat_dummy, Hg.
      assert (Dl : diracs (np_squeeze (mat_hrir_l m))
                   = ([], inr (Arr2 gl hl (dirac_rows gl hl))))
        by (apply diracs_result; eauto).
      assert (Dr : diracs (np_squeeze (mat_hrir_r m))
                   = ([], inr (Arr2 gr hr (dirac_rows gr hr))))
        by (apply diracs_result; eauto).
      rewrite Dl, Dr. cbn [snd]. rewrite Hinv, Hrate.
      apply Z.eqb_eq in Hrate. subst fsH. rewrite Hrate. reflexivity.
    + destruct Harr as [-> ->]. rewrite from_mat_plain, Hg, Hinv, Hrate.
      apply Z.eqb_eq in Hrate. subst fsH. rewrite Hrate. reflexivity.
Qed.

(** ** The arrays of a loaded set *)

Lemma concat_length_rows (g h : nat) (rows : list (list Q)) :
  wf (Arr2 g h rows) → length (concat rows) = g * h.
Proof.
  intros [Hlen Hall]. subst g. induction Hall as [|r rows Hr _ IH]; simpl.
  - reflexivity.
  - rewrite length_app, Hr, IH. reflexivity.
Qed.

(** [np.squeeze] drops the axes of length one and keeps the samples, in
    their order. *)
Lemma np_squeeze_shape (a : ndarray) :
  wf a → shape (np_squeeze a) = filter (λ n, n ≠ 1) (shape a).
Proof.
  destruct a as [x|v|g h rows]; simpl.
  - reflexivity.
  - destruct v as [|x [|y v]]; reflexivity.
  - intros Hwf. pose proof (concat_length_rows g h rows Hwf) as L.
    destruct g as [|[|g]], h as [|[|h]]; simpl; rewrite ?L; try reflexivity.
    all: rewrite !filter_cons, filter_nil; repeat case_decide; try lia;
      f_equal; lia.
Qed.

Lemma np_squeeze_elems (a : ndarray) : wf a → elems (np_squeeze a) = elems a.
Proof.
  destruct a as [x|v|g h rows]; simpl.
  - reflexivity.
  - destruct v as [|x [|y v]]; reflexivity.
  - intros Hwf. pose proof (concat_length_rows g h rows Hwf) as L.
    destruct g as [|[|g]], h as [|[|h]]; try reflexivity.
    simpl in L. destruct (concat rows) as [|x [|y l]]; try discriminate.
    reflexivity.
Qed.

(** X12: a set loaded without [dummy] holds the samples of the
    container, in their order; its arrays have the axes of the container's
    arrays that are not of length 1, so a container of impulse responses
    with one sample, or for one direction, gives one-dimensional arrays. *)
Theorem load_hrirs_keeps_samples (fs_arg : Z) (filename : option string)
    (t : list event) (H : hrirs_t) :
  load_hrirs fs_arg filename false = (t, inr H) →
  ∃ f m, hrirs_filename fs_arg filename = ([], inr f) ∧ loadmat f = Some m
    ∧ (wf (mat_hrir_l m) →
       shape (left H) = filter (λ n, n ≠ 1) (shape (mat_hrir_l m))
       ∧ elems (left H) = elems (mat_hrir_l m))
    ∧ (wf (mat_hrir_r m) →
       shape (right H) = filter (λ n, n ≠ 1) (shape (mat_hrir_r m))
       ∧ elems (right H) = elems (mat_hrir_r m)).
Proof.
  destruct (hrirs_filename_cases fs_arg filename) as [[f Hf]|[Hf Hall]].
  2:{ rewrite Hall. discriminate. }
  rewrite (load_hrirs_resolved _ _ _ f Hf), load_hrirs_Some.
  destruct (loadmat f) as [m|] eqn:Hm; [|discriminate].
  rewrite from_mat_plain.
  destruct (pd_DataFrame _ _) as [e|g]; [discriminate|].
  destruct (_ && _)%bool; [|discriminate].
  intros [= _ <-]. exists f, m. split; [exact Hf|]. split; [exact Hm|].
  simpl left. simpl right.
  split; intros Hwf; (split; [apply np_squeeze_shape | apply np_squeeze_elems]);
    exact Hwf.
Qed.

(** ** The failures of [load_hrirs], in their order *)

(** The dummy branch raises [IndexError] on every array that is not
    two-dimensional with at least one sample in a row. *)
Lemma diracs_refused (a : ndarray) :
  ¬ two_dim a → ∃ msg, diracs a = ([], inl (IndexError msg)).
Proof.
  intros N. destruct a as [x|v|g h rows].
  - eexists. reflexivity.
  - eexists. reflexivity.
  - destruct h as [|h].
    + eexists. reflexivity.
    + exfalso. apply N. exists g, (S h). split; [reflexivity|lia].
Qed.

Lemma classic_two_dim (a : ndarray) : two_dim a ∨ ¬ two_dim a.
Proof.
  destruct a as [x|v|g h rows].
  - right. intros (g & h & Hs & _). discriminate.
  - right. intros (g & h & Hs & _). discriminate.
  - destruct h as [|h].
    + right. intros (g' & h' & Hs & Hh). injection Hs as <- <-. lia.
    + left. exists g, (S h). split; [reflexivity|lia].
Qed.

(** X13: which exception [load_hrirs] raises when several things are
    wrong with the container of a resolved file name.  A container that is
    not found raises [ValueError] with the message about the default set,
    also for a file the caller has named.  Then the grid is built: its
    exception is raised whatever the sample rate and [dummy] are.  Then,
    with [dummy], the impulses are written, the left array first: an
    array that is not two-dimensional with a sample raises [IndexError],
    also when the sample rate is wrong.  Then the set is constructed, and
    the sample rate is compared last; both raise [AssertionError]: it is
    raised exactly when nothing before has failed and the invariant of the
    constructor fails of the shapes of the two arrays and of the grid, or
    the rate of the container is not the rate asked for.  Otherwise a set
    is returned. *)
Theorem load_hrirs_failure_order (fs_arg : Z) (filename : option string)
    (dummy : bool) (f : string) :
  hrirs_filename fs_arg filename = ([], inr f) →
  (loadmat f = None →
   load_hrirs fs_arg filename dummy = ([], inl MissingDefaultData))
  ∧ ∀ m, loadmat f = Some m →
      match pd_DataFrame (np_squeeze (mat_azi m)) (np_squeeze (mat_elev m)) with
      | inl e => load_hrirs fs_arg filename dummy = ([], inl e)
      | inr g =>
          (dummy = true →
           ¬ (two_dim (np_squeeze (mat_hrir_l m))
              ∧ two_dim (np_squeeze (mat_hrir_r m))) →
           ∃ msg, load_hrirs fs_arg filename dummy = ([], inl (IndexError msg)))
          ∧ (dummy = false
             ∨ (two_dim (np_squeeze (mat_hrir_l m))
                ∧ two_dim (np_squeeze (mat_hrir_r m))) →
             (load_hrirs fs_arg filename dummy = ([], inl AssertionError)
              ↔ HRIRs_invariant (shape (np_squeeze (mat_hrir_l m)))
                  (shape (np_squeeze (mat_hrir_r m))) g = false
                ∨ mat_SamplingRate m ≠ fs_arg)
             ∧ (HRIRs_invariant (shape (np_squeeze (mat_hrir_l m)))
                  (shape (np_squeeze (mat_hrir_r m))) g = true →
                mat_SamplingRate m = fs_arg →
                ∃ H, load_hrirs fs_arg filename dummy = ([], inr H)))
      end.
Proof.
  intros Hf. rewrite (load_hrirs_resolved _ _ _ f Hf), load_hrirs_Some.
  split; [intros ->; reflexivity|].
  intros m ->.
  destruct (pd_DataFrame (np_squeeze (mat_azi m)) (np_squeeze (mat_elev m)))
    as [e|g] eqn:Hg.
  { destruct dummy; [rewrite from_mat_dummy | rewrite from_mat_plain];
      rewrite Hg; reflexivity. }
  split.
  - intros -> N. rewrite from_mat_dummy, Hg.
    destruct (diracs (np_squeeze (mat_hrir_l m))).2 as [el|l] eqn:Dl.
    + destruct (diracs (np_squeeze (mat_hrir_l m))) as [tl rl] eqn:El.
      simpl in Dl. subst rl.
      destruct (classic_two_dim (np_squeeze (mat_hrir_l m))) as [T|T].
      * destruct (diracs_two_dim _ T) as [a' Ha]. rewrite Ha in El. discriminate.
      * destruct (diracs_refused _ T) as [msg Hmsg]. rewrite Hmsg in El.
        injection El as <- <-. eauto.
    + assert (Tl : two_dim (np_squeeze (mat_hrir_l m))).
      { destruct (classic_two_dim (np_squeeze (mat_hrir_l m))) as [T|T];
          [exact T|].
        destruct (diracs_refused _ T) as [msg Hmsg]. rewrite Hmsg in Dl.
        discriminate. }
      assert (Tr : ¬ two_dim (np_squeeze (mat_hrir_r m))) by tauto.
      destruct (diracs_refused _ Tr) as [msg Hmsg]. rewrite Hmsg. simpl. eauto.
  - intros Hcase.
    assert (E : if HRIRs_invariant (shape (np_squeeze (mat_hrir_l m)))
                     (shape (np_squeeze (mat_hrir_r m))) g
                   && (mat_SamplingRate m =? fs_arg)%Z
                then ∃ H, from_mat fs_arg dummy m = ([], inr H)
                else from_mat fs_arg dummy m = ([], inl AssertionError)).
    { destruct dummy.
      - destruct Hcase as [|[Tl Tr]]; [discriminate|].
        destruct (diracs_two_dim _ Tl) as [l Hl].
        destruct (diracs_two_dim _ Tr) as [r Hr].
        assert (Sl : shape l = shape (np_squeeze (mat_hrir_l m)))
          by (apply diracs_shape; rewrite Hl; reflexivity).
        assert (Sr : shape r = shape (np_squeeze (mat_hrir_r m)))
          by (apply diracs_shape; rewrite Hr; reflexivity).
        rewrite from_mat_dummy, Hg, Hl, Hr. cbn [snd]. rewrite Sl, Sr.
        destruct (_ && _)%bool; eauto.
      - rewrite from_mat_plain, Hg.
        destruct (_ && _)%bool; eauto. }
    destruct (HRIRs_invariant _ _ _) eqn:Hinv;
      destruct (mat_SamplingRate m =? fs_arg)%Z eqn:Hfs; cbn [andb] in E.
    + apply Z.eqb_eq in Hfs. destruct E as [H E]. rewrite E. split.
      * split; [discriminate | intros [N|N]; [discriminate | contradiction]].
      * intros _ _. eauto.
    + apply Z.eqb_neq in Hfs. rewrite E. split.
      * split; [intros _; right; exact Hfs | reflexivity].
      * intros _ N. contradiction.
    + rewrite E. split.
      * split; [intros _; left; reflexivity | reflexivity].
      * intros N. discriminate.
    + rewrite E. split.
      * split; [intros _; left; reflexivity | reflexivity].
      * intros N. discriminate.
Qed.

(** ** The samples of the file *)

(** After the normalizer no sample is above 1 in magnitude. *)
Lemma normalize_bounded (b b' : ndarray) (warns : list event) :
  normalize b = (warns, inr b') → ∀ x, In x (elems b') → (Qabs x <= 1)%Q.
Proof.
  intros Hn. destruct (np_max (np_abs b)) as [e|m] eqn:H.
  { rewrite (normalize_empty b e H) in Hn. discriminate. }
  destruct (max_abs_spec b m H) as [_ Hle].
  destruct (Qlt_le_dec 1 m) as [Hm|Hm].
  - rewrite (normalize_gt_1 b m H Hm) in Hn.
    apply pair_equal_spec in Hn as [_ Hn]. injection Hn as <-.
    intros x Hx. rewrite elems_amap in Hx. apply in_map_iff in Hx.
    destruct Hx as (y & <- & Hy).
    apply Qabs_div_le_1; [|apply Hle; exact Hy].
    eapply Qlt_trans; [|exact Hm]. reflexivity.
  - rewrite (normalize_le_1 b m H Hm) in Hn.
    apply pair_equal_spec in Hn as [_ Hn]. injection Hn as <-.
    intros x Hx. eapply Qle_trans; [apply Hle; exact Hx | exact Hm].
Qed.

(** A sample of the transpose is a sample of the array, or the 0 that
    stands for a sample a short row does not have. *)
Lemma elems_transpose (a : ndarray) (x : Q) :
  In x (elems (np_transpose a)) → In x (elems a) ∨ x = 0%Q.
Proof.
  destruct a as [y|v|g h rows]; simpl; auto.
  intros Hx. apply in_concat in Hx as (frame & Hframe & Hx).
  apply in_map_iff in Hframe. destruct Hframe as (j & <- & _).
  apply in_map_iff in Hx. destruct Hx as (r & <- & Hr).
  destruct (nth_in_or_default j r 0%Q) as [Hin| ->]; [|right; reflexivity].
  left. apply in_concat. exists r. split; assumption.
Qed.

Lemma calls_not_write (t : list event) (name : string) (rate : Z)
    (data : ndarray) :
  forallb is_call t = true → ¬ In (EvWavfileWrite name rate data) t.
Proof.
  intros Hall Hin. rewrite forallb_forall in Hall.
  specialize (Hall _ Hin). discriminate.
Qed.

(** What a writer does after the rate assertion, from the sweep on. *)
Lemma tail_bounded (run : M ndarray) (filename : string) (fs_arg : Z)
    (name : string) (rate : Z) (data : ndarray) :
  (∀ x, (Qabs x <= 1)%Q → (Qabs (astype_float32 x) <= 1)%Q) →
  forallb is_call run.1 = true →
  In (EvWavfileWrite name rate data)
     (ssr_brirs <- run;;
      ssr_brirs <- normalize ssr_brirs;;
      wavfile_write filename fs_arg
        (np_transpose (amap astype_float32 ssr_brirs))).1 →
  ∀ x, In x (elems data) → (Qabs x <= 1)%Q.
Proof.
  intros Hcast Hcalls. destruct run as [t [e|b]]; simpl in Hcalls.
  { simpl. intros Hin. exfalso. exact (calls_not_write _ _ _ _ Hcalls Hin). }
  unfold bind at 1. cbn [fst snd].
  destruct (normalize_cases b) as [[e He]|(warns & b' & Hb & Hw)].
  - rewrite He. simpl. rewrite app_nil_r. intros Hin.
    exfalso. exact (calls_not_write _ _ _ _ Hcalls Hin).
  - rewrite Hb. unfold bind, wavfile_write, emit. cbn [fst snd].
    intros Hin. apply in_app_or in Hin as [Hin|Hin].
    { exfalso. exact (calls_not_write _ _ _ _ Hcalls Hin). }
    apply in_app_or in Hin as [Hin|Hin].
    { exfalso. destruct Hw as [->| ->]; [destruct Hin|].
      destruct Hin as [Hin|[]]. discriminate. }
    destruct Hin as [Hin|[]]. injection Hin as _ _ <-.
    intros x Hx. apply elems_transpose in Hx as [Hx| ->]; [|discriminate].
    rewrite elems_amap in Hx. apply in_map_iff in Hx.
    destruct Hx as (y & <- & Hy). apply Hcast.
    exact (normalize_bounded b b' warns Hb y Hy).
Qed.

Lemma sweep_calls (ev : nat → event) (out : nat → list Q * list Q) (cols : Z) :
  (∀ k, is_call (ev k) = true) → forallb is_call (sweep ev out cols).1 = true.
Proof.
  intros Hev. destruct (sweep ev out cols) as [t r] eqn:E.
  apply sweep_trace in E as (n & _ & -> & _). apply forallb_map_seq. exact Hev.
Qed.

Lemma prefix_bounded (pre : M hrirs_t) (sw : hrirs_t → M ndarray)
    (filename : string) (fs_arg : Z) (name : string) (rate : Z)
    (data : ndarray) :
  (∀ x, (Qabs x <= 1)%Q → (Qabs (astype_float32 x) <= 1)%Q) →
  pre.1 = [] → (∀ h, forallb is_call (sw h).1 = true) →
  In (EvWavfileWrite name rate data)
     (hrirs <- pre;;
      assert (fs hrirs =? fs_arg)%Z;;
      ssr_brirs <- sw hrirs;;
      ssr_brirs <- normalize ssr_brirs;;
      wavfile_write (wav_name filename) fs_arg
        (np_transpose (amap astype_float32 ssr_brirs))).1 →
  ∀ x, In x (elems data) → (Qabs x <= 1)%Q.
Proof.
  intros Hcast Hpre Hsw. destruct pre as [t0 [e|h]]; simpl in Hpre; subst t0.
  { intros []. }
  rewrite bind_nil_inr. destruct (fs h =? fs_arg)%Z; [|intros []].
  unfold assert. rewrite bind_ret_l.
  apply tail_bounded; [exact Hcast | apply Hsw].
Qed.

(** X18: the normalizer keeps a bank of finite samples, the samples of
    this model, from clipping.  When the conversion to [float32] keeps a
    sample of magnitude at most 1 at magnitude at most 1, every sample of
    the data either writer hands to [wavfile.write] has magnitude at most
    1, whichever finite samples the renderer has returned.  (A NaN among
    the samples, which the rationals do not have, makes the comparison
    with 1 false in the source, which then leaves the bank as it is.) *)
Theorem written_samples_bounded :
  (∀ x, (Qabs x <= 1)%Q → (Qabs (astype_float32 x) <= 1)%Q) →
  (∀ filename ls_irs hull fs_arg hrirs name rate data,
     In (EvWavfileWrite name rate data)
        (write_ssr_brirs_loudspeaker filename ls_irs hull fs_arg hrirs).1 →
     ∀ x, In x (elems data) → (Qabs x <= 1)%Q)
  ∧ (∀ filename sdm_p sdm_phi sdm_theta fs_arg hrirs name rate data,
       In (EvWavfileWrite name rate data)
          (write_ssr_brirs_sdm filename sdm_p sdm_phi sdm_theta fs_arg hrirs).1 →
       ∀ x, In x (elems data) → (Qabs x <= 1)%Q).
Proof.
  intros Hcast. split.
  - intros filename ls_irs hull fs_arg hrirs name rate data.
    apply (prefix_bounded (get_hrirs fs_arg hrirs)
             (ssr_brirs_loudspeaker ls_irs hull fs_arg)); [exact Hcast| |].
    + apply get_hrirs_events.
    + intros h. rewrite ssr_brirs_loudspeaker_sweep.
      destruct (shape_at ls_irs 1) as [e|s]; [reflexivity|].
      rewrite bind_lift_inr. apply sweep_calls. reflexivity.
  - intros filename sdm_p sdm_phi sdm_theta fs_arg hrirs name rate data.
    apply (prefix_bounded (get_hrirs fs_arg hrirs)
             (ssr_brirs_sdm sdm_p sdm_phi sdm_theta)); [exact Hcast| |].
    + apply get_hrirs_events.
    + intros h. rewrite ssr_brirs_sdm_sweep. apply sweep_calls. reflexivity.
Qed.

End Properties.

(** * Properties of [load_audio] *)

Section AudioProperties.
Context `{Aud : AudioExternal}.

Lemma read_files_ok (filenames : list string) (reads : list (sf_data * Z)) :
  Forall2 (λ file r, sf_read file = inr r) filenames reads →
  ∀ loaded_data loaded_fs,
    read_files filenames loaded_data loaded_fs
    = inr (loaded_data ++ concat (map (λ r, sf_channels r.1) reads),
           loaded_fs ++ map snd reads).
Proof.
  induction 1 as [|file r filenames reads Hr _ IH]; intros loaded_data loaded_fs.
  - simpl. rewrite !app_nil_r. reflexivity.
  - simpl read_files. rewrite Hr. destruct r as [data fs_file].
    rewrite IH. simpl. rewrite <- !app_assoc. reflexivity.
Qed.

Lemma read_files_fail (before : list string) (reads : list (sf_data * Z))
    (file : string) (after : list string) (e : foreign) :
  Forall2 (λ file r, sf_read file = inr r) before reads →
  sf_read file = inl e →
  ∀ loaded_data loaded_fs,
    read_files (before ++ file :: after) loaded_data loaded_fs = inl e.
Proof.
  intros Hbefore He.
  induction Hbefore as [|f r before reads Hr _ IH]; intros loaded_data loaded_fs.
  - simpl. rewrite He. reflexivity.
  - simpl. rewrite Hr. destruct r as [data fs_file]. apply IH.
Qed.

Lemma all_equal_first_true (r : Z) (rates : list Z) :
  Forall (λ x, x = r) rates → all_equal_first rates = true.
Proof.
  intros H. destruct rates as [|fs0 rates]; [reflexivity|].
  pose proof (Forall_inv H) as E. simpl in E. subst fs0.
  unfold all_equal_first. apply forallb_forall. intros x Hx.
  rewrite Forall_forall in H. apply Z.eqb_eq. apply H.
  apply list_elem_of_In. exact Hx.
Qed.

Lemma all_equal_first_false (d0 d : sf_data * Z) (reads : list (sf_data * Z)) :
  head reads = Some d0 → d ∈ reads → d.2 ≠ d0.2 →
  all_equal_first (map snd reads) = false.
Proof.
  intros Hd0 Hd Hne. destruct reads as [|d0' reads]; [discriminate|].
  injection Hd0 as ->. unfold all_equal_first. simpl map.
  apply not_true_is_false. intros Htrue.
  rewrite forallb_forall in Htrue. apply Hne. apply Z.eqb_eq.
  apply Htrue. apply (in_map snd (d0 :: reads) d).
  apply list_elem_of_In. exact Hd.
Qed.

Lemma index0_rates (reads : list (sf_data * Z)) (r : Z) :
  reads ≠ [] → Forall (λ d, d.2 = r) reads → index0 (map snd reads) = inr r.
Proof.
  intros Hne Hrates. destruct reads as [|d reads]; [congruence|].
  apply Forall_inv in Hrates. simpl in *. rewrite Hrates. reflexivity.
Qed.

Lemma rates_agree (reads : list (sf_data * Z)) (r : Z) :
  Forall (λ d, d.2 = r) reads → all_equal_first (map snd reads) = true.
Proof.
  intros Hrates. apply (all_equal_first_true r). apply Forall_fmap.
  eapply Forall_impl; [exact Hrates|]. auto.
Qed.

(** X14: files that can all be read, at one common sample rate [r], with
    no rate asked for or the rate [r]: [load_audio] hands the channels of
    the files, in the order of the files and, within a file, of its
    channels, with the rate [r], to [sig.MonoSignal] when that is one
    channel and to [sig.MultiSignal] otherwise, and ends as the constructor
    does.  A single file name is the list of that name. *)
Theorem load_audio_channels (filenames : list string)
    (reads : list (sf_data * Z)) (r : Z) (fs : option Z) :
  Forall2 (λ file d, sf_read file = inr d) filenames reads →
  reads ≠ [] → Forall (λ d, d.2 = r) reads →
  fs = None ∨ fs = Some r →
  let channels := concat (map (λ d, sf_channels d.1) reads) in
  load_audio (inr filenames) fs
  = (if length channels =? 1
     then match sig_MonoSignal channels r with
          | inl e => inl (Passed e)
          | inr s => inr (inl s)
          end
     else match sig_MultiSignal channels r with
          | inl e => inl (Passed e)
          | inr s => inr (inr s)
          end)
  ∧ ∀ file, filenames = [file] →
      load_audio (inl file) fs = load_audio (inr filenames) fs.
Proof.
  intros Hreads Hne Hrates Hfs channels. split.
  2:{ intros file ->. reflexivity. }
  unfold load_audio. rewrite (read_files_ok _ _ Hreads). simpl app.
  rewrite (rates_agree reads r Hrates). cbn [negb].
  unfold checked_fs. rewrite (index0_rates reads r Hne Hrates).
  destruct Hfs as [->| ->].
  - reflexivity.
  - rewrite Z.eqb_refl. reflexivity.
Qed.

(** X15: how [load_audio] fails.  For the empty list of files it raises
    [IndexError], at the first read of [loaded_fs[0]]; the assertion on the
    rates holds of the empty list.  The exception of the first file that
    cannot be read is passed on, the files after it are not read.  Files
    that can all be read and whose rates are not all the rate of the first
    one raise [AssertionError], whatever rate is asked for.  Files at one
    common rate [r], with another rate asked for, raise [ValueError] with
    the rate [r] of the files in the message. *)
Theorem load_audio_errors (fs : option Z) :
  load_audio (inr []) fs = inl (Raised (IndexError "list index out of range"))
  ∧ (∀ before reads file after e,
       Forall2 (λ file d, sf_read file = inr d) before reads →
       sf_read file = inl e →
       load_audio (inr (before ++ file :: after)) fs = inl (Passed e))
  ∧ (∀ filenames reads,
       Forall2 (λ file d, sf_read file = inr d) filenames reads →
       (∃ d0 d, head reads = Some d0 ∧ d ∈ reads ∧ d.2 ≠ d0.2) →
       load_audio (inr filenames) fs = inl (Raised AssertionError))
  ∧ (∀ filenames reads r r',
       Forall2 (λ file d, sf_read file = inr d) filenames reads →
       reads ≠ [] → Forall (λ d, d.2 = r) reads →
       fs = Some r' → r' ≠ r →
       load_audio (inr filenames) fs
       = inl (Raised (ValueError ("File: Found different fs:" ++ str r)))).
Proof.
  split; [|split; [|split]].
  - destruct fs; reflexivity.
  - intros before reads file after e Hbefore He.
    unfold load_audio. rewrite (read_files_fail _ _ _ _ _ Hbefore He).
    reflexivity.
  - intros filenames reads Hreads (d0 & d & Hd0 & Hd & Hne).
    unfold load_audio. rewrite (read_files_ok _ _ Hreads). simpl app.
    rewrite (all_equal_first_false d0 d reads Hd0 Hd Hne). reflexivity.
  - intros filenames reads r r' Hreads Hne Hrates -> Hdiff.
    unfold load_audio. rewrite (read_files_ok _ _ Hreads). simpl app.
    rewrite (rates_agree reads r Hrates). cbn [negb].
    unfold checked_fs. rewrite (index0_rates reads r Hne Hrates).
    apply Z.eqb_neq in Hdiff. rewrite Hdiff. reflexivity.
Qed.

End AudioProperties.

(** * Properties of [load_sdm] *)

Section SdmProperties.
Context `{Ext : External}.
Variable loadmat_sdm : string → option sdm_mat.

Lemma set_where_nan_spec (a : darray) (v : Q) :
  d_shape (set_where_nan a v) = d_shape a
  ∧ (NaN ∉ d_data (set_where_nan a v))
  ∧ ∀ i, d_data (set_where_nan a v) !! i
         = match d_data a !! i with
           | Some NaN => Some (Num v)
           | o => o
           end.
Proof.
  split; [reflexivity|]. split.
  - simpl. intros Hin. apply list_elem_of_fmap in Hin as (x & Hx & _).
    destruct x; discriminate.
  - intros i. simpl. rewrite list_lookup_fmap.
    destruct (d_data a !! i) as [[q|]|]; reflexivity.
Qed.

(** X17: [load_sdm] returns the pressure, the two angle arrays and the
    rate of the container, each array without its axes of length one and
    with its samples in their order.  With [init_nan], the default, the
    angle arrays hold no NaN: a NaN azimuth has become 0, a NaN colatitude
    [pi / 2], and every other angle is as in the container; the pressure
    keeps its NaNs.  Without [init_nan] the three arrays are as in the
    container.  A file that is not found is not turned into another
    error. *)
Theorem load_sdm_init_nan (filename : string) :
  (loadmat_sdm filename = None →
   ∀ init_nan, load_sdm loadmat_sdm filename init_nan = None)
  ∧ ∀ m, loadmat_sdm filename = Some m →
      (∃ sdm_phi sdm_theta,
         load_sdm loadmat_sdm filename true
         = Some (d_squeeze (mat_h_ref m), sdm_phi, sdm_theta, mat_fs m)
         ∧ d_shape sdm_phi = filter (λ n, n ≠ 1) (d_shape (mat_sdm_phi m))
         ∧ d_shape sdm_theta = filter (λ n, n ≠ 1) (d_shape (mat_sdm_theta m))
         ∧ (NaN ∉ d_data sdm_phi) ∧ (NaN ∉ d_data sdm_theta)
         ∧ (∀ i, d_data sdm_phi !! i
                 = match d_data (mat_sdm_phi m) !! i with
                   | Some NaN => Some (Num 0)
                   | o => o
                   end)
         ∧ (∀ i, d_data sdm_theta !! i
                 = match d_data (mat_sdm_theta m) !! i with
                   | Some NaN => Some (Num (np_pi / 2))
                   | o => o
                   end))
      ∧ load_sdm loadmat_sdm filename false
        = Some (d_squeeze (mat_h_ref m), d_squeeze (mat_sdm_phi m),
                d_squeeze (mat_sdm_theta m), mat_fs m).
Proof.
  split.
  { intros Hm init_nan. unfold load_sdm. rewrite Hm. reflexivity. }
  intros m Hm. unfold load_sdm. rewrite Hm. split; [|reflexivity].
  eexists _, _. split; [reflexivity|].
  destruct (set_where_nan_spec (d_squeeze (mat_sdm_phi m)) 0) as (Sp & Np & Lp).
  destruct (set_where_nan_spec (d_squeeze (mat_sdm_theta m)) (np_pi / 2))
    as (St & Nt & Lt).
  repeat split; assumption.
Qed.

End SdmProperties.

(** * The properties in the concrete setting *)

#[local] Existing Instance Demo.ext.

(** The sweep of the array writer in the concrete setting returns a bank of
    720 rows and 2 + 3 - 1 columns. *)
Lemma bank_shape_witness :
  ∃ L N, shape Demo.ls_irs = [L; N] ∧ 1 ≤ N + @HRIRs_len Demo.ext Demo.hrirs
    ∧ shape (Arr2 720 4 Demo.rows_ls)
      = [720; N + @HRIRs_len Demo.ext Demo.hrirs - 1]
    ∧ wf (Arr2 720 4 Demo.rows_ls).
Proof.
  apply (proj1 (proj1 (@bank_shape Demo.ext) Demo.ls_irs tt 44100%Z Demo.hrirs)
           Demo.calls_ls).
  vm_compute. reflexivity.
Defined.

(** Orientation 90 of the array writer and orientation 270 of the room
    writer, in the concrete setting. *)
Lemma row_pairing_witness :
  (Demo.calls_ls !! 90
   = Some (EvBinauralize tt Demo.ls_irs 44100 (np_deg2rad 90, 0%Q) Demo.hrirs)
   ∧ Demo.rows_ls !! (2 * 90) = Some (replicate 4 (np_deg2rad 90))
   ∧ Demo.rows_ls !! (2 * 90 + 1) = Some (replicate 4 (- np_deg2rad 90)%Q))
  ∧ (Demo.calls_sdm !! 270
     = Some (EvRenderBsdm Demo.sdm_p
               (map (λ x, x - np_deg2rad 270)%Q Demo.sdm_phi)
               Demo.sdm_theta Demo.hrirs)
     ∧ Demo.rows_sdm !! (2 * 270) = Some (replicate 4 (0 - np_deg2rad 270)%Q)
     ∧ Demo.rows_sdm !! (2 * 270 + 1) = Some (replicate 4 (3 # 2)%Q)).
Proof.
  split.
  - apply (proj1 (@row_pairing Demo.ext) Demo.ls_irs tt 44100%Z Demo.hrirs
             Demo.calls_ls 720 4 Demo.rows_ls 90).
    + vm_compute. reflexivity.
    + lia.
    + reflexivity.
    + reflexivity.
    + reflexivity.
  - apply (proj2 (@row_pairing Demo.ext) Demo.sdm_p Demo.sdm_phi Demo.sdm_theta
             Demo.hrirs Demo.calls_sdm 720 4 Demo.rows_sdm 270).
    + vm_compute. reflexivity.
    + lia.
    + reflexivity.
    + reflexivity.
    + reflexivity.
Defined.

(** A bank whose largest magnitude is 3 is divided by 3, with a warning; a
    bank whose largest magnitude is 3/10 is returned as it is. *)
Lemma normalize_correct_witness :
  (normalize Demo.loud
   = ([EvWarn "Normalizing BRIRs"], inr (amap (λ x, x / 3)%Q Demo.loud))
   ∧ ∃ m', np_max (np_abs (amap (λ x, x / 3)%Q Demo.loud)) = inr m' ∧ m' == 1)
  ∧ normalize Demo.quiet = ([], inr Demo.quiet).
Proof.
  split.
  - apply (proj1 (@normalize_correct Demo.ext Demo.loud 3 eq_refl)).
    reflexivity.
  - apply (proj2 (@normalize_correct Demo.ext Demo.quiet (3 # 10) eq_refl)).
    intros H. vm_compute in H. discriminate H.
Defined.

(** A set at 44100 Hz handed to a writer called for 48000 Hz, and the
    default set for 48000 Hz whose container is at 44100 Hz. *)
Lemma sample_rate_mismatch_witness :
  (write_ssr_brirs_loudspeaker "brirs" Demo.ls_irs tt 48000 (Some Demo.hrirs)
   = ([], inl SampleRateMismatch)
   ∧ write_ssr_brirs_sdm "brirs" Demo.sdm_p Demo.sdm_phi Demo.sdm_theta 48000
       (Some Demo.hrirs)
     = ([], inl SampleRateMismatch))
  ∧ (write_ssr_brirs_loudspeaker "brirs" Demo.ls_irs tt 48000 None
     = ([], inl SampleRateMismatch)
     ∧ write_ssr_brirs_sdm "brirs" Demo.sdm_p Demo.sdm_phi Demo.sdm_theta 48000 None
       = ([], inl SampleRateMismatch)).
Proof.
  split.
  - destruct (proj1 (@sample_rate_mismatch Demo.ext "brirs" 48000%Z) Demo.hrirs)
      as [A B]; [vm_compute; discriminate|].
    split; [apply A | apply B].
  - destruct (proj2 (@sample_rate_mismatch Demo.ext "brirs" 48000%Z)
                "/opt/spaudiopy/../data/HRTF_default48k.mat"%string Demo.hrtf
                [(0, 3#2); (3#2, 3#2)]%Q)
      as [A B]; [reflexivity | reflexivity | reflexivity | vm_compute; discriminate|].
    split; [apply A | apply B].
Defined.

(** The sweep of the room writer in the concrete setting makes the 360
    calls, each on the azimuths given minus the orientation, and returns a
    bank. *)
Lemma sdm_rotation_witness :
  ∃ b, Demo.run_sdm
       = (map (λ k, EvRenderBsdm Demo.sdm_p
                      (map (λ x, x - inject_Z (Z.of_nat k) * (np_pi / 180))%Q
                           Demo.sdm_phi)
                      Demo.sdm_theta Demo.hrirs)
              (seq 0 360),
          inr b).
Proof.
  apply (proj2 (@sdm_rotation Demo.ext Demo.sdm_p Demo.sdm_phi Demo.sdm_theta
                  Demo.hrirs)).
  - vm_compute. lia.
  - intros k _. split; apply length_replicate.
Defined.

(** 22050 Hz has no default container; 44100 Hz has one, whose set the
    call returns. *)
Lemma load_hrirs_default_witness :
  load_hrirs 22050 None true = ([], inl UnsupportedSampleRate)
  ∧ load_hrirs 44100 None false
    = load_hrirs 44100 (Some "/opt/spaudiopy/../data/HRTF_default.mat"%string) false
  ∧ load_hrirs 44100 None false = ([], inr Demo.hrirs).
Proof.
  split; [|split].
  - apply (proj1 (proj2 (proj2 (@load_hrirs_default Demo.ext 22050%Z true))));
      vm_compute; discriminate.
  - apply (proj1 (@load_hrirs_default Demo.ext 44100%Z false)). reflexivity.
  - apply (proj2 (proj2 (proj2 (proj2 (@load_hrirs_default Demo.ext 44100%Z false)))
                    "../data/HRTF_default.mat"%string
                    (or_introl (conj eq_refl eq_refl)))
             Demo.hrtf [(0, 3#2); (3#2, 3#2)]%Q);
      reflexivity.
Defined.

(** The dummy set of the default container at 44100 Hz. *)
Lemma load_hrirs_dummy_witness :
  load_hrirs 44100 None true = ([], inr Demo.dummy_hrirs)
  ∧ ∃ f m, hrirs_filename 44100 None = ([], inr f) ∧ loadmat f = Some m
      ∧ shape (left Demo.dummy_hrirs) = shape (np_squeeze (mat_hrir_l m))
      ∧ shape (right Demo.dummy_hrirs) = shape (np_squeeze (mat_hrir_r m))
      ∧ np_squeeze (mat_hrir_l m) = mat_hrir_l m
      ∧ np_squeeze (mat_hrir_r m) = mat_hrir_r m
      ∧ ∀ a, a = left Demo.dummy_hrirs ∨ a = right Demo.dummy_hrirs →
          ∃ g h rows, a = Arr2 g h rows ∧ length rows = g
            ∧ ∀ i row, rows !! i = Some row →
                length row = h ∧ row !! 0 = Some 1%Q
                ∧ ∀ j, 0 < j < h → row !! j = Some 0%Q.
Proof.
  assert (E : @load_hrirs Demo.ext 44100 None true = ([], inr Demo.dummy_hrirs))
    by (vm_compute; reflexivity).
  split; [exact E|].
  exact (@load_hrirs_dummy Demo.ext 44100%Z None [] Demo.dummy_hrirs E).
Defined.

(** A silent bank is returned as it is. *)
Lemma normalize_division_guarded_witness :
  normalize Demo.silent = ([], inr Demo.silent).
Proof.
  apply (proj2 (proj2 (@normalize_division_guarded Demo.ext Demo.silent))).
  - discriminate.
  - intros x Hx. vm_compute in Hx.
    destruct Hx as [<-|[<-|[<-|[<-|[]]]]]; reflexivity.
Defined.

(** C10 on a container whose impulse responses have one sample: the call
    without [dummy] returns the set, the call with [dummy] raises
    [IndexError], so the two do not fail in the same cases.  [np.squeeze]
    has made the loaded arrays one-dimensional, and the dummy branch writes
    the first column of a two-dimensional array.  So it is on a container
    whose impulse responses have no sample, where the arrays stay
    two-dimensional and have no first column. *)
Lemma dummy_fails_alone :
  (load_hrirs 44100 (Some "one_sample.mat"%string) false
   = ([], inr (mkHRIRs (Arr1 [1; 1 # 2]%Q) (Arr1 [1 # 2; 1]%Q)
                       [(0, 3 # 2); (3 # 2, 3 # 2)]%Q 44100))
   ∧ load_hrirs 44100 (Some "one_sample.mat"%string) true
     = ([], inl (IndexError "too many indices for array")))
  ∧ (load_hrirs 44100 (Some "no_sample.mat"%string) false
     = ([], inr (mkHRIRs (Arr2 2 0 [[]; []]) (Arr2 2 0 [[]; []])
                         [(0, 3 # 2); (3 # 2, 3 # 2)]%Q 44100))
     ∧ load_hrirs 44100 (Some "no_sample.mat"%string) true
       = ([], inl (IndexError "index is out of bounds for axis 1"))).
Proof.
  repeat split; vm_compute; reflexivity.
Qed.

(** With the default container, whose arrays are two-dimensional, the call
    with [dummy] fails as the call without it. *)
Lemma dummy_loads_container_witness :
  load_hrirs 48000 None true = ([], inl SampleRateMismatch)
  ↔ load_hrirs 48000 None false = ([], inl SampleRateMismatch).
Proof.
  apply (proj2 (proj2 (@dummy_loads_container Demo.ext 48000%Z None))).
  intros f m Hf Hm. vm_compute in Hf. injection Hf as <-.
  vm_compute in Hm. injection Hm as <-.
  split; exists 2, 3; (split; [reflexivity | lia]).
Defined.

(** Both writers in the concrete setting, called with the set of the
    default container; and the array writer with a destination in a
    directory that does not exist, which fails at [wavfile.write], after
    the 360 render calls. *)
Lemma writers_write_one_file_witness :
  (∃ calls warns data,
     write_ssr_brirs_loudspeaker "brirs" Demo.ls_irs tt 44100 (Some Demo.hrirs)
     = (calls ++ warns ++ [EvWavfileWrite "brirs.wav" 44100 data], inr tt)
     ∧ calls = map (λ angle, EvBinauralize tt Demo.ls_irs 44100
                               (np_deg2rad angle, 0%Q) Demo.hrirs) (seq 0 360)
     ∧ (warns = [] ∨ warns = [EvWarn "Normalizing BRIRs"])
     ∧ shape data = [4; 720])
  ∧ (∃ calls warns data,
       write_ssr_brirs_sdm "brirs.wav" Demo.sdm_p Demo.sdm_phi Demo.sdm_theta
         44100 (Some Demo.hrirs)
       = (calls ++ warns ++ [EvWavfileWrite "brirs.wav" 44100 data], inr tt)
       ∧ calls = map (λ angle, EvRenderBsdm Demo.sdm_p
                                 (map (λ x, x - np_deg2rad angle)%Q Demo.sdm_phi)
                                 Demo.sdm_theta Demo.hrirs) (seq 0 360)
       ∧ (warns = [] ∨ warns = [EvWarn "Normalizing BRIRs"])
       ∧ shape data = [4; 720])
  ∧ (∃ calls warns data,
       write_ssr_brirs_loudspeaker "/missing/brirs" Demo.ls_irs tt 44100
         (Some Demo.hrirs)
       = (calls ++ warns ++ [EvWavfileWrite "/missing/brirs.wav" 44100 data],
          inl (OSError "No such file or directory"))
       ∧ calls = map (λ angle, EvBinauralize tt Demo.ls_irs 44100
                                 (np_deg2rad angle, 0%Q) Demo.hrirs) (seq 0 360)
       ∧ (warns = [] ∨ warns = [EvWarn "Normalizing BRIRs"])
       ∧ shape data = [4; 720]).
Proof.
  split; [|split].
  - apply (proj1 (@writers_write_one_file Demo.ext "brirs" 44100%Z Demo.hrirs
                    eq_refl) Demo.ls_irs tt 2 2 eq_refl).
    + vm_compute. lia.
    + intros angle _. split; apply length_replicate.
  - apply (proj2 (@writers_write_one_file Demo.ext "brirs.wav" 44100%Z Demo.hrirs
                    eq_refl) Demo.sdm_p Demo.sdm_phi Demo.sdm_theta).
    + vm_compute. lia.
    + intros angle _. split; apply length_replicate.
  - apply (proj1 (@writers_write_one_file Demo.ext "/missing/brirs" 44100%Z
                    Demo.hrirs eq_refl) Demo.ls_irs tt 2 2 eq_refl).
    + vm_compute. lia.
    + intros angle _. split; apply length_replicate.
Defined.

(** The file both writers write in the concrete setting: 4 frames of 720
    channels, the channels [2 * k] and [2 * k + 1] of a frame holding the
    samples of the orientation [k]. *)
Lemma written_channels_witness :
  (∃ calls warns frames scale,
     write_ssr_brirs_loudspeaker "brirs" Demo.ls_irs tt 44100 (Some Demo.hrirs)
     = (calls ++ warns
          ++ [EvWavfileWrite "brirs.wav" 44100 (Arr2 4 720 frames)], inr tt)
     ∧ length frames = 4
     ∧ (((∀ x, scale x = x) ∧ warns = [])
        ∨ (∃ m, (1 < m)%Q ∧ (∀ x, scale x = (x / m)%Q)
                ∧ warns = [EvWarn "Normalizing BRIRs"]))
     ∧ ∀ i k, i < 4 → k < 360 →
         ∃ frame, frames !! i = Some frame ∧ length frame = 720
           ∧ frame !! (2 * k)
             = Some (scale (nth i (replicate 4 (np_deg2rad k)) 0%Q))
           ∧ frame !! (2 * k + 1)
             = Some (scale (nth i (replicate 4 (- np_deg2rad k)%Q) 0%Q)))
  ∧ (∃ calls warns frames scale,
       write_ssr_brirs_sdm "brirs" Demo.sdm_p Demo.sdm_phi Demo.sdm_theta 44100
         (Some Demo.hrirs)
       = (calls ++ warns
            ++ [EvWavfileWrite "brirs.wav" 44100 (Arr2 4 720 frames)], inr tt)
       ∧ length frames = 4
       ∧ (((∀ x, scale x = x) ∧ warns = [])
          ∨ (∃ m, (1 < m)%Q ∧ (∀ x, scale x = (x / m)%Q)
                  ∧ warns = [EvWarn "Normalizing BRIRs"]))
       ∧ ∀ i k, i < 4 → k < 360 →
           ∃ frame, frames !! i = Some frame ∧ length frame = 720
             ∧ frame !! (2 * k)
               = Some (scale (nth i (replicate 4 (0 - np_deg2rad k)%Q) 0%Q))
             ∧ frame !! (2 * k + 1)
               = Some (scale (nth i (replicate 4 (3 # 2)%Q) 0%Q))).
Proof.
  split.
  - apply (proj1 (@written_channels Demo.ext "brirs" 44100%Z Demo.hrirs eq_refl)
             Demo.ls_irs tt 2 2 eq_refl).
    + vm_compute. lia.
    + intros angle _. split; apply length_replicate.
  - apply (proj2 (@written_channels Demo.ext "brirs" 44100%Z Demo.hrirs eq_refl)
             Demo.sdm_p Demo.sdm_phi Demo.sdm_theta).
    + vm_compute. lia.
    + intros angle _. split; apply length_replicate.
Defined.

(** One-dimensional loudspeaker responses, and a source and a set that
    both have no sample. *)
Lemma writers_fail_before_rendering_witness :
  write_ssr_brirs_loudspeaker "brirs" Corner.flat_ls_irs tt 44100
    (Some Demo.hrirs)
  = ([], inl (IndexError "tuple index out of range"))
  ∧ write_ssr_brirs_loudspeaker "brirs" Corner.empty_ls_irs tt 44100
      (Some Corner.no_sample_hrirs)
    = ([], inl (ValueError "negative dimensions are not allowed"))
  ∧ write_ssr_brirs_sdm "brirs" [] Demo.sdm_phi Demo.sdm_theta 44100
      (Some Corner.no_sample_hrirs)
    = ([], inl (ValueError "negative dimensions are not allowed")).
Proof.
  split; [|split].
  - apply (proj1 (@writers_fail_before_rendering Demo.ext "brirs" 44100%Z
                    Demo.hrirs eq_refl)).
    intros L N. discriminate.
  - apply (proj1 (proj2 (@writers_fail_before_rendering Demo.ext "brirs" 44100%Z
                           Corner.no_sample_hrirs eq_refl))
             Corner.empty_ls_irs tt 2); reflexivity.
  - apply (proj2 (proj2 (@writers_fail_before_rendering Demo.ext "brirs" 44100%Z
                           Corner.no_sample_hrirs eq_refl))).
    reflexivity.
Defined.

(** Loudspeaker responses of one sample, or a room response of one
    arrival, with a set without samples: a bank of 720 rows and no
    column. *)
Lemma writers_zero_columns_witness :
  write_ssr_brirs_loudspeaker "brirs" Corner.column_ls_irs tt 44100
    (Some Corner.no_sample_hrirs)
  = (map (λ angle, EvBinauralize tt Corner.column_ls_irs 44100
                     (np_deg2rad angle, 0%Q) Corner.no_sample_hrirs)
         (seq 0 360),
     inl (ValueError
            "zero-size array to reduction operation maximum which has no identity"))
  ∧ write_ssr_brirs_sdm "brirs" Corner.click Demo.sdm_phi Demo.sdm_theta 44100
      (Some Corner.no_sample_hrirs)
    = (map (λ angle, EvRenderBsdm Corner.click
                       (map (λ x, x - np_deg2rad angle)%Q Demo.sdm_phi)
                       Demo.sdm_theta Corner.no_sample_hrirs)
           (seq 0 360),
       inl (ValueError
              "zero-size array to reduction operation maximum which has no identity")).
Proof.
  split.
  - apply (proj1 (@writers_zero_columns Demo.ext "brirs" 44100%Z
                    Corner.no_sample_hrirs eq_refl)
             Corner.column_ls_irs tt 2 1 eq_refl eq_refl).
    intros angle _. split; left; reflexivity.
  - apply (proj2 (@writers_zero_columns Demo.ext "brirs" 44100%Z
                    Corner.no_sample_hrirs eq_refl)
             Corner.click Demo.sdm_phi Demo.sdm_theta eq_refl).
    intros angle _. split; left; reflexivity.
Defined.

(** Renderers whose signals are too long from the orientation of 3 degrees
    on: four calls, then the error of the row assignment. *)
Lemma writers_refuse_wrong_length_witness :
  @write_ssr_brirs_loudspeaker Corner.ext_late "brirs" Demo.ls_irs tt 44100
    (Some Demo.hrirs)
  = (map (λ angle, @EvBinauralize Corner.ext_late tt Demo.ls_irs 44100
                     (@np_deg2rad Corner.ext_late angle, 0%Q) Demo.hrirs)
         (seq 0 4),
     inl (ValueError "could not broadcast input array"))
  ∧ @write_ssr_brirs_sdm Corner.ext_late "brirs" Demo.sdm_p Demo.sdm_phi
      Demo.sdm_theta 44100 (Some Demo.hrirs)
    = (map (λ angle, @EvRenderBsdm Corner.ext_late Demo.sdm_p
                       (map (λ x, x - @np_deg2rad Corner.ext_late angle)%Q
                            Demo.sdm_phi)
                       Demo.sdm_theta Demo.hrirs)
           (seq 0 4),
       inl (ValueError "could not broadcast input array")).
Proof.
  assert (H3 : 3 < 360) by lia.
  split.
  - apply (proj1 (@writers_refuse_wrong_length Corner.ext_late "brirs" 44100%Z
                    Demo.hrirs 3 eq_refl H3) Demo.ls_irs tt 2 2 eq_refl).
    + vm_compute. lia.
    + intros j Hj. destruct j as [|[|[|j]]]; [| | |lia];
        split; left; vm_compute; reflexivity.
    + intros irs [[H|H] _]; vm_compute in H; discriminate H.
  - apply (proj2 (@writers_refuse_wrong_length Corner.ext_late "brirs" 44100%Z
                    Demo.hrirs 3 eq_refl H3)
             Demo.sdm_p Demo.sdm_phi Demo.sdm_theta).
    + vm_compute. lia.
    + intros j Hj. destruct j as [|[|[|j]]]; [| | |lia];
        split; left; vm_compute; reflexivity.
    + intros irs [[H|H] _]; vm_compute in H; discriminate H.
Defined.

(** A rate without a default container, and the rate of the default
    container. *)
Lemma writers_default_hrirs_witness :
  (write_ssr_brirs_loudspeaker "brirs" Demo.ls_irs tt 22050 None
   = ([], inl UnsupportedSampleRate)
   ∧ write_ssr_brirs_sdm "brirs" Demo.sdm_p Demo.sdm_phi Demo.sdm_theta 22050
       None
     = ([], inl UnsupportedSampleRate))
  ∧ (fs Demo.hrirs = 44100%Z
     ∧ write_ssr_brirs_loudspeaker "brirs" Demo.ls_irs tt 44100 None
       = write_ssr_brirs_loudspeaker "brirs" Demo.ls_irs tt 44100
           (Some Demo.hrirs)
     ∧ write_ssr_brirs_sdm "brirs" Demo.sdm_p Demo.sdm_phi Demo.sdm_theta 44100
         None
       = write_ssr_brirs_sdm "brirs" Demo.sdm_p Demo.sdm_phi Demo.sdm_theta
           44100 (Some Demo.hrirs)).
Proof.
  split.
  - destruct (proj1 (@writers_default_hrirs Demo.ext "brirs" 22050%Z)
                UnsupportedSampleRate) as [A B]; [vm_compute; reflexivity|].
    split; [apply A | apply B].
  - destruct (proj1 (proj2 (@writers_default_hrirs Demo.ext "brirs" 44100%Z))
                Demo.hrirs) as (A & B & C); [vm_compute; reflexivity|].
    split; [exact A|]. split; [apply B | apply C].
Defined.

(** The set of the default container at 44100 Hz. *)
Lemma load_hrirs_returns_witness :
  ∃ f m,
    hrirs_filename 44100 None = ([], inr f) ∧ loadmat f = Some m
    ∧ pd_DataFrame (np_squeeze (mat_azi m)) (np_squeeze (mat_elev m))
      = inr (grid Demo.hrirs)
    ∧ HRIRs_invariant (shape (left Demo.hrirs)) (shape (right Demo.hrirs))
        (grid Demo.hrirs) = true
    ∧ mat_SamplingRate m = 44100%Z ∧ fs Demo.hrirs = 44100%Z
    ∧ left Demo.hrirs = np_squeeze (mat_hrir_l m)
    ∧ right Demo.hrirs = np_squeeze (mat_hrir_r m).
Proof.
  apply (proj1 (@load_hrirs_returns Demo.ext 44100%Z None false Demo.hrirs)).
  vm_compute. reflexivity.
Defined.

(** A container of impulse responses with one sample: the arrays of the
    set are one-dimensional. *)
Lemma load_hrirs_keeps_samples_witness :
  ∃ f m, hrirs_filename 44100 (Some "one_sample.mat"%string) = ([], inr f)
    ∧ loadmat f = Some m
    ∧ (wf (mat_hrir_l m) →
       shape (Arr1 [1; 1 # 2]%Q) = filter (λ n, n ≠ 1) (shape (mat_hrir_l m))
       ∧ elems (Arr1 [1; 1 # 2]%Q) = elems (mat_hrir_l m))
    ∧ (wf (mat_hrir_r m) →
       shape (Arr1 [1 # 2; 1]%Q) = filter (λ n, n ≠ 1) (shape (mat_hrir_r m))
       ∧ elems (Arr1 [1 # 2; 1]%Q) = elems (mat_hrir_r m)).
Proof.
  apply (@load_hrirs_keeps_samples Demo.ext 44100%Z
           (Some "one_sample.mat"%string) []
           (mkHRIRs (Arr1 [1; 1 # 2]%Q) (Arr1 [1 # 2; 1]%Q)
                    [(0, 3 # 2); (3 # 2, 3 # 2)]%Q 44100)).
  vm_compute. reflexivity.
Defined.

(** A file of one channel and a file of two channels make a signal of
    three channels. *)
Lemma load_audio_channels_witness :
  @load_audio Corner.studio (inr ["left.wav"; "stereo.wav"]%string) None
  = inr (inr ([[1; 0; -1]; [1; 3; 5]; [2; 4; 6]]%Q, 44100%Z)).
Proof.
  apply (@load_audio_channels Corner.studio ["left.wav"; "stereo.wav"]%string
           [(SfMono [1; 0; -1]%Q, 44100%Z);
            (SfFrames 3 2 [[1; 2]; [3; 4]; [5; 6]]%Q, 44100%Z)] 44100%Z None).
  - repeat constructor.
  - discriminate.
  - repeat constructor.
  - left. reflexivity.
Defined.

(** A file that cannot be read, two files at different rates, and a file
    at 44100 Hz asked for at 48000 Hz. *)
Lemma load_audio_errors_witness :
  @load_audio Corner.studio
    (inr ["left.wav"; "missing.wav"; "stereo.wav"]%string) None
  = inl (Passed "Error opening file: System error."%string)
  ∧ @load_audio Corner.studio (inr ["left.wav"; "slow.wav"]%string) (Some 44100%Z)
    = inl (Raised AssertionError)
  ∧ @load_audio Corner.studio (inr ["left.wav"]%string) (Some 48000%Z)
    = inl (Raised (ValueError "File: Found different fs:44100")).
Proof.
  split; [|split].
  - apply (proj1 (proj2 (@load_audio_errors Corner.studio None))
             ["left.wav"%string] [(SfMono [1; 0; -1]%Q, 44100%Z)]
             "missing.wav"%string ["stereo.wav"%string]).
    + repeat constructor.
    + reflexivity.
  - apply (proj1 (proj2 (proj2 (@load_audio_errors Corner.studio (Some 44100%Z))))
             ["left.wav"; "slow.wav"]%string
             [(SfMono [1; 0; -1]%Q, 44100%Z); (SfMono [1]%Q, 22050%Z)]).
    + repeat constructor.
    + exists (SfMono [1; 0; -1]%Q, 44100%Z), (SfMono [1]%Q, 22050%Z).
      split; [reflexivity|]. split; [|discriminate].
      apply list_elem_of_further, list_elem_of_here.
  - apply (proj2 (proj2 (proj2 (@load_audio_errors Corner.studio (Some 48000%Z))))
             ["left.wav"%string] [(SfMono [1; 0; -1]%Q, 44100%Z)]
             44100%Z 48000%Z).
    + repeat constructor.
    + discriminate.
    + repeat constructor.
    + reflexivity.
    + discriminate.
Defined.

(** An SDM container of three samples with NaN among its angles. *)
Lemma load_sdm_init_nan_witness :
  (∃ sdm_phi sdm_theta,
     load_sdm Corner.sdm_disk "room.mat" true
     = Some (mkD [3] [Num 1; NaN; Num (1 # 2)], sdm_phi, sdm_theta, 48000%Z)
     ∧ d_shape sdm_phi = [3]
     ∧ d_shape sdm_theta = [3]
     ∧ (NaN ∉ d_data sdm_phi) ∧ (NaN ∉ d_data sdm_theta)
     ∧ (∀ i, d_data sdm_phi !! i
             = match [Num 0; NaN; Num 3] !! i with
               | Some NaN => Some (Num 0)
               | o => o
               end)
     ∧ (∀ i, d_data sdm_theta !! i
             = match [NaN; Num 1; Num 2] !! i with
               | Some NaN => Some (Num (np_pi / 2))
               | o => o
               end))
  ∧ load_sdm Corner.sdm_disk "room.mat" false
    = Some (mkD [3] [Num 1; NaN; Num (1 # 2)], mkD [3] [Num 0; NaN; Num 3],
            mkD [3] [NaN; Num 1; Num 2], 48000%Z).
Proof.
  apply (proj2 (@load_sdm_init_nan Demo.ext Corner.sdm_disk "room.mat")
           Corner.room eq_refl).
Defined.

(** Renderers whose signals have one sample: the rows of the bank hold
    that sample four times. *)
Lemma one_sample_broadcast_witness :
  (Corner.rows_one_ls !! (2 * 90)
   = Some (replicate 4 (@np_deg2rad Corner.ext_one 90))
   ∧ Corner.rows_one_ls !! (2 * 90 + 1)
     = Some (replicate 4 (- @np_deg2rad Corner.ext_one 90)%Q))
  ∧ (Corner.rows_one_sdm !! (2 * 270)
     = Some (replicate 4 (0 - @np_deg2rad Corner.ext_one 270)%Q)
     ∧ Corner.rows_one_sdm !! (2 * 270 + 1) = Some (replicate 4 (3 # 2)%Q)).
Proof.
  assert (H90 : 90 < 360) by lia. assert (H270 : 270 < 360) by lia.
  split.
  - assert (E : @ssr_brirs_loudspeaker Corner.ext_one Demo.ls_irs tt 44100
                  Demo.hrirs
                = (Corner.run_one_ls.1, inr (Arr2 720 4 Corner.rows_one_ls)))
      by (vm_compute; reflexivity).
    destruct (proj1 (@one_sample_broadcast Corner.ext_one) Demo.ls_irs tt
                44100%Z Demo.hrirs _ 720 4 Corner.rows_one_ls 90
                [@np_deg2rad Corner.ext_one 90]
                [(- @np_deg2rad Corner.ext_one 90)%Q] E H90 eq_refl) as [A B].
    split; [apply (A _ eq_refl) | apply (B _ eq_refl)].
  - assert (E : @ssr_brirs_sdm Corner.ext_one Demo.sdm_p Demo.sdm_phi
                  Demo.sdm_theta Demo.hrirs
                = (Corner.run_one_sdm.1, inr (Arr2 720 4 Corner.rows_one_sdm)))
      by (vm_compute; reflexivity).
    destruct (proj2 (@one_sample_broadcast Corner.ext_one) Demo.sdm_p
                Demo.sdm_phi Demo.sdm_theta Demo.hrirs _ 720 4
                Corner.rows_one_sdm 270
                [(0 - @np_deg2rad Corner.ext_one 270)%Q] [(3 # 2)%Q]
                E H270 eq_refl) as [A B].
    split; [apply (A _ eq_refl) | apply (B _ eq_refl)].
Defined.

(** A named file that is not there; a container at 44100 Hz with impulse
    responses of one sample, asked for at 48000 Hz with [dummy]; and a
    container at 44100 Hz whose two arrays differ in their rows, asked for
    at its own rate. *)
Lemma load_hrirs_failure_order_witness :
  load_hrirs 44100 (Some "missing.mat"%string) false
  = ([], inl MissingDefaultData)
  ∧ (∃ msg, load_hrirs 48000 (Some "one_sample.mat"%string) true
            = ([], inl (IndexError msg)))
  ∧ load_hrirs 44100 (Some "uneven.mat"%string) false
    = ([], inl AssertionError).
Proof.
  split; [|split].
  - apply (proj1 (@load_hrirs_failure_order Demo.ext 44100%Z
                    (Some "missing.mat"%string) false "missing.mat" eq_refl)).
    reflexivity.
  - apply (proj1 (proj2 (@load_hrirs_failure_order Demo.ext 48000%Z
                           (Some "one_sample.mat"%string) true "one_sample.mat"
                           eq_refl)
                    Demo.hrtf_one_sample eq_refl) eq_refl).
    intros [(g & h & Hs & _) _]. vm_compute in Hs. discriminate Hs.
  - apply (proj2 (proj1 (proj2 (proj2 (@load_hrirs_failure_order Demo.ext 44100%Z
                                         (Some "uneven.mat"%string) false
                                         "uneven.mat" eq_refl)
                                  Demo.hrtf_uneven eq_refl)
                           (or_introl eq_refl)))).
    left. reflexivity.
Defined.

(** The file of the array writer in the concrete setting, whose bank is
    divided by its largest magnitude. *)
Lemma written_samples_bounded_witness :
  In (EvWavfileWrite "brirs.wav" 44100 Corner.file_ls)
     (write_ssr_brirs_loudspeaker "brirs" Demo.ls_irs tt 44100
        (Some Demo.hrirs)).1
  ∧ ∀ x, In x (elems Corner.file_ls) → (Qabs x <= 1)%Q.
Proof.
  assert (Hin : In (EvWavfileWrite "brirs.wav" 44100 Corner.file_ls)
                   (write_ssr_brirs_loudspeaker "brirs" Demo.ls_irs tt 44100
                      (Some Demo.hrirs)).1).
  { assert (E : (write_ssr_brirs_loudspeaker "brirs" Demo.ls_irs tt 44100
                   (Some Demo.hrirs)).1
                = removelast Corner.events_ls
                  ++ [EvWavfileWrite "brirs.wav" 44100 Corner.file_ls])
      by (vm_compute; reflexivity).
    rewrite E. apply in_or_app. right. left. reflexivity. }
  split; [exact Hin|].
  exact (proj1 (@written_samples_bounded Demo.ext (λ x Hx, Hx))
           "brirs"%string Demo.ls_irs tt 44100%Z (Some Demo.hrirs)
           "brirs.wav"%string 44100%Z Corner.file_ls Hin).
Defined.
